(** * RepoNuke (batch_delete.py): a shallow embedding and its properties

    The script is a sequential driver around the GitHub command line
    client.  It is embedded here as a state-and-exit monad over an explicit
    process state: the fields of the [BatchDeleter] object, the text still
    to be read from standard input, and the chronological trace of every
    observable action (lines printed, log lines appended, runs of [gh],
    reads from standard input, pauses).  The outside world (the [gh]
    binary and the file system) is a parameter. *)

From Stdlib Require Import List String Ascii ZArith NArith Bool Lia.
From Stdlib Require Import Floats.SpecFloat.
Import ListNotations.

Set Warnings "-register-all".

Local Open Scope string_scope.
Local Open Scope list_scope.
Local Open Scope Z_scope.

(** ** Python strings

    A [str] is modelled as a Rocq [string], one [ascii] per character, so
    the model covers the characters U+0000 to U+00FF; on that range the
    functions below follow CPython's [str] methods. *)

Module PyStr.

(** [str.isspace] on one character: TAB..CR, FS..US, SPACE, NEL, NBSP. *)
Definition is_space (c : ascii) : bool :=
  let n := N_of_ascii c in
  ((9 <=? n) && (n <=? 13) || (28 <=? n) && (n <=? 32)
   || (n =? 133) || (n =? 160))%N.

Fixpoint lstrip (s : string) : string :=
  match s with
  | EmptyString => EmptyString
  | String c s' => if is_space c then lstrip s' else s
  end.

Fixpoint rstrip (s : string) : string :=
  match s with
  | EmptyString => EmptyString
  | String c s' =>
      match rstrip s' with
      | EmptyString => if is_space c then EmptyString else String c EmptyString
      | r => String c r
      end
  end.

(** [s.strip()] *)
Definition strip (s : string) : string := rstrip (lstrip s).

(** [s.split()]: the maximal runs of non-space characters, in order. *)
Fixpoint split (s : string) : list string :=
  match s with
  | EmptyString => []
  | String c s' =>
      if is_space c then split s'
      else
        match s' with
        | EmptyString => [String c EmptyString]
        | String c' _ =>
            if is_space c' then String c EmptyString :: split s'
            else
              match split s' with
              | w :: ws => String c w :: ws
              | [] => [String c EmptyString]
              end
        end
  end.

(** [s.split(sep)] for a one-character separator: always at least one
    field, empty fields kept. *)
Fixpoint split_on (sep : ascii) (s : string) : list string :=
  match s with
  | EmptyString => [EmptyString]
  | String c s' =>
      if Ascii.eqb c sep then EmptyString :: split_on sep s'
      else
        match split_on sep s' with
        | w :: ws => String c w :: ws
        | [] => [String c EmptyString]
        end
  end.

(** [c.lower()]: A..Z and the Latin-1 capitals (all of U+00C0..U+00DE but
    the multiplication sign U+00D7) move up by 32. *)
Definition lower_char (c : ascii) : ascii :=
  let n := N_of_ascii c in
  if ((65 <=? n) && (n <=? 90)
      || (192 <=? n) && (n <=? 222) && negb (n =? 215))%N
  then ascii_of_N (n + 32) else c.

Fixpoint lower (s : string) : string :=
  match s with
  | EmptyString => EmptyString
  | String c s' => String (lower_char c) (lower s')
  end.

(** [s.startswith(p)] *)
Definition startswith (p s : string) : bool := String.prefix p s.

(** [p in s] for two strings. *)
Fixpoint contains (p s : string) : bool :=
  String.prefix p s
  || match s with
     | EmptyString => false
     | String _ s' => contains p s'
     end.

Definition digit_of (c : ascii) : option Z :=
  let n := N_of_ascii c in
  if ((48 <=? n) && (n <=? 57))%N then Some (Z.of_N n - 48) else None.

(** The digits of a decimal literal as [int] reads them: at least one
    digit, and single underscores allowed between digits only.
    [after_digit] tells whether the previous character was a digit. *)
Fixpoint digits (acc : Z) (after_digit : bool) (s : string) : option Z :=
  match s with
  | EmptyString => if after_digit then Some acc else None
  | String c s' =>
      match digit_of c with
      | Some d => digits (10 * acc + d) true s'
      | None =>
          if Ascii.eqb c "_"%char && after_digit then digits acc false s'
          else None
      end
  end.

(** The white space [int] drops around a number: TAB..CR, SPACE, NEL and
    NBSP, but not FS..US, which [str.strip] drops. *)
Definition is_int_space (c : ascii) : bool :=
  let n := N_of_ascii c in
  ((9 <=? n) && (n <=? 13) || (n =? 32) || (n =? 133) || (n =? 160))%N.

Fixpoint int_lstrip (s : string) : string :=
  match s with
  | EmptyString => EmptyString
  | String c s' => if is_int_space c then int_lstrip s' else s
  end.

Fixpoint int_rstrip (s : string) : string :=
  match s with
  | EmptyString => EmptyString
  | String c s' =>
      match int_rstrip s' with
      | EmptyString => if is_int_space c then EmptyString else String c EmptyString
      | r => String c r
      end
  end.

(** The number of digits of a literal; underscores do not count. *)
Fixpoint digit_count (s : string) : N :=
  match s with
  | EmptyString => 0%N
  | String c s' =>
      match digit_of c with
      | Some _ => N.succ (digit_count s')
      | None => digit_count s'
      end
  end.

(** [sys.int_info.default_max_str_digits]: the interpreter refuses to
    convert a decimal literal of more digits. *)
Definition max_str_digits : N := 4300%N.

(** The literal after the sign: within the limit on the number of
    digits, and well formed. *)
Definition literal (s : string) : option Z :=
  if (digit_count s <=? max_str_digits)%N then digits 0 false s else None.

(** [int(s)]: [None] stands for [ValueError].  Surrounding white space is
    dropped, then an optional sign, then the digits. *)
Definition int (s : string) : option Z :=
  match int_rstrip (int_lstrip s) with
  | String "+" r => literal r
  | String "-" r => option_map Z.opp (literal r)
  | r => literal r
  end.

End PyStr.

(** ** Python values

    What [json.load] can return and what therefore can end up in the
    fields of the session.  A [PDict] holds the items of the dictionary in
    insertion order (its keys are distinct). *)

Inductive pyval : Type :=
| PNone
| PBool (b : bool)
| PInt (z : Z)
| PFloat (f : spec_float)
| PStr (s : string)
| PList (l : list pyval)
| PDict (items : list (string * pyval)).

(** [bool(v)] *)
Definition truthy (v : pyval) : bool :=
  match v with
  | PNone => false
  | PBool b => b
  | PInt z => negb (z =? 0)
  | PFloat (S754_zero _) => false
  | PFloat _ => true
  | PStr s => negb (String.eqb s "")
  | PList l => match l with [] => false | _ => true end
  | PDict items => match items with [] => false | _ => true end
  end.

Fixpoint chars (s : string) : list pyval :=
  match s with
  | EmptyString => []
  | String c s' => PStr (String c EmptyString) :: chars s'
  end.

(** The values [for x in v] goes through; [None] stands for [TypeError]. *)
Definition py_iter (v : pyval) : option (list pyval) :=
  match v with
  | PList l => Some l
  | PStr s => Some (chars s)
  | PDict items => Some (map (fun kv => PStr (fst kv)) items)
  | _ => None
  end.

(** [len(v)]; [None] stands for [TypeError]. *)
Definition py_len (v : pyval) : option Z :=
  match v with
  | PList l => Some (Z.of_nat (List.length l))
  | PStr s => Some (Z.of_nat (String.length s))
  | PDict items => Some (Z.of_nat (List.length items))
  | _ => None
  end.

Fixpoint dict_get (key : string) (items : list (string * pyval)) : option pyval :=
  match items with
  | [] => None
  | (k, v) :: rest => if String.eqb k key then Some v else dict_get key rest
  end.

Definition is_str (key : string) (v : pyval) : bool :=
  match v with
  | PStr s => String.eqb s key
  | _ => false
  end.

(** [key in v] for a string [key]; [None] stands for [TypeError]. *)
Definition py_in (key : string) (v : pyval) : option bool :=
  match v with
  | PDict items => Some (match dict_get key items with Some _ => true | None => false end)
  | PList l => Some (existsb (is_str key) l)
  | PStr s => Some (PyStr.contains key s)
  | _ => None
  end.

(** [v[key]] for a string [key], used only after [key in v] held; [None]
    stands for [TypeError] (a list or a string indexed by a string). *)
Definition py_getitem (key : string) (v : pyval) : option pyval :=
  match v with
  | PDict items => dict_get key items
  | _ => None
  end.

(** ** Observable actions *)

(** The lines the script prints, one constructor per [print] or
    [print_color] call of the source, with the values formatted into the
    line as arguments (the text and the colour are not modelled). *)
Inductive message : Type :=
(* check_gh_cli *)
| MsgGhNotInstalled | MsgPleaseInstall
| MsgInstallWindows | MsgInstallMacOS | MsgInstallLinux
(* check_auth *)
| MsgCheckingAuth | MsgNotAuthenticated | MsgPleaseLogin
| MsgCheckingDeletePermissions | MsgFailedDeletePermissions
| MsgPleaseRefresh | MsgAuthVerified
(* get_username *)
| MsgNoUsername | MsgUsingUsername (user : pyval)
(* list_repositories *)
| MsgFetching
(* interactive_selection *)
| MsgInteractiveSelection | MsgAvailable | MsgNoRepositoriesFound (user : pyval)
| MsgBlank | MsgRepoItem (i : Z) (repo : string)
| MsgEnterNumbers | MsgOrEnterAll | MsgInterrupted
| MsgSkippingInvalid (num_str : string) | MsgNoneSelected
(* load_from_file *)
| MsgFileNotFound (path : string) | MsgFileReadError
| MsgLoadedFile (n : Z) (path : string)
(* load_config *)
| MsgConfigNotFound (path : string) | MsgConfigLoaded (path : string)
| MsgConfigParseError | MsgConfigLoadError
(* delete_repository *)
| MsgWouldDelete (user repo : pyval) | MsgDeleting (user repo : pyval)
| MsgDeleted (user repo : pyval) | MsgDeleteFailed (user repo : pyval)
(* batch_delete *)
| MsgStarting | MsgTotalToDelete (total : Z)
| MsgNotFoundOrInaccessible (user repo : pyval) | MsgNoValidRepositories
| MsgToBeDeleted | MsgListItem (user repo : pyval)
| MsgIrreversible | MsgBackups | MsgCancelled
| MsgProcessing | MsgProgress (i n : Z)
| MsgSummary | MsgSummarySuccessful (n : Z) | MsgSummaryFailed (n : Z)
| MsgSummaryTotal (n : Z) | MsgCheckLog | MsgCompleted
(* main *)
| MsgBanner | MsgRule | MsgNoRepositoriesSpecified.

(** The lines appended to the log file (the time stamp is not modelled). *)
Inductive log_line : Type :=
| LogStarting
| LogSuccess (user repo : pyval)
| LogFailed (user repo : pyval)
| LogSummary (total successful failed : Z).

(** The runs of the external client.  Where the source formats
    [f"{self.username}/{repo}"] the two values are kept apart. *)
Inductive gh_cmd : Type :=
| GhVersion                          (* gh --version *)
| GhAuthStatus                       (* gh auth status *)
| GhApiUserSilent                    (* gh api user --silent *)
| GhAuthRefresh                      (* gh auth refresh -h github.com -s delete_repo *)
| GhApiUserLogin                     (* gh api user --jq .login *)
| GhRepoList (user : string)         (* gh repo list USER --limit 100 --json name --jq .[].name *)
| GhRepoView (user repo : pyval)     (* gh repo view USER/REPO *)
| GhRepoDelete (user repo : pyval).  (* gh repo delete USER/REPO --yes *)

(** Exceptions of the script.  [OSError] stands for any [OSError] that is
    not a [FileNotFoundError], such as [PermissionError]; [ValueError] is
    what [subprocess.run] raises for an argument that holds a NUL
    character, and [UnicodeDecodeError] what it raises under [text=True]
    for an output that cannot be decoded. *)
Inductive exn : Type :=
| EOFError | FileNotFoundError | TypeError | AttributeError
| ValueError | UnicodeDecodeError | OSError.

(** What becomes of a call of [subprocess.run]: the binary ran ([zero]
    tells whether its return code was 0), or the call itself raised an
    exception, [FileNotFoundError] when there is no such binary. *)
Inductive gh_result : Type :=
| GhDone (zero : bool) (stdout : string)
| GhRaised (e : exn).

(** One read of standard input: a line, or an interruption at the prompt. *)
Inductive stdin_item : Type :=
| Line (text : string)
| Interrupt.

Inductive prompt : Type :=
| PromptSelection       (* input() *)
| PromptConfirm.        (* input("Are you absolutely sure? Type 'DELETE' to confirm: ") *)

Inductive event : Type :=
| EPrint (m : message)
| ELog (l : log_line)
| EGh (c : gh_cmd) (r : gh_result)
| EInput (p : prompt) (r : option stdin_item)   (* [None]: end of input *)
| ESleep                                        (* time.sleep(0.5) *)
| EPrintHelp.                                   (* parser.print_help() *)

(** ** The outside world *)

Inductive json_read : Type :=
| JsonDecodeError
| JsonOtherError          (* the file cannot be opened or decoded *)
| JsonValue (v : pyval).

(** [gh] answers a command knowing everything that happened before it;
    [read_lines] gives the lines of a text file ([None]: reading fails);
    [json_load] is [open] followed by [json.load]. *)
Record world : Type := {
  gh : list event -> gh_cmd -> gh_result;
  path_exists : string -> bool;
  read_lines : string -> option (list string);
  json_load : string -> json_read
}.

(** ** Process state and the monad *)

Record state : Type := mkState {
  username : pyval;
  repositories : pyval;
  successful_deletions : Z;
  failed_deletions : Z;
  verbose : bool;
  dry_run : bool;
  stdin : list stdin_item;
  trace : list event
}.

Inductive outcome (A : Type) : Type :=
| Return (a : A) (s : state)
| Exit (code : Z) (s : state)          (* sys.exit(code) *)
| Uncaught (e : exn) (s : state).

Arguments Return {A} a s.
Arguments Exit {A} code s.
Arguments Uncaught {A} e s.

Definition M (A : Type) : Type := state -> outcome A.

Definition ret {A} (a : A) : M A := fun s => Return a s.

Definition bind {A B} (m : M A) (k : A -> M B) : M B :=
  fun s =>
    match m s with
    | Return a s' => k a s'
    | Exit code s' => Exit code s'
    | Uncaught e s' => Uncaught e s'
    end.

Notation "x <- m ;; k" := (bind m (fun x => k))
  (at level 61, m at next level, right associativity).
Notation "m ;;; k" := (bind m (fun _ => k))
  (at level 61, right associativity).

Definition final {A} (o : outcome A) : state :=
  match o with
  | Return _ s => s
  | Exit _ s => s
  | Uncaught _ s => s
  end.

Definition sys_exit {A} (code : Z) : M A := fun s => Exit code s.
Definition raise {A} (e : exn) : M A := fun s => Uncaught e s.

Definition get {A} (field : state -> A) : M A := fun s => Return (field s) s.

(** The state once [e] has happened. *)
Definition push (e : event) (s : state) : state :=
  mkState (username s) (repositories s) (successful_deletions s)
          (failed_deletions s) (verbose s) (dry_run s) (stdin s)
          (trace s ++ [e]).

Definition emit (e : event) : M unit := fun s => Return tt (push e s).

(** The state once the events [es] have happened, in this order. *)
Definition push_all (es : list event) (s : state) : state :=
  mkState (username s) (repositories s) (successful_deletions s)
          (failed_deletions s) (verbose s) (dry_run s) (stdin s)
          (trace s ++ es).

Definition set_username (v : pyval) : M unit :=
  fun s => Return tt
    (mkState v (repositories s) (successful_deletions s)
             (failed_deletions s) (verbose s) (dry_run s) (stdin s) (trace s)).

Definition set_repositories (v : pyval) : M unit :=
  fun s => Return tt
    (mkState (username s) v (successful_deletions s)
             (failed_deletions s) (verbose s) (dry_run s) (stdin s) (trace s)).

Definition set_successful_deletions (n : Z) : M unit :=
  fun s => Return tt
    (mkState (username s) (repositories s) n
             (failed_deletions s) (verbose s) (dry_run s) (stdin s) (trace s)).

Definition set_failed_deletions (n : Z) : M unit :=
  fun s => Return tt
    (mkState (username s) (repositories s) (successful_deletions s)
             n (verbose s) (dry_run s) (stdin s) (trace s)).

(** [input(...)]: takes the next item of standard input.  An interruption
    is handed to the caller, which catches it; at end of input [EOFError]
    goes uncaught. *)
Definition input (p : prompt) : M stdin_item :=
  fun s =>
    match stdin s with
    | [] =>
        Uncaught EOFError
          (mkState (username s) (repositories s) (successful_deletions s)
                   (failed_deletions s) (verbose s) (dry_run s) []
                   (trace s ++ [EInput p None]))
    | item :: rest =>
        Return item
          (mkState (username s) (repositories s) (successful_deletions s)
                   (failed_deletions s) (verbose s) (dry_run s) rest
                   (trace s ++ [EInput p (Some item)]))
    end.

Definition print_color (m : message) : M unit := emit (EPrint m).
Definition log (l : log_line) : M unit := emit (ELog l).
Definition sleep : M unit := emit ESleep.

(** ** The script *)

(** The parsed command line ([argparse]'s namespace). *)
Record args : Type := mkArgs {
  arg_repositories : list string;
  arg_username : option string;
  arg_file : option string;
  arg_config : option string;
  arg_auto_confirm : bool;
  arg_verbose : bool;
  arg_dry_run : bool;
  arg_interactive : bool
}.

Section Script.

Variable w : world.

(** [subprocess.run([...], capture_output=True)]: the answer of the client
    at this point of the run, recorded in the trace. *)
Definition run (c : gh_cmd) : M gh_result :=
  tr <- get trace ;;
  let r := gh w tr c in
  emit (EGh c r) ;;; ret r.

(** [subprocess.run(..., check=True)] under [except CalledProcessError]:
    [false] when the handler is entered; what the call itself raises is
    not handled. *)
Definition run_check (c : gh_cmd) : M bool :=
  r <- run c ;;
  match r with
  | GhDone zero _ => ret zero
  | GhRaised e => raise e
  end.

(** [except (subprocess.CalledProcessError, FileNotFoundError)] *)
Definition check_gh_cli : M unit :=
  r <- run GhVersion ;;
  match r with
  | GhDone true _ => ret tt
  | GhDone false _ | GhRaised FileNotFoundError =>
      print_color MsgGhNotInstalled ;;;
      print_color MsgPleaseInstall ;;;
      print_color MsgInstallWindows ;;;
      print_color MsgInstallMacOS ;;;
      print_color MsgInstallLinux ;;;
      sys_exit 1
  | GhRaised e => raise e
  end.

Definition check_auth : M unit :=
  print_color MsgCheckingAuth ;;;
  ok <- run_check GhAuthStatus ;;
  (if ok then ret tt
   else print_color MsgNotAuthenticated ;;;
        print_color MsgPleaseLogin ;;;
        sys_exit 1) ;;;
  ok <- run_check GhApiUserSilent ;;
  (if ok then ret tt
   else print_color MsgCheckingDeletePermissions ;;;
        ok' <- run_check GhAuthRefresh ;;
        if ok' then ret tt
        else print_color MsgFailedDeletePermissions ;;;
             print_color MsgPleaseRefresh ;;;
             sys_exit 1) ;;;
  print_color MsgAuthVerified.

Definition get_username : M unit :=
  u <- get username ;;
  (if negb (truthy u) then
     r <- run GhApiUserLogin ;;
     match r with
     | GhDone true stdout => set_username (PStr (PyStr.strip stdout))
     | GhDone false _ => print_color MsgNoUsername
     | GhRaised e => raise e
     end
   else ret tt) ;;;
  u <- get username ;;
  print_color (MsgUsingUsername u).

Definition nonempty (s : string) : bool := negb (String.eqb s "").

(** The argument list holds [self.username] itself, so anything but a
    string makes [subprocess.run] raise [TypeError]. *)
Definition list_repositories : M (list string) :=
  print_color MsgFetching ;;;
  u <- get username ;;
  match u with
  | PStr user =>
      r <- run (GhRepoList user) ;;
      match r with
      | GhDone true stdout =>
          ret (filter nonempty (map PyStr.strip (PyStr.split_on "010"%char stdout)))
      | GhDone false _ => ret []
      | GhRaised e => raise e
      end
  | _ => raise TypeError
  end.

(** [for i, repo in enumerate(repos, 1): print(f"{i:3d}) {repo}")] *)
Fixpoint print_items (i : Z) (repos : list string) : M unit :=
  match repos with
  | [] => ret tt
  | repo :: rest => print_color (MsgRepoItem i repo) ;;; print_items (i + 1) rest
  end.

(** The loop over [selection.split()], with [selected] as accumulator. *)
Fixpoint select_loop (repos tokens selected : list string) : M (list string) :=
  match tokens with
  | [] => ret selected
  | num_str :: rest =>
      match PyStr.int num_str with
      | Some num =>
          if (1 <=? num) && (num <=? Z.of_nat (List.length repos)) then
            select_loop repos rest
              (selected ++ [nth (Z.to_nat (num - 1)) repos ""])
          else
            print_color (MsgSkippingInvalid num_str) ;;;
            select_loop repos rest selected
      | None =>
          print_color (MsgSkippingInvalid num_str) ;;;
          select_loop repos rest selected
      end
  end.

(** [interactive_selection] from the test on [repos] onwards. *)
Definition interactive_selection_from (repos : list string) : M unit :=
  (match repos with
   | [] =>
       u <- get username ;;
       print_color (MsgNoRepositoriesFound u) ;;;
       sys_exit 0
   | _ => ret tt
   end) ;;;
  print_color MsgBlank ;;;
  print_items 1 repos ;;;
  print_color MsgBlank ;;;
  print_color MsgEnterNumbers ;;;
  print_color MsgOrEnterAll ;;;
  item <- input PromptSelection ;;
  match item with
  | Interrupt => print_color MsgInterrupted ;;; sys_exit 0
  | Line text =>
      let selection := PyStr.strip text in
      (if String.eqb (PyStr.lower selection) "all" then
         set_repositories (PList (map PStr repos))
       else
         selected <- select_loop repos (PyStr.split selection) [] ;;
         set_repositories (PList (map PStr selected))) ;;;
      r <- get repositories ;;
      if negb (truthy r) then
        print_color MsgNoneSelected ;;; sys_exit 0
      else ret tt
  end.

Definition interactive_selection : M unit :=
  print_color MsgInteractiveSelection ;;;
  print_color MsgAvailable ;;;
  repos <- list_repositories ;;
  interactive_selection_from repos.

Definition keep_line (line : string) : bool :=
  nonempty line && negb (PyStr.startswith "#" line).

Definition load_from_file (file_path : string) : M unit :=
  if negb (path_exists w file_path) then
    print_color (MsgFileNotFound file_path) ;;; sys_exit 1
  else
    match read_lines w file_path with
    | None => print_color MsgFileReadError ;;; sys_exit 1
    | Some lines =>
        let repos := filter keep_line (map PyStr.strip lines) in
        set_repositories (PList (map PStr repos)) ;;;
        print_color (MsgLoadedFile (Z.of_nat (List.length repos)) file_path)
    end.

(** [key in config and config[key]] inside the [try] of [load_config]:
    the value when the test holds, [None] when it does not; a [TypeError]
    is caught by [except Exception], which exits with code 1. *)
Definition config_entry (key : string) (config : pyval) : M (option pyval) :=
  match py_in key config with
  | None => print_color MsgConfigLoadError ;;; sys_exit 1
  | Some false => ret None
  | Some true =>
      match py_getitem key config with
      | None => print_color MsgConfigLoadError ;;; sys_exit 1
      | Some v => ret (if truthy v then Some v else None)
      end
  end.

Definition load_config (config_path : string) : M unit :=
  if negb (path_exists w config_path) then
    print_color (MsgConfigNotFound config_path) ;;; sys_exit 1
  else
    match json_load w config_path with
    | JsonDecodeError => print_color MsgConfigParseError ;;; sys_exit 1
    | JsonOtherError => print_color MsgConfigLoadError ;;; sys_exit 1
    | JsonValue config =>
        u <- config_entry "username" config ;;
        (match u with
         | Some v => set_username v
         | None => ret tt
         end) ;;;
        r <- config_entry "repositories" config ;;
        (match r with
         | Some v => set_repositories v
         | None => ret tt
         end) ;;;
        print_color (MsgConfigLoaded config_path)
    end.

Definition validate_repository (repo : pyval) : M bool :=
  u <- get username ;;
  run_check (GhRepoView u repo).

Definition delete_repository (repo : pyval) : M bool :=
  d <- get dry_run ;;
  u <- get username ;;
  if d then
    print_color (MsgWouldDelete u repo) ;;; ret true
  else
    v <- get verbose ;;
    (if v then print_color (MsgDeleting u repo) else ret tt) ;;;
    ok <- run_check (GhRepoDelete u repo) ;;
    if ok then
      print_color (MsgDeleted u repo) ;;;
      log (LogSuccess u repo) ;;;
      ret true
    else
      print_color (MsgDeleteFailed u repo) ;;;
      log (LogFailed u repo) ;;;
      ret false.

(** Lines 249-255: the validation pass, with [valid_repos] as
    accumulator. *)
Fixpoint validation_pass (repos valid_repos : list pyval) : M (list pyval) :=
  match repos with
  | [] => ret valid_repos
  | repo :: rest =>
      ok <- validate_repository repo ;;
      if ok then validation_pass rest (valid_repos ++ [repo])
      else
        u <- get username ;;
        print_color (MsgNotFoundOrInaccessible u repo) ;;;
        f <- get failed_deletions ;;
        set_failed_deletions (f + 1) ;;;
        validation_pass rest valid_repos
  end.

Fixpoint print_list (repos : list pyval) : M unit :=
  match repos with
  | [] => ret tt
  | repo :: rest =>
      u <- get username ;;
      print_color (MsgListItem u repo) ;;; print_list rest
  end.

(** Lines 262-280: the confirmation prompt. *)
Definition confirmation (valid_repos : list pyval) : M unit :=
  print_color MsgToBeDeleted ;;;
  print_list valid_repos ;;;
  print_color MsgBlank ;;;
  d <- get dry_run ;;
  (if negb d then
     print_color MsgIrreversible ;;;
     print_color MsgBackups ;;;
     print_color MsgBlank
   else ret tt) ;;;
  item <- input PromptConfirm ;;
  match item with
  | Line text =>
      if negb (String.eqb text "DELETE") then
        print_color MsgCancelled ;;; sys_exit 0
      else ret tt
  | Interrupt => print_color MsgInterrupted ;;; sys_exit 0
  end.

(** Lines 286-295: the deletion pass; [i] counts from 1, [n] is
    [len(valid_repos)]. *)
Fixpoint deletion_pass (i n : Z) (valid_repos : list pyval) : M unit :=
  match valid_repos with
  | [] => ret tt
  | repo :: rest =>
      print_color (MsgProgress i n) ;;;
      ok <- delete_repository repo ;;
      (if ok then
         k <- get successful_deletions ;;
         set_successful_deletions (k + 1)
       else
         f <- get failed_deletions ;;
         set_failed_deletions (f + 1)) ;;;
      sleep ;;;
      deletion_pass (i + 1) n rest
  end.

(** Lines 297-311. *)
Definition summary : M unit :=
  print_color MsgBlank ;;;
  print_color MsgSummary ;;;
  k <- get successful_deletions ;;
  f <- get failed_deletions ;;
  print_color (MsgSummarySuccessful k) ;;;
  print_color (MsgSummaryFailed f) ;;;
  print_color (MsgSummaryTotal (k + f)) ;;;
  d <- get dry_run ;;
  (if negb d then log (LogSummary (k + f) k f) else ret tt) ;;;
  (if 0 <? f then
     print_color MsgBlank ;;; print_color MsgCheckLog
   else ret tt) ;;;
  print_color MsgCompleted.

Definition batch_delete (auto_confirm : bool) : M unit :=
  repos <- get repositories ;;
  match py_len repos, py_iter repos with
  | Some total, Some candidates =>
      set_successful_deletions 0 ;;;
      set_failed_deletions 0 ;;;
      print_color MsgStarting ;;;
      print_color (MsgTotalToDelete total) ;;;
      print_color MsgBlank ;;;
      valid_repos <- validation_pass candidates [] ;;
      (match valid_repos with
       | [] => print_color MsgNoValidRepositories ;;; sys_exit 1
       | _ => ret tt
       end) ;;;
      (if negb auto_confirm then confirmation valid_repos else ret tt) ;;;
      print_color MsgBlank ;;;
      print_color MsgProcessing ;;;
      deletion_pass 1 (Z.of_nat (List.length valid_repos)) valid_repos ;;;
      summary
  | _, _ => raise TypeError
  end.

Definition set_verbose (b : bool) : M unit :=
  fun s => Return tt
    (mkState (username s) (repositories s) (successful_deletions s)
             (failed_deletions s) b (dry_run s) (stdin s) (trace s)).

Definition set_dry_run (b : bool) : M unit :=
  fun s => Return tt
    (mkState (username s) (repositories s) (successful_deletions s)
             (failed_deletions s) (verbose s) b (stdin s) (trace s)).

(** [deleter.repositories.extend(more)]: only a list has [extend]. *)
Definition extend (more : list string) : M unit :=
  r <- get repositories ;;
  match r with
  | PList l => set_repositories (PList (l ++ map PStr more))
  | _ => raise AttributeError
  end.

(** [main] from the creation of the deleter up to, and without, the call
    of [batch_delete] (lines 346-383). *)
Definition main_resolve (a : args) : M unit :=
  set_verbose (arg_verbose a) ;;;
  set_dry_run (arg_dry_run a) ;;;
  (match arg_username a with
   | Some u => if nonempty u then set_username (PStr u) else ret tt
   | None => ret tt
   end) ;;;
  print_color MsgBanner ;;;
  print_color MsgRule ;;;
  log LogStarting ;;;
  check_gh_cli ;;;
  check_auth ;;;
  get_username ;;;
  (match arg_config a with
   | Some path => if nonempty path then load_config path else ret tt
   | None => ret tt
   end) ;;;
  (match arg_file a with
   | Some path => if nonempty path then load_from_file path else ret tt
   | None => ret tt
   end) ;;;
  (match arg_repositories a with
   | [] => ret tt
   | more => extend more
   end) ;;;
  r <- get repositories ;;
  (if arg_interactive a || negb (truthy r) then interactive_selection
   else ret tt) ;;;
  r <- get repositories ;;
  if negb (truthy r) then
    print_color MsgNoRepositoriesSpecified ;;;
    emit EPrintHelp ;;;
    sys_exit 0
  else ret tt.

Definition main (a : args) : M unit :=
  main_resolve a ;;;
  batch_delete (arg_auto_confirm a).

End Script.

(** [BatchDeleter()] in a fresh process reading [input_lines]. *)
Definition new_deleter (input_lines : list stdin_item) : state :=
  mkState (PStr "") (PList []) 0 0 false false input_lines [].

(** The exit status of the process. *)
Definition exit_code {A} (o : outcome A) : Z :=
  match o with
  | Return _ _ => 0
  | Exit code _ => code
  | Uncaught _ _ => 1
  end.

(** ** Reading a trace *)

(** The answers [validate_repository] got: repository and verdict. *)
Definition view_of (e : event) : list (pyval * bool) :=
  match e with
  | EGh (GhRepoView _ repo) (GhDone zero _) => [(repo, zero)]
  | _ => []
  end.

Definition validated (tr : list event) : list (pyval * bool) :=
  flat_map view_of tr.

(** The arguments [delete_repository] was called with: each call shows
    either as its dry-run notice or as the run of [gh repo delete]. *)
Definition attempt_of (e : event) : list pyval :=
  match e with
  | EGh (GhRepoDelete _ repo) _ => [repo]
  | EPrint (MsgWouldDelete _ repo) => [repo]
  | _ => []
  end.

Definition delete_calls (tr : list event) : list pyval :=
  flat_map attempt_of tr.

Definition is_view_fail (e : event) : bool :=
  match e with
  | EGh (GhRepoView _ _) (GhDone false _) => true
  | _ => false
  end.

Definition is_delete_fail (e : event) : bool :=
  match e with
  | EGh (GhRepoDelete _ _) (GhDone false _) => true
  | _ => false
  end.

(** A call of [delete_repository] that returned [True]. *)
Definition is_delete_ok (e : event) : bool :=
  match e with
  | EGh (GhRepoDelete _ _) (GhDone true _) => true
  | EPrint (MsgWouldDelete _ _) => true
  | _ => false
  end.

Definition is_live_delete (e : event) : bool :=
  match e with
  | EGh (GhRepoDelete _ _) _ => true
  | _ => false
  end.

Definition is_log (e : event) : bool :=
  match e with
  | ELog _ => true
  | _ => false
  end.

Definition is_input (e : event) : bool :=
  match e with
  | EInput _ _ => true
  | _ => false
  end.

Definition is_summary_total (e : event) : bool :=
  match e with
  | EPrint (MsgSummaryTotal _) => true
  | _ => false
  end.

(** How many events of a trace satisfy [f]. *)
Definition tally (f : event -> bool) (tr : list event) : Z :=
  Z.of_nat (List.length (filter f tr)).

(** Events none of the observers above looks at. *)
Definition silent (e : event) : bool :=
  match e with
  | EGh (GhRepoView _ _) _ | EGh (GhRepoDelete _ _) _ => false
  | EPrint (MsgWouldDelete _ _) | EPrint (MsgSummaryTotal _) => false
  | ELog _ | EInput _ _ => false
  | _ => true
  end.

(** [e] does not address a repository of anybody but [user]. *)
Definition owned_by (user : pyval) (e : event) : Prop :=
  match e with
  | EGh (GhRepoView u _) _ | EGh (GhRepoDelete u _) _ => u = user
  | _ => True
  end.

Definition prefix_of {A} (l1 l2 : list A) : Prop :=
  exists rest, l2 = l1 ++ rest.

(** ** Vocabulary of the statements *)

(** The events of each phase of [batch_delete]. *)
Definition is_validation (e : event) : bool :=
  match e with
  | EGh (GhRepoView _ _) _ | EPrint (MsgNotFoundOrInaccessible _ _) => true
  | _ => false
  end.

Definition is_confirmation (e : event) : bool :=
  silent e || is_input e.

Definition is_deletion (e : event) : bool :=
  match e with
  | EPrint (MsgProgress _ _) | EPrint (MsgWouldDelete _ _)
  | EPrint (MsgDeleting _ _) | EPrint (MsgDeleted _ _)
  | EPrint (MsgDeleteFailed _ _) => true
  | EGh (GhRepoDelete _ _) _ => true
  | ELog (LogSuccess _ _) | ELog (LogFailed _ _) => true
  | ESleep => true
  | _ => false
  end.

(** The candidates that passed, and those that failed, a validation pass
    whose answers were [verdicts]: sublists of the candidates, in their
    order, repetitions kept. *)
Definition survivors (candidates : list pyval) (verdicts : list bool) : list pyval :=
  map fst (filter snd (combine candidates verdicts)).

Definition rejected (candidates : list pyval) (verdicts : list bool) : list pyval :=
  map fst (filter (fun p => negb (snd p)) (combine candidates verdicts)).

Definition is_pre (e : event) : bool := silent e || is_validation e.

Definition is_post (e : event) : bool :=
  match e with
  | EPrint (MsgSummaryTotal _) | EPrint (MsgWouldDelete _ _) => true
  | EGh (GhRepoDelete _ _) _ => true
  | ELog (LogSuccess _ _) | ELog (LogFailed _ _) | ELog (LogSummary _ _ _) => true
  | EInput PromptConfirm _ => true
  | _ => silent e
  end.

(** What [batch_delete] never assigns. *)
Definition same_session (s s' : state) : Prop :=
  username s' = username s /\ repositories s' = repositories s
  /\ verbose s' = verbose s /\ dry_run s' = dry_run s.

(** The state once the loop has counted the outcome [ok] of a call. *)
Definition counted (ok : bool) (s : state) : state :=
  mkState (username s) (repositories s)
          (successful_deletions s + (if ok then 1 else 0))
          (failed_deletions s + (if ok then 0 else 1))
          (verbose s) (dry_run s) (stdin s) (trace s).

Definition is_summary (e : event) : bool :=
  match e with
  | ELog (LogSummary _ _ _) => true
  | _ => silent e || is_summary_total e
  end.

(** The events after the confirmation: the deletion pass and the summary. *)
Definition is_execution (e : event) : bool :=
  silent e || is_deletion e || is_summary e.

(** Lines 282-311 of [batch_delete], run once the confirmation is over. *)
Definition execute (w : world) (valid_repos : list pyval) : M unit :=
  fun s =>
    match deletion_pass w 1 (Z.of_nat (List.length valid_repos)) valid_repos
            (push_all [EPrint MsgBlank; EPrint MsgProcessing] s) with
    | Return _ s3 => summary s3
    | Exit code s3 => Exit code s3
    | Uncaught e s3 => Uncaught e s3
    end.

(** The state in which the validation pass starts. *)
Definition started (total : Z) (s : state) : state :=
  mkState (username s) (repositories s) 0 0 (verbose s) (dry_run s) (stdin s)
          (trace s ++ [EPrint MsgStarting; EPrint (MsgTotalToDelete total);
                       EPrint MsgBlank]).

(** Whether the confirmation lets the run through. *)
Definition confirmed (auto_confirm : bool) (s : state) : Prop :=
  auto_confirm = true \/ exists rest, stdin s = Line "DELETE" :: rest.

(** The ways a run of [batch_delete] ends: [verdicts] are the answers of
    the validation pass on [candidates], [post] is what happened after
    that pass. *)
Inductive batch_end (auto_confirm : bool) (s : state)
    (candidates : list pyval) (verdicts : list bool) (post : list event)
  : outcome unit -> Prop :=
| EndClientRaised e s' :
    (List.length verdicts < List.length candidates)%nat ->
    post = [] ->
    batch_end auto_confirm s candidates verdicts post (Uncaught e s')
| EndNoneValid s' :
    List.length verdicts = List.length candidates ->
    survivors candidates verdicts = [] ->
    post = [EPrint MsgNoValidRepositories] ->
    batch_end auto_confirm s candidates verdicts post (Exit 1 s')
| EndOfInput s' :
    List.length verdicts = List.length candidates ->
    survivors candidates verdicts <> [] ->
    auto_confirm = false ->
    stdin s = [] ->
    delete_calls post = [] ->
    batch_end auto_confirm s candidates verdicts post (Uncaught EOFError s')
| EndCancelled item rest s' :
    List.length verdicts = List.length candidates ->
    survivors candidates verdicts <> [] ->
    auto_confirm = false ->
    stdin s = item :: rest ->
    item <> Line "DELETE" ->
    delete_calls post = [] ->
    batch_end auto_confirm s candidates verdicts post (Exit 0 s')
| EndDeleting e s' :
    List.length verdicts = List.length candidates ->
    survivors candidates verdicts <> [] ->
    confirmed auto_confirm s ->
    batch_end auto_confirm s candidates verdicts post (Uncaught e s')
| EndSummary s' :
    List.length verdicts = List.length candidates ->
    survivors candidates verdicts <> [] ->
    confirmed auto_confirm s ->
    delete_calls post = survivors candidates verdicts ->
    tally is_delete_ok post + tally is_delete_fail post
    = Z.of_nat (List.length (survivors candidates verdicts)) ->
    filter is_summary_total post
    = [EPrint (MsgSummaryTotal (successful_deletions s' + failed_deletions s'))] ->
    batch_end auto_confirm s candidates verdicts post (Return tt s').

(** [frame keep q] relates the state before and after a computation: the
    events added to the trace all satisfy [q], and, when [keep] is set,
    the user name of the session is the same. *)
Definition frame (keep : bool) (q : event -> bool) (s s' : state) : Prop :=
  (keep = true -> username s' = username s)
  /\ exists suf, trace s' = trace s ++ suf /\ forallb q suf = true.

(** [hoare R Q m]: every run of [m] is related by [R], and [Q] holds
    whenever [m] returns; [sat R m] is the first half alone. *)
Definition hoare {A} (R : state -> state -> Prop) (Q : A -> state -> Prop)
    (m : M A) : Prop :=
  forall s, R s (final (m s)) /\ forall a s', m s = Return a s' -> Q a s'.

Definition sat {A} (R : state -> state -> Prop) (m : M A) : Prop :=
  forall s, R s (final (m s)).

(** The events [main] can cause before it calls [batch_delete]: no run of
    the client on a repository, and not the lines of the final test. *)
Definition is_resolve (e : event) : bool :=
  match e with
  | EGh (GhRepoView _ _) _ | EGh (GhRepoDelete _ _) _ => false
  | EPrint MsgNoRepositoriesSpecified | EPrintHelp => false
  | _ => true
  end.

(** The repository a token selects: the token must be a number for
    [int], which refuses a numeral of more than 4300 digits, and lie
    between 1 and the number of listed repositories. *)
Definition pick (repos : list string) (num_str : string) : option string :=
  match PyStr.int num_str with
  | Some num =>
      if (1 <=? num) && (num <=? Z.of_nat (List.length repos))
      then nth_error repos (Z.to_nat (num - 1))
      else None
  | None => None
  end.

(** The repositories selected by a list of tokens, in token order, and
    the tokens that select nothing. *)
Definition picks (repos tokens : list string) : list string :=
  flat_map (fun t => match pick repos t with Some r => [r] | None => [] end)
           tokens.

Definition skipped (repos tokens : list string) : list string :=
  filter (fun t => match pick repos t with Some _ => false | None => true end)
         tokens.

Definition warning (num_str : string) : event :=
  EPrint (MsgSkippingInvalid num_str).

Fixpoint item_lines (i : Z) (repos : list string) : list event :=
  match repos with
  | [] => []
  | repo :: rest => EPrint (MsgRepoItem i repo) :: item_lines (i + 1) rest
  end.

(** What is printed between the listing of the repositories and the
    prompt. *)
Definition listing (repos : list string) : list event :=
  EPrint MsgBlank :: item_lines 1 repos
  ++ [EPrint MsgBlank; EPrint MsgEnterNumbers; EPrint MsgOrEnterAll].

(** The state once the line [item] has been read at prompt [p]. *)
Definition read (p : prompt) (item : stdin_item) (s : state) : state :=
  mkState (username s) (repositories s) (successful_deletions s)
          (failed_deletions s) (verbose s) (dry_run s) (tl (stdin s))
          (trace s ++ [EInput p (Some item)]).

Definition with_repositories (v : pyval) (s : state) : state :=
  mkState (username s) v (successful_deletions s) (failed_deletions s)
          (verbose s) (dry_run s) (stdin s) (trace s).

(** Five listed repositories, and a process about to read one line. *)
Definition five : list string := ["r1"; "r2"; "r3"; "r4"; "r5"].

Definition typing (text : string) : state := new_deleter [Line text].

(** The selection as the specification words it: the input all selects
    every listed repository, any other input is read as a list of
    tokens. *)
Definition stated_selection (repos : list string) (text : string) : list string :=
  if String.eqb text "all" then repos else picks repos (PyStr.split text).

(** The field [key] of a configuration object is missing or falsy. *)
Definition absent_or_empty (key : string) (items : list (string * pyval)) : bool :=
  match dict_get key items with
  | Some v => negb (truthy v)
  | None => true
  end.

(** The repository list of the session is not empty. *)
Definition has_repositories (_ : unit) (s : state) : Prop :=
  truthy (repositories s) = true.

(** The line feed. *)
Definition nl : string := String "010"%char "".

(** A client that knows the user carol with the repositories r1 and r2,
    does not find the repository gone and refuses to delete the
    repository locked; a file system where user.json names the user bob
    and every other configuration file only lists repositories. *)
Definition demo_world : world := {|
  gh := fun _ c =>
    match c with
    | GhApiUserLogin => GhDone true ("carol" ++ nl)%string
    | GhRepoList _ => GhDone true ("r1" ++ nl ++ "r2" ++ nl)%string
    | GhRepoView _ (PStr "gone") => GhDone false ""
    | GhRepoDelete _ (PStr "locked") => GhDone false ""
    | _ => GhDone true ""
    end;
  path_exists := fun _ => true;
  read_lines := fun _ => Some ["# my list" ++ nl; "demo" ++ nl]%string;
  json_load := fun path =>
    if String.eqb path "user.json"
    then JsonValue (PDict [("username", PStr "bob");
                           ("repositories", PList [PStr "demo"])])
    else JsonValue (PDict [("repositories", PList [PStr "demo"; PStr "gone"])])
|}.

(** The session of carol with a list of candidates. *)
Definition session (repos : list string) (dry : bool)
    (input_lines : list stdin_item) : state :=
  mkState (PStr "carol") (PList (map PStr repos)) 0 0 false dry input_lines [].

(** [--username alice --config user.json --auto-confirm] *)
Definition both_given : args :=
  mkArgs [] (Some "alice") None (Some "user.json") true false false false.

(** C4 as stated: the user given with [--username] is the one every run
    of the client on a repository names. *)
Definition flag_username_used (w : world) (a : args) (s : state) : Prop :=
  forall u, arg_username a = Some u ->
  Forall (owned_by (PStr u)) (trace (final (main w a s))).

(** Carol, asked to confirm the deletion of demo, answers [item]: the
    batch is called off with exit code 0 and nothing is deleted. *)
Definition declined (item : stdin_item) : Prop :=
  let s := session ["demo"] false [item] in
  let o := batch_delete demo_world false s in
  py_iter (repositories s) = Some [PStr "demo"]
  /\ stdin s = [item]
  /\ item <> Line "DELETE"
  /\ o = Exit 0 (final o)
  /\ delete_calls (trace (final o)) = [].

(** [c in s] for a character. *)
Fixpoint has_char (c : ascii) (s : string) : bool :=
  match s with
  | EmptyString => false
  | String c' s' => Ascii.eqb c' c || has_char c s'
  end.

(** A repository name as [list_repositories] and [load_from_file] produce
    them: not empty and with no white space around it. *)
Definition clean_name (name : string) : Prop :=
  name <> EmptyString /\ PyStr.strip name = name.

(** The names [list_repositories] reads from the output of the client. *)
Definition listed_names (stdout : string) : list string :=
  filter nonempty (map PyStr.strip (PyStr.split_on "010"%char stdout)).

(** The names [load_from_file] keeps from the lines of a file. *)
Definition file_names (lines : list string) : list string :=
  filter keep_line (map PyStr.strip lines).

(** The fields of the session a computation may leave as they were. *)
Definition same_fields (s s' : state) : Prop :=
  username s' = username s /\ repositories s' = repositories s
  /\ successful_deletions s' = successful_deletions s
  /\ failed_deletions s' = failed_deletions s
  /\ verbose s' = verbose s /\ dry_run s' = dry_run s /\ stdin s' = stdin s.

Definition is_comment (name : string) : bool := PyStr.startswith "#" name.

(** The user name a configuration file imposes, if any: the non-empty
    username field of the JSON object given with [--config]. *)
Definition config_user (w : world) (a : args) : option pyval :=
  match arg_config a with
  | Some path =>
      if nonempty path then
        match json_load w path with
        | JsonValue (PDict items) =>
            match dict_get "username" items with
            | Some v => if truthy v then Some v else None
            | None => None
            end
        | _ => None
        end
      else None
  | None => None
  end.

Definition is_object (v : pyval) : bool :=
  match v with
  | PDict _ => true
  | _ => false
  end.

(** [P] holds after every run of [m] from a state where it holds. *)
Definition inv {A} (P : state -> Prop) (m : M A) : Prop :=
  forall s, P s -> P (final (m s)).

(** The trace in which [interactive_selection] asks for the listing. *)
Definition at_listing (s : state) : list event :=
  trace s ++ [EPrint MsgInteractiveSelection; EPrint MsgAvailable;
              EPrint MsgFetching].

(** The client reports a failure, or lists nothing. *)
Definition nothing_listed (r : gh_result) : Prop :=
  match r with
  | GhDone true stdout => listed_names stdout = []
  | GhDone false _ => True
  | GhRaised _ => False
  end.

(** The runs of the client that touch the account: the look-up of the
    login and everything on repositories. *)
Definition is_account_command (e : event) : bool :=
  match e with
  | EGh GhApiUserLogin _ | EGh (GhRepoList _) _
  | EGh (GhRepoView _ _) _ | EGh (GhRepoDelete _ _) _ => true
  | _ => false
  end.

Definition is_check (e : event) : bool := negb (is_account_command e).

(** The client ran [c] with return code 0 somewhere in [tr]. *)
Definition answered (c : gh_cmd) (tr : list event) : Prop :=
  exists stdout, In (EGh c (GhDone true stdout)) tr.

(** What [check_auth] leaves in the trace when it returns. *)
Definition auth_passed (tr : list event) : Prop :=
  answered GhAuthStatus tr
  /\ (answered GhApiUserSilent tr \/ answered GhAuthRefresh tr)
  /\ In (EPrint MsgAuthVerified) tr.

(** What [check_gh_cli] and [check_auth] leave when both return. *)
Definition checks_passed (tr : list event) : Prop :=
  answered GhVersion tr /\ auth_passed tr.

Definition returned {A} (o : outcome A) : bool :=
  match o with
  | Return _ _ => true
  | _ => false
  end.

(** [m] only adds to the trace. *)
Definition grows {A} (m : M A) : Prop :=
  forall s, exists suf, trace (final (m s)) = trace s ++ suf.

(** [m] touches nothing of the account, and has left [P] when it returns. *)
Definition checking {A} (P : list event -> Prop) (m : M A) : Prop :=
  forall s, exists chk,
    trace (final (m s)) = trace s ++ chk
    /\ forallb is_check chk = true
    /\ (returned (m s) = true -> P chk).

(** [m] touches nothing of the account before it has left [P]. *)
Definition guarded {A} (P : list event -> Prop) (m : M A) : Prop :=
  forall s, exists chk rest,
    trace (final (m s)) = trace s ++ chk ++ rest
    /\ forallb is_check chk = true
    /\ (P chk \/ (rest = [] /\ returned (m s) = false)).

Definition lasting (P : list event -> Prop) : Prop :=
  forall tr1 tr2, P tr1 \/ P tr2 -> P (tr1 ++ tr2).

(** What a run adds to the trace: [R] whatever its end, [P] when it
    returns. *)
Definition adds {A} (P R : list event -> Prop) (m : M A) : Prop :=
  forall s, exists suf,
    trace (final (m s)) = trace s ++ suf
    /\ R suf
    /\ (returned (m s) = true -> P suf).

(** The events of [batch_delete] outside its deletion pass; reading the
    standard input is among them unless [--auto-confirm] is given. *)
Definition is_aside (auto_confirm : bool) (e : event) : bool :=
  negb (is_deletion e) && (negb (is_input e) || negb auto_confirm).

Definition no_input (e : event) : bool := negb (is_input e).

(** The pacing of the deletion pass.  [owed] tells whether a call of
    [delete_repository] has not been followed by its pause yet: a call
    needs none owed, a pause needs one. *)
Definition pace (owed : bool) (e : event) : option bool :=
  match e with
  | ESleep => if owed then Some false else None
  | EGh (GhRepoDelete _ _) _ | EPrint (MsgWouldDelete _ _) =>
      if owed then None else Some true
  | _ => Some owed
  end.

Fixpoint paced (owed : bool) (tr : list event) : option bool :=
  match tr with
  | [] => Some owed
  | e :: rest =>
      match pace owed e with
      | Some owed' => paced owed' rest
      | None => None
      end
  end.

(** The answers of the client to [gh repo delete], and what the log file
    and the screen say of deletions: user, repository, success. *)
Definition answer_of (e : event) : list (pyval * pyval * bool) :=
  match e with
  | EGh (GhRepoDelete u repo) (GhDone zero _) => [(u, repo, zero)]
  | _ => []
  end.

Definition log_of (e : event) : list (pyval * pyval * bool) :=
  match e with
  | ELog (LogSuccess u repo) => [(u, repo, true)]
  | ELog (LogFailed u repo) => [(u, repo, false)]
  | _ => []
  end.

Definition notice_of (e : event) : list (pyval * pyval * bool) :=
  match e with
  | EPrint (MsgDeleted u repo) => [(u, repo, true)]
  | EPrint (MsgDeleteFailed u repo) => [(u, repo, false)]
  | _ => []
  end.

(** [m] keeps [I], exits with a code in [C] only, and lets only an
    exception in [E] escape. *)
Definition safe {A} (I : state -> Prop) (C : Z -> Prop) (E : exn -> Prop)
    (m : M A) : Prop :=
  forall s, I s ->
    I (final (m s))
    /\ match m s with
       | Return _ _ => True
       | Exit code _ => C code
       | Uncaught e _ => E e
       end.

(** The user name is a string and the repositories are a list, as in
    a new [BatchDeleter]. *)
Definition typed (s : state) : Prop :=
  (exists u, username s = PStr u) /\ (exists l, repositories s = PList l).

(** [subprocess.run] raises [e] at some call of the client. *)
Definition client_raises (w : world) (e : exn) : Prop :=
  exists tr c, gh w tr c = GhRaised e.

(** The JSON object of the [--config] file, if there is one, holds
    nothing but a string as user name and nothing but a list as
    repositories. *)
Definition config_typed (w : world) (a : args) : Prop :=
  match arg_config a with
  | Some path =>
      match json_load w path with
      | JsonValue (PDict items) =>
          match dict_get "username" items with
          | Some v => truthy v = true -> exists u, v = PStr u
          | None => True
          end
          /\ match dict_get "repositories" items with
             | Some v => truthy v = true -> exists l, v = PList l
             | None => True
             end
      | _ => True
      end
  | None => True
  end.

Definition zero_or_one (code : Z) : Prop := code = 0 \/ code = 1.

(** A client that is logged in but fails to list repositories, and a
    file system where every configuration file gives the string ab as
    its repositories and list files cannot be read. *)
Definition odd_world : world := {|
  gh := fun _ c =>
    match c with
    | GhRepoList _ => GhDone false ""
    | _ => GhDone true ""
    end;
  path_exists := fun _ => true;
  read_lines := fun _ => None;
  json_load := fun _ => JsonValue (PDict [("repositories", PStr "ab")])
|}.

(** The events of [main] before the batch: nothing on a repository but
    its listing, no notice of a deletion, no line in the log but the
    first, no pause. *)
Definition is_setup (e : event) : bool :=
  match e with
  | EGh (GhRepoView _ _) _ | EGh (GhRepoDelete _ _) _ => false
  | EPrint (MsgWouldDelete _ _) | EPrint (MsgDeleting _ _)
  | EPrint (MsgDeleted _ _) | EPrint (MsgDeleteFailed _ _) => false
  | ELog (LogSuccess _ _) | ELog (LogFailed _ _) | ELog (LogSummary _ _ _) => false
  | ESleep => false
  | _ => true
  end.

(** The user name [get_username] ends up with when it has to ask the
    client and gets the answer [r]. *)
Definition detected_user (r : gh_result) : string :=
  match r with
  | GhDone true stdout => PyStr.strip stdout
  | _ => ""
  end.

(** [--dry-run --auto-confirm] with positional arguments, [--file],
    [--config] and [--interactive] as given, and no [--username]. *)
Definition dry_args (repos : list string) (file config : option string)
    (interactive : bool) : args :=
  mkArgs repos None file config true false true interactive.

(** A numeral of [n] zeros followed by 1. *)
Fixpoint zeros_one (n : nat) : string :=
  match n with
  | O => "1"
  | S n' => String "0" (zeros_one n')
  end.

(** ** Basic facts *)

Lemma tally_app f tr1 tr2 : tally f (tr1 ++ tr2) = tally f tr1 + tally f tr2.
Proof.
  unfold tally. rewrite filter_app, length_app. lia.
Qed.

Lemma tally_cons f e tr :
  tally f (e :: tr) = (if f e then 1 else 0) + tally f tr.
Proof.
  unfold tally. simpl. destruct (f e); simpl List.length; lia.
Qed.

Lemma tally_nil f : tally f [] = 0.
Proof. reflexivity. Qed.

Lemma validated_app tr1 tr2 : validated (tr1 ++ tr2) = validated tr1 ++ validated tr2.
Proof. apply flat_map_app. Qed.

Lemma delete_calls_app tr1 tr2 :
  delete_calls (tr1 ++ tr2) = delete_calls tr1 ++ delete_calls tr2.
Proof. apply flat_map_app. Qed.

Lemma prefix_of_nil {A} (l : list A) : prefix_of [] l.
Proof. now exists l. Qed.

Lemma prefix_of_cons {A} (x : A) l1 l2 : prefix_of l1 l2 -> prefix_of (x :: l1) (x :: l2).
Proof. intros [r ->]. now exists r. Qed.

(** A stretch of events that all satisfy [q] adds nothing to an observer
    that ignores such events. *)
Section Alphabet.

Variable q : event -> bool.
Variable tr : list event.
Hypothesis only : forallb q tr = true.

Lemma only_each e : In e tr -> q e = true.
Proof. intro Hin. now apply (proj1 (forallb_forall q tr) only). Qed.

Lemma only_filter f :
  (forall e, q e = true -> f e = false) -> filter f tr = [].
Proof.
  intro Hf. revert only. induction tr as [|e tr' IH]; simpl; intro Hq; [reflexivity|].
  apply andb_true_iff in Hq as [He Hq].
  rewrite (Hf e He). now apply IH.
Qed.

Lemma only_tally f :
  (forall e, q e = true -> f e = false) -> tally f tr = 0.
Proof. intro Hf. unfold tally. now rewrite (only_filter f Hf). Qed.

Lemma only_flat_map {A} (g : event -> list A) :
  (forall e, q e = true -> g e = []) -> flat_map g tr = [].
Proof.
  intro Hg. revert only. induction tr as [|e tr' IH]; simpl; intro Hq; [reflexivity|].
  apply andb_true_iff in Hq as [He Hq].
  now rewrite (Hg e He), (IH Hq).
Qed.

Lemma only_Forall (P : event -> Prop) :
  (forall e, q e = true -> P e) -> Forall P tr.
Proof.
  intro HP. apply Forall_forall. intros e Hin. apply HP. now apply only_each.
Qed.

End Alphabet.

(** Case analysis on an event down to its constructors. *)
Ltac event_cases e :=
  let m := fresh "m" in
  let l := fresh "l" in
  let c := fresh "c" in
  let r := fresh "r" in
  destruct e as [m|l|c r| | |];
  [destruct m | destruct l | destruct c; destruct r as [[|] ?|] | | |];
  simpl; try reflexivity; try discriminate; auto.

(** Projections of states built by [push] and [push_all]. *)
Ltac fields :=
  unfold push, push_all;
  cbn [final username repositories successful_deletions failed_deletions
       verbose dry_run stdin trace].

Lemma confirmation_not_attempt e : is_confirmation e = true -> attempt_of e = [].
Proof. event_cases e. Qed.

Lemma confirmation_owned user e : is_confirmation e = true -> owned_by user e.
Proof. event_cases e. Qed.

Lemma tally_view_fail tr :
  tally is_view_fail tr
  = Z.of_nat (List.length (filter (fun p => negb (snd p)) (validated tr))).
Proof.
  induction tr as [|e tr IH].
  - reflexivity.
  - rewrite tally_cons, IH. unfold validated. simpl flat_map.
    rewrite filter_app, length_app, Nat2Z.inj_add.
    f_equal. event_cases e.
Qed.

Lemma no_live_no_fail tr :
  filter is_live_delete tr = [] -> tally is_delete_fail tr = 0.
Proof.
  induction tr as [|e tr IH]; [reflexivity|].
  simpl. rewrite tally_cons. destruct (is_live_delete e) eqn:He; [discriminate|].
  intro H. rewrite (IH H).
  assert (is_delete_fail e = false) as ->; [|reflexivity].
  revert He. clear. event_cases e.
Qed.

(** ** The phases of [batch_delete] *)

Lemma same_session_refl s : same_session s s.
Proof. repeat split. Qed.

Lemma same_session_trans s1 s2 s3 :
  same_session s1 s2 -> same_session s2 s3 -> same_session s1 s3.
Proof.
  unfold same_session. intros (A1 & A2 & A3 & A4) (B1 & B2 & B3 & B4).
  repeat split; congruence.
Qed.

Section Phases.

Variable w : world.

Lemma validate_repository_eq repo s :
  validate_repository w repo s =
  let c := GhRepoView (username s) repo in
  match gh w (trace s) c with
  | GhDone zero out => Return zero (push (EGh c (GhDone zero out)) s)
  | GhRaised e => Uncaught e (push (EGh c (GhRaised e)) s)
  end.
Proof.
  unfold validate_repository, run_check, run, bind, get, emit, ret, raise. simpl.
  now destruct (gh w (trace s) (GhRepoView (username s) repo)).
Qed.

(** The validation pass asks the client about the candidates in order
    and stops only if a run of the client raises; [verdicts] are the answers
    it got. *)
Lemma validation_pass_spec repos : forall valid_repos s,
  exists verdicts suf,
    let o := validation_pass w repos valid_repos s in
    same_session s (final o)
    /\ stdin (final o) = stdin s
    /\ successful_deletions (final o) = successful_deletions s
    /\ trace (final o) = trace s ++ suf
    /\ forallb is_validation suf = true
    /\ Forall (owned_by (username s)) suf
    /\ validated suf = combine repos verdicts
    /\ failed_deletions (final o) = failed_deletions s + tally is_view_fail suf
    /\ match o with
       | Return v _ =>
           List.length verdicts = List.length repos
           /\ v = valid_repos ++ map fst (filter snd (combine repos verdicts))
       | Exit _ _ => False
       | Uncaught _ _ => (List.length verdicts < List.length repos)%nat
       end.
Proof.
  induction repos as [|repo rest IH]; intros valid_repos s.
  - exists [], []. simpl. rewrite !app_nil_r.
    repeat split; auto. unfold tally; simpl; lia.
  - simpl validation_pass. unfold bind at 1. rewrite validate_repository_eq.
    cbv zeta.
    destruct (gh w (trace s) (GhRepoView (username s) repo)) as [[|] out|] eqn:Hgh.
    + (* the repository is there *)
      destruct (IH (valid_repos ++ [repo])
                   (push (EGh (GhRepoView (username s) repo) (GhDone true out)) s))
        as (verdicts & suf & Hs & Hin & Hok & Htr & Hal & Hown & Hval & Hfail & Hout).
      exists (true :: verdicts),
             (EGh (GhRepoView (username s) repo) (GhDone true out) :: suf).
      cbv zeta in *.
      set (o := validation_pass w rest _ _) in *.
      split; [exact Hs|]. split; [exact Hin|]. split; [exact Hok|].
      split; [rewrite Htr; simpl; now rewrite <- app_assoc|].
      split; [simpl; exact Hal|].
      split; [constructor; [reflexivity | exact Hown]|].
      split; [unfold validated in *; simpl; now rewrite Hval|].
      split; [rewrite Hfail, tally_cons; reflexivity|].
      destruct o; auto.
      * destruct Hout as [Hlen ->]. split; [simpl; lia|].
        simpl. now rewrite <- app_assoc.
      * simpl. lia.
    + (* the repository is not there *)
      unfold bind, get, print_color, emit, set_failed_deletions. simpl.
      match goal with
      | |- context [validation_pass w rest valid_repos ?st] =>
          destruct (IH valid_repos st)
            as (verdicts & suf & Hs & Hin & Hok & Htr & Hal & Hown & Hval & Hfail & Hout)
      end.
      exists (false :: verdicts),
             (EGh (GhRepoView (username s) repo) (GhDone false out)
              :: EPrint (MsgNotFoundOrInaccessible (username s) repo) :: suf).
      cbv zeta in *.
      set (o := validation_pass w rest _ _) in *.
      split; [exact Hs|]. split; [exact Hin|]. split; [exact Hok|].
      split; [rewrite Htr; simpl; now rewrite <- !app_assoc|].
      split; [simpl; exact Hal|].
      split; [constructor; [reflexivity | constructor; [exact I | exact Hown]]|].
      split; [unfold validated in *; simpl; now rewrite Hval|].
      split.
      { rewrite Hfail, !tally_cons. cbn [is_view_fail failed_deletions]. lia. }
      destruct o; auto.
      * destruct Hout as [Hlen ->]. split; [simpl; lia | reflexivity].
      * simpl. lia.
    + (* the run of the client raised *)
      exists [], [EGh (GhRepoView (username s) repo) (GhRaised e)].
      simpl. split; [repeat split|].
      repeat split; auto.
      * constructor; [reflexivity | constructor].
      * rewrite tally_cons, tally_nil. simpl. lia.
      * lia.
Qed.

Lemma delete_repository_eq repo s :
  delete_repository w repo s =
  let u := username s in
  if dry_run s then Return true (push (EPrint (MsgWouldDelete u repo)) s)
  else
    let s1 := if verbose s then push (EPrint (MsgDeleting u repo)) s else s in
    let c := GhRepoDelete u repo in
    match gh w (trace s1) c with
    | GhDone true out =>
        Return true
          (push (ELog (LogSuccess u repo))
             (push (EPrint (MsgDeleted u repo))
                (push (EGh c (GhDone true out)) s1)))
    | GhDone false out =>
        Return false
          (push (ELog (LogFailed u repo))
             (push (EPrint (MsgDeleteFailed u repo))
                (push (EGh c (GhDone false out)) s1)))
    | GhRaised e => Uncaught e (push (EGh c (GhRaised e)) s1)
    end.
Proof.
  unfold delete_repository, run_check, run, bind, get, print_color, log, emit,
    ret, raise.
  cbv zeta. destruct (dry_run s); [reflexivity|].
  destruct (verbose s); simpl;
    match goal with
    | |- context [gh w ?t ?c] => destruct (gh w t c) as [[|] out|]
    end; reflexivity.
Qed.

(** One call of [delete_repository]. *)
Lemma delete_repository_spec repo s :
  exists suf,
    let o := delete_repository w repo s in
    same_session s (final o)
    /\ stdin (final o) = stdin s
    /\ successful_deletions (final o) = successful_deletions s
    /\ failed_deletions (final o) = failed_deletions s
    /\ trace (final o) = trace s ++ suf
    /\ forallb is_deletion suf = true
    /\ Forall (owned_by (username s)) suf
    /\ delete_calls suf = [repo]
    /\ (dry_run s = true ->
        suf = [EPrint (MsgWouldDelete (username s) repo)]
        /\ o = Return true (final o))
    /\ match o with
       | Return b _ =>
           tally is_delete_ok suf = (if b then 1 else 0)
           /\ tally is_delete_fail suf = (if b then 0 else 1)
       | Exit _ _ => False
       | Uncaught _ _ =>
           tally is_delete_ok suf = 0 /\ tally is_delete_fail suf = 0
       end.
Proof.
  rewrite delete_repository_eq. cbv zeta.
  destruct (dry_run s) eqn:Hdry.
  - exists [EPrint (MsgWouldDelete (username s) repo)]. simpl.
    repeat split; auto. repeat constructor.
  - destruct (verbose s) eqn:Hv;
      match goal with
      | |- context [gh w ?t ?c] => destruct (gh w t c) as [[|] out|]
      end;
      eexists; simpl; rewrite <- ?app_assoc; simpl;
      (split; [repeat split; auto|]);
      (split; [reflexivity|]); (split; [reflexivity|]); (split; [reflexivity|]);
      (split; [reflexivity|]); (split; [reflexivity|]);
      (split; [repeat constructor|]);
      (split; [reflexivity|]);
      (split; [discriminate|]); split; reflexivity.
Qed.

Lemma deletion_pass_cons i n repo rest s :
  deletion_pass w i n (repo :: rest) s =
  match delete_repository w repo (push (EPrint (MsgProgress i n)) s) with
  | Return ok s1 => deletion_pass w (i + 1) n rest (push ESleep (counted ok s1))
  | Exit code s1 => Exit code s1
  | Uncaught e s1 => Uncaught e s1
  end.
Proof.
  simpl deletion_pass. unfold bind at 1. unfold print_color at 1, emit at 1.
  unfold bind at 1.
  destruct (delete_repository w repo (push (EPrint (MsgProgress i n)) s))
    as [ok s1|code s1|e s1]; try reflexivity.
  unfold bind, get, set_successful_deletions, set_failed_deletions, sleep, emit,
    counted, push.
  destruct ok; simpl; rewrite ?Z.add_0_r; reflexivity.
Qed.

(** The deletion pass calls [delete_repository] on the repositories it is
    given, in order, and stops only if a run of the client raises. *)
Lemma deletion_pass_spec valid_repos : forall i n s,
  exists suf,
    let o := deletion_pass w i n valid_repos s in
    same_session s (final o)
    /\ stdin (final o) = stdin s
    /\ trace (final o) = trace s ++ suf
    /\ forallb is_deletion suf = true
    /\ Forall (owned_by (username s)) suf
    /\ prefix_of (delete_calls suf) valid_repos
    /\ successful_deletions (final o)
       = successful_deletions s + tally is_delete_ok suf
    /\ failed_deletions (final o)
       = failed_deletions s + tally is_delete_fail suf
    /\ (dry_run s = true ->
        filter is_log suf = [] /\ filter is_live_delete suf = []
        /\ tally is_delete_ok suf = Z.of_nat (List.length valid_repos)
        /\ o = Return tt (final o))
    /\ match o with
       | Return _ _ =>
           delete_calls suf = valid_repos
           /\ tally is_delete_ok suf + tally is_delete_fail suf
              = Z.of_nat (List.length valid_repos)
       | Exit _ _ => False
       | Uncaught _ _ => True
       end.
Proof.
  induction valid_repos as [|repo rest IH]; intros i n s.
  - exists []. simpl. rewrite app_nil_r.
    split; [apply same_session_refl|].
    repeat split; auto using prefix_of_nil; rewrite tally_nil; lia.
  - rewrite deletion_pass_cons.
    destruct (delete_repository_spec repo (push (EPrint (MsgProgress i n)) s))
      as (suf1 & Hs1 & Hin1 & Hk1 & Hf1 & Htr1 & Hal1 & Hown1 & Hcalls1 & Hdry1 & Hout1).
    cbv zeta in *.
    destruct (delete_repository w repo (push (EPrint (MsgProgress i n)) s))
      as [ok s1|code s1|e s1] eqn:Hdel; simpl final in *.
    + (* the call returned *)
      set (s2 := counted ok s1).
      assert (Hs2 : same_session s1 s2) by (repeat split).
      assert (Hin2 : stdin s2 = stdin s1) by reflexivity.
      assert (Htr2 : trace s2 = trace s1) by reflexivity.
      assert (Hk2 : successful_deletions s2
                    = successful_deletions s1 + (if ok then 1 else 0))
        by reflexivity.
      assert (Hf2 : failed_deletions s2
                    = failed_deletions s1 + (if ok then 0 else 1))
        by reflexivity.
      clearbody s2.
      cbn [push stdin successful_deletions failed_deletions] in Hin1, Hk1, Hf1.
      destruct (IH (i + 1) n (push ESleep s2))
        as (suf & Hs & Hin & Htr & Hal & Hown & Hpre & Hk & Hf & Hdry & Hout).
      cbv zeta in *.
      set (o := deletion_pass w (i + 1) n rest (push ESleep s2)) in *.
      assert (Hu : username s2 = username s).
      { destruct Hs1 as (A & _), Hs2 as (B & _). rewrite B, A. reflexivity. }
      assert (Hd : dry_run s2 = dry_run s).
      { destruct Hs1 as (_ & _ & _ & A), Hs2 as (_ & _ & _ & B).
        rewrite B, A. reflexivity. }
      exists (EPrint (MsgProgress i n) :: suf1 ++ ESleep :: suf).
      split.
      { eapply same_session_trans; [|exact Hs].
        eapply same_session_trans; [|exact Hs2]. exact Hs1. }
      split; [rewrite Hin; simpl; congruence|].
      split.
      { rewrite Htr. simpl. rewrite Htr2, Htr1. simpl.
        rewrite <- !app_assoc. reflexivity. }
      split.
      { simpl. rewrite forallb_app, Hal1. simpl. exact Hal. }
      split.
      { constructor; [exact I|]. apply Forall_app. split; [exact Hown1|].
        constructor; [exact I|]. simpl in Hown. now rewrite Hu in Hown. }
      assert (Hcalls : delete_calls (EPrint (MsgProgress i n) :: suf1 ++ ESleep :: suf)
                       = repo :: delete_calls suf).
      { unfold delete_calls in *. simpl. rewrite flat_map_app, Hcalls1. reflexivity. }
      split; [rewrite Hcalls; now apply prefix_of_cons|].
      assert (Hok : tally is_delete_ok (EPrint (MsgProgress i n) :: suf1 ++ ESleep :: suf)
                    = (if ok then 1 else 0) + tally is_delete_ok suf).
      { rewrite tally_cons, tally_app, tally_cons. cbn [is_delete_ok].
        destruct Hout1 as [-> _]. lia. }
      assert (Hko : tally is_delete_fail (EPrint (MsgProgress i n) :: suf1 ++ ESleep :: suf)
                    = (if ok then 0 else 1) + tally is_delete_fail suf).
      { rewrite tally_cons, tally_app, tally_cons. cbn [is_delete_fail].
        destruct Hout1 as [_ ->]. lia. }
      split; [rewrite Hk, Hok; cbn [successful_deletions push]; lia|].
      split; [rewrite Hf, Hko; cbn [failed_deletions push]; lia|].
      split.
      { intro Hdry'. simpl in Hdry. rewrite Hd in Hdry.
        destruct (Hdry Hdry') as (Hlog & Hlive & Hcount & Hret).
        destruct (Hdry1 Hdry') as [Hsuf1 Heq]. inversion Heq; subst ok.
        split; [rewrite Hsuf1; simpl; exact Hlog|].
        split; [rewrite Hsuf1; simpl; exact Hlive|].
        split; [|exact Hret].
        rewrite Hok, Hcount. simpl List.length. lia. }
      destruct o; auto.
      destruct Hout as [Hall Hsum].
      split; [rewrite Hcalls, Hall; reflexivity|].
      rewrite Hok, Hko. simpl List.length. destruct ok; lia.
    + contradiction.
    + (* the run of the client raised *)
      exists (EPrint (MsgProgress i n) :: suf1). simpl final.
      split; [exact Hs1|]. split; [exact Hin1|].
      split; [rewrite Htr1; simpl; now rewrite <- app_assoc|].
      split; [simpl; exact Hal1|].
      split; [constructor; [exact I | exact Hown1]|].
      split.
      { unfold delete_calls in *. simpl. rewrite Hcalls1.
        exists rest. reflexivity. }
      destruct Hout1 as [Hz1 Hz2].
      split; [rewrite tally_cons, Hz1, Hk1; simpl; lia|].
      split; [rewrite tally_cons, Hz2, Hf1; simpl; lia|].
      split; [|exact I].
      intro Hdry'. destruct (Hdry1 Hdry') as [_ Heq]. discriminate.
Qed.

Lemma push_push_all e es s : push_all es (push e s) = push_all (e :: es) s.
Proof. unfold push_all, push. simpl. now rewrite <- app_assoc. Qed.

Lemma print_list_eq repos : forall s,
  print_list repos s
  = Return tt
      (push_all (map (fun repo => EPrint (MsgListItem (username s) repo)) repos) s).
Proof.
  induction repos as [|repo rest IH]; intro s.
  - unfold push_all. simpl. rewrite app_nil_r. now destruct s.
  - simpl print_list. unfold bind, get, print_color, emit.
    rewrite IH, push_push_all. reflexivity.
Qed.

(** The confirmation prompt: what is printed before it is silent, then
    one line is read, and only the exact text DELETE lets the run go on. *)
Lemma confirmation_spec valid_repos s :
  exists suf,
    let o := confirmation valid_repos s in
    same_session s (final o)
    /\ successful_deletions (final o) = successful_deletions s
    /\ failed_deletions (final o) = failed_deletions s
    /\ trace (final o) = trace s ++ suf
    /\ forallb is_confirmation suf = true
    /\ filter is_log suf = []
    /\ filter is_input suf = [EInput PromptConfirm (hd_error (stdin s))]
    /\ match stdin s with
       | [] => o = Uncaught EOFError (final o)
       | Line text :: _ =>
           if String.eqb text "DELETE" then o = Return tt (final o)
           else o = Exit 0 (final o)
       | Interrupt :: _ => o = Exit 0 (final o)
       end.
Proof.
  cbv zeta. remember (confirmation valid_repos s) as o eqn:Ho.
  unfold confirmation, bind at 1 in Ho. unfold print_color at 1, emit at 1 in Ho.
  unfold bind at 1 in Ho. rewrite print_list_eq in Ho.
  set (items := map _ valid_repos) in Ho.
  assert (Hitems : forallb is_confirmation items = true).
  { subst items. clear Ho. induction valid_repos; simpl; auto. }
  assert (Hlogs : filter is_log items = []).
  { subst items. clear Ho. induction valid_repos; simpl; auto. }
  assert (Hinputs : filter is_input items = []).
  { subst items. clear Ho. induction valid_repos; simpl; auto. }
  clearbody items.
  unfold bind, get, print_color, input, emit, ret, sys_exit, push_all, push in Ho.
  unfold same_session. simpl in Ho.
  destruct (dry_run s) eqn:Hdry, (stdin s) as [|[text|] rest] eqn:Hin;
    simpl in Ho;
    try destruct (String.eqb text "DELETE"); simpl in Ho; subst o; simpl;
    eexists; rewrite <- ?app_assoc; simpl;
    (split; [repeat split; congruence|]);
    (split; [reflexivity|]); (split; [reflexivity|]); (split; [reflexivity|]);
    simpl; rewrite ?forallb_app, ?filter_app, ?Hitems, ?Hlogs, ?Hinputs; simpl;
    repeat split; reflexivity.
Qed.

Lemma summary_spec s :
  exists suf,
    summary s = Return tt (push_all suf s)
    /\ forallb is_summary suf = true
    /\ filter is_summary_total suf
       = [EPrint (MsgSummaryTotal (successful_deletions s + failed_deletions s))]
    /\ (dry_run s = true -> filter is_log suf = []).
Proof.
  unfold summary, bind, get, print_color, log, emit, ret, push, push_all.
  cbn [username repositories successful_deletions failed_deletions verbose
       dry_run stdin trace].
  destruct (dry_run s), (0 <? failed_deletions s);
    cbn [negb username repositories successful_deletions failed_deletions
         verbose dry_run stdin trace];
    eexists; rewrite <- ?app_assoc; cbn [app];
    (split; [reflexivity|]); (split; [reflexivity|]); (split; [reflexivity|]);
    intro Hdry; try discriminate Hdry; reflexivity.
Qed.

Lemma summary_not_attempt e : is_summary e = true -> attempt_of e = [].
Proof. event_cases e. Qed.

Lemma summary_owned user e : is_summary e = true -> owned_by user e.
Proof. event_cases e. Qed.

Lemma deletion_execution e : is_deletion e = true -> is_execution e = true.
Proof. event_cases e. Qed.

Lemma summary_execution e : is_summary e = true -> is_execution e = true.
Proof. event_cases e. Qed.

Lemma forallb_impl (p q : event -> bool) tr :
  (forall e, p e = true -> q e = true) ->
  forallb p tr = true -> forallb q tr = true.
Proof.
  intros Hpq Hp. apply forallb_forall. intros e Hin.
  apply Hpq. now apply (proj1 (forallb_forall p tr) Hp).
Qed.

Lemma execute_spec valid_repos s :
  exists suf,
    let o := execute w valid_repos s in
    same_session s (final o)
    /\ stdin (final o) = stdin s
    /\ trace (final o) = trace s ++ suf
    /\ forallb is_execution suf = true
    /\ Forall (owned_by (username s)) suf
    /\ prefix_of (delete_calls suf) valid_repos
    /\ successful_deletions (final o)
       = successful_deletions s + tally is_delete_ok suf
    /\ failed_deletions (final o)
       = failed_deletions s + tally is_delete_fail suf
    /\ (dry_run s = true ->
        filter is_log suf = [] /\ filter is_live_delete suf = []
        /\ tally is_delete_ok suf = Z.of_nat (List.length valid_repos)
        /\ o = Return tt (final o))
    /\ match o with
       | Return _ s' =>
           delete_calls suf = valid_repos
           /\ tally is_delete_ok suf + tally is_delete_fail suf
              = Z.of_nat (List.length valid_repos)
           /\ filter is_summary_total suf
              = [EPrint (MsgSummaryTotal
                           (successful_deletions s' + failed_deletions s'))]
       | Exit _ _ => False
       | Uncaught _ _ => True
       end.
Proof.
  cbv zeta. remember (execute w valid_repos s) as o eqn:Ho. unfold execute in Ho.
  set (s0 := push_all [EPrint MsgBlank; EPrint MsgProcessing] s) in Ho.
  destruct (deletion_pass_spec valid_repos 1 (Z.of_nat (List.length valid_repos)) s0)
    as (suf & Hs & Hin & Htr & Hal & Hown & Hpre & Hk & Hf & Hdry & Hout).
  cbv zeta in *.
  destruct (deletion_pass w 1 _ valid_repos s0) as [[] s3|code s3|e s3];
    simpl final in *; [|contradiction|].
  - destruct (summary_spec s3) as (sum & Hsum & Hsal & Htot & Hsdry).
    rewrite Hsum in Ho. subst o. simpl final.
    exists ([EPrint MsgBlank; EPrint MsgProcessing] ++ suf ++ sum).
    unfold push_all.
    cbn [username repositories successful_deletions failed_deletions verbose
         dry_run stdin trace].
    destruct Hs as (Hu & Hr & Hv & Hd). subst s0. unfold push_all in *.
    cbn [username repositories successful_deletions failed_deletions verbose
         dry_run stdin trace] in Hu, Hr, Hv, Hd, Hin, Htr, Hk, Hf, Hown, Hdry.
    split; [repeat split; assumption|].
    split; [assumption|].
    split; [rewrite Htr, <- !app_assoc; reflexivity|].
    split.
    { rewrite !forallb_app. apply andb_true_iff. split; [reflexivity|].
      apply andb_true_iff. split.
      - eapply forallb_impl; [apply deletion_execution | exact Hal].
      - eapply forallb_impl; [apply summary_execution | exact Hsal]. }
    split.
    { constructor; [exact I|]. constructor; [exact I|]. apply Forall_app. split.
      - exact Hown.
      - apply (only_Forall is_summary sum Hsal). apply summary_owned. }
    assert (Hcalls : delete_calls (suf ++ sum) = delete_calls suf).
    { rewrite delete_calls_app.
      unfold delete_calls at 2.
      rewrite (only_flat_map is_summary sum Hsal attempt_of summary_not_attempt).
      apply app_nil_r. }
    assert (Hoks : forall f, (forall e, is_summary e = true -> f e = false) ->
                   tally f (suf ++ sum) = tally f suf).
    { intros f Hfs. rewrite tally_app, (only_tally is_summary sum Hsal f Hfs). lia. }
    assert (Hok := Hoks is_delete_ok ltac:(intro e0; event_cases e0)).
    assert (Hko := Hoks is_delete_fail ltac:(intro e0; event_cases e0)).
    cbn [app].
    change (delete_calls (EPrint MsgBlank :: EPrint MsgProcessing :: suf ++ sum))
      with (delete_calls (suf ++ sum)).
    change (filter is_log (EPrint MsgBlank :: EPrint MsgProcessing :: suf ++ sum))
      with (filter is_log (suf ++ sum)).
    change (filter is_live_delete
              (EPrint MsgBlank :: EPrint MsgProcessing :: suf ++ sum))
      with (filter is_live_delete (suf ++ sum)).
    change (filter is_summary_total
              (EPrint MsgBlank :: EPrint MsgProcessing :: suf ++ sum))
      with (filter is_summary_total (suf ++ sum)).
    rewrite !tally_cons. cbn [is_delete_ok is_delete_fail].
    rewrite Hcalls, Hok, Hko.
    split; [exact Hpre|].
    split; [lia|]. split; [lia|].
    split.
    { intro Hdry'. destruct (Hdry Hdry') as (Hlog & Hlive & Hcount & _).
      rewrite !filter_app, Hlog, Hlive.
      rewrite (Hsdry ltac:(congruence)).
      rewrite (only_filter is_summary sum Hsal is_live_delete
                 ltac:(intro e0; event_cases e0)).
      repeat split; auto; lia. }
    destruct Hout as [Hall Hsumm].
    split; [exact Hall|]. split; [lia|].
    rewrite filter_app, Htot.
    rewrite (only_filter is_deletion suf Hal is_summary_total
               ltac:(intro e0; event_cases e0)).
    reflexivity.
  - subst o. simpl final.
    exists ([EPrint MsgBlank; EPrint MsgProcessing] ++ suf).
    destruct Hs as (Hu & Hr & Hv & Hd). subst s0. unfold push_all in *.
    cbn [username repositories successful_deletions failed_deletions verbose
         dry_run stdin trace] in Hu, Hr, Hv, Hd, Hin, Htr, Hk, Hf, Hown, Hdry.
    split; [repeat split; assumption|].
    split; [assumption|].
    split; [rewrite Htr, <- !app_assoc; reflexivity|].
    split.
    { cbn [app forallb is_execution silent is_deletion is_summary orb andb].
      eapply forallb_impl; [apply deletion_execution | exact Hal]. }
    split; [constructor; [exact I|]; constructor; [exact I | exact Hown]|].
    cbn [app].
    change (delete_calls (EPrint MsgBlank :: EPrint MsgProcessing :: suf))
      with (delete_calls suf).
    rewrite !tally_cons. cbn [is_delete_ok is_delete_fail].
    split; [exact Hpre|].
    split; [lia|]. split; [lia|].
    split; [|exact I].
    intro Hdry'. destruct (Hdry Hdry') as (_ & _ & _ & Hret). discriminate.
Qed.

Lemma batch_delete_eq auto_confirm s :
  batch_delete w auto_confirm s =
  match py_len (repositories s), py_iter (repositories s) with
  | Some total, Some candidates =>
      match validation_pass w candidates [] (started total s) with
      | Return [] s1 => Exit 1 (push (EPrint MsgNoValidRepositories) s1)
      | Return valid_repos s1 =>
          match (if negb auto_confirm then confirmation valid_repos
                 else ret tt) s1 with
          | Return _ s2 => execute w valid_repos s2
          | Exit code s2 => Exit code s2
          | Uncaught e s2 => Uncaught e s2
          end
      | Exit code s1 => Exit code s1
      | Uncaught e s1 => Uncaught e s1
      end
  | _, _ => Uncaught TypeError s
  end.
Proof.
  unfold batch_delete. unfold bind at 1. unfold get at 1.
  destruct (py_len (repositories s)) as [total|];
    destruct (py_iter (repositories s)) as [candidates|]; try reflexivity.
  unfold bind at 1, set_successful_deletions at 1.
  unfold bind at 1, set_failed_deletions at 1.
  unfold bind at 1, print_color at 1, emit at 1.
  unfold bind at 1, print_color at 1, emit at 1.
  unfold bind at 1, print_color at 1, emit at 1.
  unfold bind at 1.
  replace (push (EPrint MsgBlank) _) with (started total s)
    by (unfold started, push; simpl; now rewrite <- !app_assoc).
  destruct (validation_pass w candidates [] (started total s))
    as [valid_repos s1|code s1|e s1]; try reflexivity.
  destruct valid_repos as [|repo rest].
  - reflexivity.
  - unfold bind at 1. unfold ret at 1. unfold bind at 1.
    destruct ((if negb auto_confirm then confirmation (repo :: rest) else ret tt) s1)
      as [[] s2|code s2|e s2]; try reflexivity.
    unfold bind at 1, print_color at 1, emit at 1.
    unfold bind at 1, print_color at 1, emit at 1.
    unfold bind at 1.
    replace (push (EPrint MsgProcessing) (push (EPrint MsgBlank) s2))
      with (push_all [EPrint MsgBlank; EPrint MsgProcessing] s2)
      by (unfold push_all, push; simpl; now rewrite <- !app_assoc).
    unfold execute.
    destruct (deletion_pass w 1 _ (repo :: rest) _) as [[] s3|code s3|e s3];
      reflexivity.
Qed.

Lemma chars_length str : List.length (chars str) = String.length str.
Proof. induction str; simpl; congruence. Qed.

Lemma py_iter_len v l :
  py_iter v = Some l -> py_len v = Some (Z.of_nat (List.length l)).
Proof.
  destruct v; simpl; intro H; inversion H; subst; clear H.
  - now rewrite chars_length.
  - reflexivity.
  - now rewrite length_map.
Qed.

Lemma pre_not_attempt e : is_pre e = true -> attempt_of e = [].
Proof. event_cases e. Qed.

Lemma validation_pre e : is_validation e = true -> is_pre e = true.
Proof. event_cases e. Qed.

Lemma confirmation_post e :
  is_confirmation e = true -> is_input e = false \/ e = EInput PromptConfirm None
    \/ (exists i, e = EInput PromptConfirm (Some i)) -> is_post e = true.
Proof.
  intros H [H1|[->|[i ->]]]; try reflexivity.
  revert H H1. event_cases e.
Qed.

Lemma execution_post e : is_execution e = true -> is_post e = true.
Proof. event_cases e. Qed.

Lemma confirmation_run_post tr item :
  forallb is_confirmation tr = true ->
  filter is_input tr = [EInput PromptConfirm item] ->
  forallb is_post tr = true.
Proof.
  intros Hal Hin. apply forallb_forall. intros e He.
  apply confirmation_post.
  - now apply (proj1 (forallb_forall _ _) Hal).
  - destruct (is_input e) eqn:Hi; [right|now left].
    assert (In e (filter is_input tr)) as Hf by (apply filter_In; auto).
    rewrite Hin in Hf. destruct Hf as [<-|[]].
    destruct item; eauto.
Qed.

(** Every run of [batch_delete] on an iterable list of candidates, told in
    two stretches of its trace: [pre], up to the end of the validation
    pass, and [post], all that follows. *)
Lemma batch_delete_run auto_confirm s candidates :
  py_iter (repositories s) = Some candidates ->
  exists verdicts pre post,
    let o := batch_delete w auto_confirm s in
    same_session s (final o)
    /\ trace (final o) = trace s ++ pre ++ post
    /\ forallb is_pre pre = true
    /\ forallb is_post post = true
    /\ Forall (owned_by (username s)) (pre ++ post)
    /\ validated pre = combine candidates verdicts
    /\ prefix_of (delete_calls post) (survivors candidates verdicts)
    /\ failed_deletions (final o)
       = tally is_view_fail pre + tally is_delete_fail post
    /\ successful_deletions (final o) = tally is_delete_ok post
    /\ (dry_run s = true ->
        filter is_log post = [] /\ filter is_live_delete post = [])
    /\ batch_end auto_confirm s candidates verdicts post o.
Proof.
  intro Hiter. cbv zeta.
  remember (batch_delete w auto_confirm s) as o eqn:Ho.
  rewrite batch_delete_eq, (py_iter_len _ _ Hiter), Hiter in Ho.
  set (total := Z.of_nat (List.length candidates)) in Ho.
  destruct (validation_pass_spec candidates [] (started total s))
    as (verdicts & suf & Hs & Hin & Hk & Htr & Hal & Hown & Hval & Hf & Hout).
  cbv zeta in *. exists verdicts.
  set (head := [EPrint MsgStarting; EPrint (MsgTotalToDelete total); EPrint MsgBlank]).
  assert (Hpre : forallb is_pre (head ++ suf) = true).
  { simpl. eapply forallb_impl; [apply validation_pre | exact Hal]. }
  assert (Hpv : validated (head ++ suf) = combine candidates verdicts).
  { rewrite <- Hval. reflexivity. }
  assert (Hpf : tally is_view_fail (head ++ suf) = tally is_view_fail suf).
  { simpl. now rewrite !tally_cons. }
  destruct Hs as (Hu & Hr & Hv & Hd).
  destruct (validation_pass w candidates [] (started total s))
    as [valid_repos s1|code s1|e s1]; cbn [final] in *; [|contradiction|];
    unfold started in Hu, Hr, Hv, Hd, Hin, Hk, Hf, Htr, Hown;
    cbn [username repositories successful_deletions failed_deletions verbose
         dry_run stdin trace] in Hu, Hr, Hv, Hd, Hin, Hk, Hf, Htr, Hown;
    rewrite Z.add_0_l in Hf.
  - destruct Hout as [Hlen Hvalid]. simpl in Hvalid.
    fold (survivors candidates verdicts) in Hvalid.
    destruct valid_repos as [|repo rest].
    + (* nothing passed *)
      subst o. exists (head ++ suf), [EPrint MsgNoValidRepositories]. fields.
      split; [repeat split; assumption|].
      split; [rewrite Htr, <- !app_assoc; reflexivity|].
      split; [exact Hpre|]. split; [reflexivity|].
      split.
      { apply Forall_app. split; [|repeat constructor].
        repeat (constructor; [exact I|]). exact Hown. }
      split; [exact Hpv|].
      split; [apply prefix_of_nil|].
      split; [rewrite Hf, Hpf, tally_cons, tally_nil; cbn [is_delete_fail]; lia|].
      split; [rewrite Hk; reflexivity|].
      split; [intros _; split; reflexivity|].
      apply EndNoneValid; auto.
    + (* something to delete: the confirmation, then the execution *)
      set (valid_repos := repo :: rest) in *.
      assert (Hne : survivors candidates verdicts <> []).
      { rewrite <- Hvalid. discriminate. }
      assert (Hgate : exists gate s2,
        same_session s1 s2
        /\ successful_deletions s2 = successful_deletions s1
        /\ failed_deletions s2 = failed_deletions s1
        /\ forallb is_confirmation gate = true
        /\ forallb is_post gate = true
        /\ filter is_log gate = []
        /\ trace s2 = trace s1 ++ gate
        /\ ((if negb auto_confirm then confirmation valid_repos else ret tt) s1
            = Return tt s2 /\ confirmed auto_confirm s
            \/ (if negb auto_confirm then confirmation valid_repos else ret tt) s1
               = Uncaught EOFError s2
               /\ (delete_calls gate = [] ->
                   batch_end auto_confirm s candidates verdicts gate
                     (Uncaught EOFError s2))
            \/ (if negb auto_confirm then confirmation valid_repos else ret tt) s1
               = Exit 0 s2
               /\ (delete_calls gate = [] ->
                   batch_end auto_confirm s candidates verdicts gate (Exit 0 s2)))).
      { destruct auto_confirm; cbn [negb].
        - exists [], s1. rewrite app_nil_r.
          split; [apply same_session_refl|].
          repeat split; auto. left. split; [reflexivity | now left].
        - destruct (confirmation_spec valid_repos s1)
            as (gate & Gs & Gk & Gf & Gtr & Gal & Glog & Ginp & Gout).
          cbv zeta in *.
          assert (Gpost : forallb is_post gate = true)
            by exact (confirmation_run_post _ _ Gal Ginp).
          exists gate, (final (confirmation valid_repos s1)).
          split; [exact Gs|].
          do 6 (split; [assumption|]).
          rewrite Hin in Gout.
          destruct (stdin s) as [|[text|] more] eqn:Hstdin.
          + right; left. split; [exact Gout|].
            intro Gcalls. apply EndOfInput; auto.
          + destruct (String.eqb text "DELETE") eqn:Htext.
            * left. split; [exact Gout|]. right.
              apply String.eqb_eq in Htext. subst text. eauto.
            * right; right. split; [exact Gout|].
              intro Gcalls. eapply EndCancelled; eauto.
              intro Heq. inversion Heq; subst text.
              rewrite String.eqb_refl in Htext. discriminate.
          + right; right. split; [exact Gout|].
            intro Gcalls. eapply EndCancelled; eauto. discriminate. }
      destruct Hgate as (gate & s2 & Gs & Gk & Gf & Gal & Gpost & Glog & Gtr & Gout).
      assert (Gcalls : delete_calls gate = [])
        by exact (only_flat_map _ _ Gal _ confirmation_not_attempt).
      assert (Glive : filter is_live_delete gate = []).
      { apply (only_filter _ _ Gal). intro e0. event_cases e0. }
      assert (Gtot : filter is_summary_total gate = []).
      { apply (only_filter _ _ Gal). intro e0. event_cases e0. }
      assert (Gfail : tally is_delete_fail gate = 0).
      { apply (only_tally _ _ Gal). intro e0. event_cases e0. }
      assert (Gok : tally is_delete_ok gate = 0).
      { apply (only_tally _ _ Gal). intro e0. event_cases e0. }
      assert (Gown : Forall (owned_by (username s)) gate).
      { apply (only_Forall _ _ Gal). apply confirmation_owned. }
      destruct Gs as (Gu & Gr & Gv & Gd).
      assert (Hstop : forall o' : outcome unit, final o' = s2 ->
        batch_end auto_confirm s candidates verdicts gate o' ->
        exists pre post,
          same_session s (final o')
          /\ trace (final o') = trace s ++ pre ++ post
          /\ forallb is_pre pre = true
          /\ forallb is_post post = true
          /\ Forall (owned_by (username s)) (pre ++ post)
          /\ validated pre = combine candidates verdicts
          /\ prefix_of (delete_calls post) (survivors candidates verdicts)
          /\ failed_deletions (final o')
             = tally is_view_fail pre + tally is_delete_fail post
          /\ successful_deletions (final o') = tally is_delete_ok post
          /\ (dry_run s = true ->
              filter is_log post = [] /\ filter is_live_delete post = [])
          /\ batch_end auto_confirm s candidates verdicts post o').
      { intros o' Hfin Hend. exists (head ++ suf), gate. rewrite Hfin.
        split; [repeat split; congruence|].
        split; [rewrite Gtr, Htr, <- !app_assoc; reflexivity|].
        split; [exact Hpre|]. split; [exact Gpost|].
        split.
        { apply Forall_app. split; [|exact Gown].
          repeat (constructor; [exact I|]). exact Hown. }
        split; [exact Hpv|].
        split; [rewrite Gcalls; apply prefix_of_nil|].
        split; [rewrite Gf, Hf, Hpf, Gfail; lia|].
        split; [rewrite Gk, Hk, Gok; reflexivity|].
        split; [intros _; split; assumption|].
        exact Hend. }
      destruct Gout as [[Heq Hconf]|[[Heq Hend]|[Heq Hend]]];
        rewrite Heq in Ho; try specialize (Hend Gcalls).
      * (* through the confirmation *)
        destruct (execute_spec valid_repos s2)
          as (run & Es & Ein & Etr & Eal & Eown & Epre & Ek & Ef & Edry & Eout).
        cbv zeta in *. rewrite <- Ho in *.
        destruct Es as (Eu & Er & Ev & Ed).
        exists (head ++ suf), (gate ++ run).
        split; [repeat split; congruence|].
        split; [rewrite Etr, Gtr, Htr, <- !app_assoc; reflexivity|].
        split; [exact Hpre|].
        split.
        { rewrite forallb_app, Gpost. simpl.
          eapply forallb_impl; [apply execution_post | exact Eal]. }
        split.
        { apply Forall_app. split.
          - repeat (constructor; [exact I|]). exact Hown.
          - apply Forall_app. split; [exact Gown|].
            replace (username s) with (username s2) by congruence. exact Eown. }
        split; [exact Hpv|].
        rewrite Hpf, delete_calls_app, Gcalls, !tally_app, Gfail, Gok. cbn [app].
        split; [rewrite <- Hvalid; exact Epre|].
        split; [rewrite Ef, Gf, Hf; lia|].
        split; [rewrite Ek, Gk, Hk; lia|].
        split.
        { intro Hdry. rewrite !filter_app, Glog, Glive.
          destruct (Edry ltac:(congruence)) as (El & Ev' & _). now rewrite El, Ev'. }
        destruct o as [[] s3|code s3|e s3]; [|contradiction|].
        -- destruct Eout as (Eall & Esum & Etot).
           apply EndSummary; auto.
           ++ rewrite delete_calls_app, Gcalls, <- Hvalid. exact Eall.
           ++ rewrite !tally_app, Gok, Gfail, <- Hvalid. cbn [Z.add]. exact Esum.
           ++ rewrite filter_app, Etot, Gtot. reflexivity.
        -- apply EndDeleting; auto.
      * subst o. apply (Hstop (Uncaught EOFError s2) eq_refl Hend).
      * subst o. apply (Hstop (Exit 0 s2) eq_refl Hend).
  - (* a run of the client raised during the validation pass *)
    subst o. exists (head ++ suf), []. fields.
    split; [repeat split; assumption|].
    split; [rewrite Htr, app_nil_r, <- !app_assoc; reflexivity|].
    split; [exact Hpre|]. split; [reflexivity|].
    split.
    { rewrite app_nil_r. repeat (constructor; [exact I|]). exact Hown. }
    split; [exact Hpv|].
    split; [apply prefix_of_nil|].
    split; [rewrite Hf, Hpf, tally_nil; lia|].
    split; [rewrite Hk; reflexivity|].
    split; [intros _; split; reflexivity|].
    apply EndClientRaised; auto.
Qed.

End Phases.

(** ** What the two stretches of a run contain *)

Lemma pre_not_input e : is_pre e = true -> is_input e = false.
Proof. event_cases e. Qed.

Lemma pre_not_log e : is_pre e = true -> is_log e = false.
Proof. event_cases e. Qed.

Lemma pre_not_live e : is_pre e = true -> is_live_delete e = false.
Proof. event_cases e. Qed.

Lemma pre_not_delete_fail e : is_pre e = true -> is_delete_fail e = false.
Proof. event_cases e. Qed.

Lemma pre_not_delete_ok e : is_pre e = true -> is_delete_ok e = false.
Proof. event_cases e. Qed.

Lemma pre_not_total e : is_pre e = true -> is_summary_total e = false.
Proof. event_cases e. Qed.

Lemma post_not_view e : is_post e = true -> view_of e = [].
Proof. event_cases e. Qed.

Lemma post_not_view_fail e : is_post e = true -> is_view_fail e = false.
Proof. event_cases e. Qed.

Lemma rejected_length tr candidates verdicts :
  validated tr = combine candidates verdicts ->
  tally is_view_fail tr = Z.of_nat (List.length (rejected candidates verdicts)).
Proof.
  intro H. rewrite tally_view_fail, H. unfold rejected. now rewrite length_map.
Qed.

Lemma survivors_rejected candidates verdicts :
  List.length verdicts = List.length candidates ->
  (List.length (survivors candidates verdicts)
   + List.length (rejected candidates verdicts))%nat
  = List.length candidates.
Proof.
  intro H. unfold survivors, rejected. rewrite !length_map, filter_length.
  rewrite length_combine. lia.
Qed.

(** A run that returns had something to iterate over. *)
Lemma batch_delete_iterates w auto_confirm s s' :
  batch_delete w auto_confirm s = Return tt s' ->
  exists candidates, py_iter (repositories s) = Some candidates.
Proof.
  rewrite batch_delete_eq.
  destruct (py_iter (repositories s)) as [candidates|]; [eauto|].
  destruct (py_len (repositories s)); discriminate.
Qed.

(** ** The claims about [batch_delete] *)

(** C1.  The repositories handed to [delete_repository] are exactly the
    candidates for which [validate_repository] returned true, in the order
    of the candidates and with repetitions kept: in every run the calls
    made so far are a prefix of that list, and they are the whole list
    when the run returns.  Every candidate that failed validation is
    counted as a failure: the failure counter is the number of rejected
    candidates plus the number of deletions the client refused. *)
Theorem C1_execution_set w auto_confirm s candidates :
  py_iter (repositories s) = Some candidates ->
  exists verdicts suf,
    let o := batch_delete w auto_confirm s in
    trace (final o) = trace s ++ suf
    /\ validated suf = combine candidates verdicts
    /\ prefix_of (delete_calls suf) (survivors candidates verdicts)
    /\ failed_deletions (final o)
       = Z.of_nat (List.length (rejected candidates verdicts))
         + tally is_delete_fail suf
    /\ (forall s', o = Return tt s' ->
        List.length verdicts = List.length candidates
        /\ delete_calls suf = survivors candidates verdicts).
Proof.
  intro Hiter.
  destruct (batch_delete_run w auto_confirm s candidates Hiter)
    as (verdicts & pre & post & Hs & Htr & Hpre & Hpost & Hown & Hval & Hcalls
        & Hf & Hk & Hdry & Hend).
  cbv zeta in *. exists verdicts, (pre ++ post).
  assert (Hc : delete_calls (pre ++ post) = delete_calls post).
  { rewrite delete_calls_app.
    unfold delete_calls at 1.
    now rewrite (only_flat_map _ _ Hpre _ pre_not_attempt). }
  split; [exact Htr|].
  split.
  { rewrite validated_app. unfold validated at 2.
    rewrite (only_flat_map _ _ Hpost _ post_not_view), app_nil_r. exact Hval. }
  split; [rewrite Hc; exact Hcalls|].
  split.
  { rewrite Hf, tally_app, (only_tally _ _ Hpre _ pre_not_delete_fail).
    rewrite (rejected_length _ _ _ Hval). lia. }
  intros s' Hret. rewrite Hret in Hend. inversion Hend; subst.
  split; [assumption|]. rewrite Hc. assumption.
Qed.

(** C8.  When the summary is reached, the failure counter is the number of
    candidates that failed validation plus the number of deletions the
    client refused, the success counter is the number of calls of
    [delete_repository] that returned true (dry-run notices included), the
    one "Total processed" line shows the sum of the two counters, and that
    sum is the number of candidates. *)
Theorem C8_summary_counts w auto_confirm s s' :
  batch_delete w auto_confirm s = Return tt s' ->
  exists suf,
    trace s' = trace s ++ suf
    /\ failed_deletions s' = tally is_view_fail suf + tally is_delete_fail suf
    /\ successful_deletions s' = tally is_delete_ok suf
    /\ filter is_summary_total suf
       = [EPrint (MsgSummaryTotal (successful_deletions s' + failed_deletions s'))]
    /\ py_len (repositories s)
       = Some (successful_deletions s' + failed_deletions s').
Proof.
  intro Hret.
  destruct (batch_delete_iterates _ _ _ _ Hret) as [candidates Hiter].
  destruct (batch_delete_run w auto_confirm s candidates Hiter)
    as (verdicts & pre & post & Hs & Htr & Hpre & Hpost & Hown & Hval & Hcalls
        & Hf & Hk & Hdry & Hend).
  cbv zeta in *. rewrite Hret in *. cbn [final] in *.
  inversion Hend as [| | | | |s0 Hlen Hne Hconf Hall Hsum Htot]; subst s0.
  exists (pre ++ post).
  split; [exact Htr|].
  rewrite !tally_app, !filter_app.
  rewrite (only_tally _ _ Hpre _ pre_not_delete_fail).
  rewrite (only_tally _ _ Hpre _ pre_not_delete_ok).
  rewrite (only_tally _ _ Hpost _ post_not_view_fail).
  rewrite (only_filter _ _ Hpre _ pre_not_total).
  split; [lia|]. split; [lia|]. split; [exact Htot|].
  rewrite (py_iter_len _ _ Hiter). f_equal.
  rewrite Hk, Hf, (rejected_length _ _ _ Hval).
  pose proof (survivors_rejected candidates verdicts Hlen). lia.
Qed.

(** C3.  In dry-run mode [delete_repository] only prints its notice and
    returns true: no run of the client, no log line.  A whole batch in
    dry-run mode therefore runs no [gh repo delete] and appends nothing to
    the log, while the validation pass still asks the client about the
    candidates, before any call of [delete_repository]; when the batch
    returns, every candidate was asked about and the success counter is
    the number of validated candidates. *)
Theorem C3_dry_run w s :
  dry_run s = true ->
  (forall repo,
     delete_repository w repo s
     = Return true (push (EPrint (MsgWouldDelete (username s) repo)) s))
  /\ forall auto_confirm candidates,
       py_iter (repositories s) = Some candidates ->
       exists verdicts pre post,
         let o := batch_delete w auto_confirm s in
         trace (final o) = trace s ++ pre ++ post
         /\ validated pre = combine candidates verdicts
         /\ delete_calls pre = []
         /\ validated post = []
         /\ filter is_live_delete (pre ++ post) = []
         /\ filter is_log (pre ++ post) = []
         /\ (forall s', o = Return tt s' ->
             List.length verdicts = List.length candidates
             /\ delete_calls post = survivors candidates verdicts
             /\ successful_deletions s'
                = Z.of_nat (List.length (survivors candidates verdicts))).
Proof.
  intro Hdry. split.
  - intro repo. rewrite delete_repository_eq. cbv zeta. now rewrite Hdry.
  - intros auto_confirm candidates Hiter.
    destruct (batch_delete_run w auto_confirm s candidates Hiter)
      as (verdicts & pre & post & Hs & Htr & Hpre & Hpost & Hown & Hval & Hcalls
          & Hf & Hk & Hquiet & Hend).
    cbv zeta in *. destruct (Hquiet Hdry) as [Hlog Hlive].
    exists verdicts, pre, post.
    split; [exact Htr|]. split; [exact Hval|].
    split; [exact (only_flat_map _ _ Hpre _ pre_not_attempt)|].
    split; [exact (only_flat_map _ _ Hpost _ post_not_view)|].
    split.
    { now rewrite filter_app, Hlive, (only_filter _ _ Hpre _ pre_not_live). }
    split.
    { now rewrite filter_app, Hlog, (only_filter _ _ Hpre _ pre_not_log). }
    intros s' Hret. rewrite Hret in *. cbn [final] in *.
    inversion Hend as [| | | | |s0 Hlen Hne Hconf Hall Hsum Htot]; subst s0.
    split; [exact Hlen|]. split; [exact Hall|].
    rewrite Hk. rewrite (no_live_no_fail _ Hlive) in Hsum. lia.
Qed.

(** C5.  A run whose validation pass got a verdict for every candidate,
    none of them positive, exits with code 1; the confirmation prompt was
    not shown (nothing was read from standard input) and
    [delete_repository] was not called. *)
Theorem C5_none_valid w auto_confirm s candidates suf :
  py_iter (repositories s) = Some candidates ->
  let o := batch_delete w auto_confirm s in
  trace (final o) = trace s ++ suf ->
  List.length (validated suf) = List.length candidates ->
  filter snd (validated suf) = [] ->
  o = Exit 1 (final o)
  /\ filter is_input suf = []
  /\ delete_calls suf = [].
Proof.
  intros Hiter o Hsuf Hall Hnone. subst o.
  destruct (batch_delete_run w auto_confirm s candidates Hiter)
    as (verdicts & pre & post & Hs & Htr & Hpre & Hpost & Hown & Hval & Hcalls
        & Hf & Hk & Hquiet & Hend).
  cbv zeta in *.
  rewrite Htr in Hsuf. apply app_inv_head in Hsuf. subst suf.
  assert (Hv : validated (pre ++ post) = combine candidates verdicts).
  { rewrite validated_app. unfold validated at 2.
    now rewrite (only_flat_map _ _ Hpost _ post_not_view), app_nil_r. }
  rewrite Hv in Hall, Hnone. rewrite length_combine in Hall.
  assert (Hsurv : survivors candidates verdicts = []).
  { unfold survivors. now rewrite Hnone. }
  inversion Hend as [e s0 Hlt|s0 Hlen _ Hp| | | |]; subst;
    try lia; try contradiction.
  split; [reflexivity|].
  rewrite filter_app, delete_calls_app.
  rewrite (only_filter _ _ Hpre _ pre_not_input).
  unfold delete_calls at 1.
  rewrite (only_flat_map _ _ Hpre _ pre_not_attempt).
  split; reflexivity.
Qed.

(** C2.  Without auto-confirm, when the next thing on standard input is
    anything but the exact line DELETE (another text, or an interruption),
    no run of [batch_delete] calls [delete_repository]; and if the prompt
    was reached (a validation pass that covered every candidate and let
    at least one through reaches it), the process exits with code 0. *)
Theorem C2_confirmation_gate w s candidates item rest :
  py_iter (repositories s) = Some candidates ->
  stdin s = item :: rest ->
  item <> Line "DELETE" ->
  exists suf,
    let o := batch_delete w false s in
    trace (final o) = trace s ++ suf
    /\ delete_calls suf = []
    /\ (In (EInput PromptConfirm (Some item)) suf -> o = Exit 0 (final o))
    /\ (List.length (validated suf) = List.length candidates ->
        filter snd (validated suf) <> [] ->
        o = Exit 0 (final o)).
Proof.
  intros Hiter Hin Hitem.
  destruct (batch_delete_run w false s candidates Hiter)
    as (verdicts & pre & post & Hs & Htr & Hpre & Hpost & Hown & Hval & Hcalls
        & Hf & Hk & Hquiet & Hend).
  cbv zeta in *. exists (pre ++ post).
  assert (Hv : validated (pre ++ post) = combine candidates verdicts).
  { rewrite validated_app. unfold validated at 2.
    now rewrite (only_flat_map _ _ Hpost _ post_not_view), app_nil_r. }
  assert (Hc : delete_calls (pre ++ post) = delete_calls post).
  { rewrite delete_calls_app. unfold delete_calls at 1.
    now rewrite (only_flat_map _ _ Hpre _ pre_not_attempt). }
  assert (Hno : ~ In (EInput PromptConfirm (Some item)) pre).
  { intro Hi. apply (only_each _ _ Hpre) in Hi. discriminate. }
  rewrite Hv, Hc, length_combine.
  split; [exact Htr|].
  inversion Hend as [e s0 Hlt Hp|s0 Hlen Hnone Hp|s0 _ _ _ Hempty
                    |i r s0 Hlen Hne _ _ _ Hp|e s0 _ _ Hconf|s0 _ _ Hconf];
    subst; cbn [final].
  - split; [reflexivity|]. split.
    + rewrite app_nil_r. intro Hi. contradiction.
    + intros Hall _. lia.
  - split; [reflexivity|]. split.
    + intro Hi. apply in_app_or in Hi as [Hi|[Hi|[]]];
        [contradiction | discriminate].
    + intros _ Hsome. exfalso. apply Hsome.
      unfold survivors in Hnone. now apply map_eq_nil in Hnone.
  - rewrite Hin in Hempty. discriminate.
  - split; [exact Hp|]. split; reflexivity.
  - destruct Hconf as [Hauto|[more Hline]]; [discriminate|].
    rewrite Hin in Hline. inversion Hline; subst. contradiction.
  - destruct Hconf as [Hauto|[more Hline]]; [discriminate|].
    rewrite Hin in Hline. inversion Hline; subst. contradiction.
Qed.

(** Every run of the client on a repository, for validation or for
    deletion, names the user the session had when [batch_delete] was
    entered. *)
Lemma batch_delete_owner w auto_confirm s candidates :
  py_iter (repositories s) = Some candidates ->
  exists suf,
    trace (final (batch_delete w auto_confirm s)) = trace s ++ suf
    /\ Forall (owned_by (username s)) suf.
Proof.
  intro Hiter.
  destruct (batch_delete_run w auto_confirm s candidates Hiter)
    as (verdicts & pre & post & Hs & Htr & Hpre & Hpost & Hown & _).
  exists (pre ++ post). split; assumption.
Qed.

(** ** A small program logic for the rest of the script *)

Section Logic.

Variable keep : bool.
Variable q : event -> bool.

Lemma frame_refl s : frame keep q s s.
Proof. split; [reflexivity|]. exists []. now rewrite app_nil_r. Qed.

Lemma frame_trans s1 s2 s3 :
  frame keep q s1 s2 -> frame keep q s2 s3 -> frame keep q s1 s3.
Proof.
  intros [Hu1 (t1 & Ht1 & Hq1)] [Hu2 (t2 & Ht2 & Hq2)]. split.
  - intro Hk. rewrite (Hu2 Hk). now apply Hu1.
  - exists (t1 ++ t2). split.
    + now rewrite Ht2, Ht1, app_assoc.
    + now rewrite forallb_app, Hq1, Hq2.
Qed.

Lemma frame_weaken s s' : frame keep q s s' -> frame false q s s'.
Proof. intros [_ H]. split; [discriminate | exact H]. Qed.

Lemma sat_ret {A} (a : A) : sat (frame keep q) (ret a).
Proof. intro s. apply frame_refl. Qed.

Lemma sat_get {A} (f : state -> A) : sat (frame keep q) (get f).
Proof. intro s. apply frame_refl. Qed.

Lemma sat_exit {A} code : sat (frame keep q) (@sys_exit A code).
Proof. intro s. apply frame_refl. Qed.

Lemma sat_raise {A} e : sat (frame keep q) (@raise A e).
Proof. intro s. apply frame_refl. Qed.

Lemma sat_bind {A B} (m : M A) (k : A -> M B) :
  sat (frame keep q) m -> (forall a, sat (frame keep q) (k a)) ->
  sat (frame keep q) (bind m k).
Proof.
  intros Hm Hk s. unfold bind. specialize (Hm s).
  destruct (m s) as [a s1|code s1|e s1]; cbn [final] in *; auto.
  eapply frame_trans; [exact Hm | apply Hk].
Qed.

Lemma sat_emit e : q e = true -> sat (frame keep q) (emit e).
Proof.
  intros He s. split; [reflexivity|]. exists [e]. split; [reflexivity|].
  cbn [forallb]. now rewrite He.
Qed.

Lemma sat_same {A} (m : M A) :
  (forall s, username (final (m s)) = username s
             /\ trace (final (m s)) = trace s) ->
  sat (frame keep q) m.
Proof.
  intros H s. destruct (H s) as [Hu Ht]. split; [auto|].
  exists []. now rewrite app_nil_r.
Qed.

Lemma sat_set_repositories v : sat (frame keep q) (set_repositories v).
Proof. apply sat_same. intro s. split; reflexivity. Qed.

Lemma sat_set_verbose b : sat (frame keep q) (set_verbose b).
Proof. apply sat_same. intro s. split; reflexivity. Qed.

Lemma sat_set_dry_run b : sat (frame keep q) (set_dry_run b).
Proof. apply sat_same. intro s. split; reflexivity. Qed.

Lemma sat_input p :
  (forall r, q (EInput p r) = true) -> sat (frame keep q) (input p).
Proof.
  intros Hq s. unfold input.
  destruct (stdin s) as [|item rest]; cbn [final];
    (split; [reflexivity|]); eexists; (split; [reflexivity|]);
    cbn [forallb]; now rewrite Hq.
Qed.

Lemma sat_run w c :
  (forall r, q (EGh c r) = true) -> sat (frame keep q) (run w c).
Proof.
  intros Hq s. unfold run, bind, get, emit, ret. cbn [final].
  split; [reflexivity|]. eexists. split; [reflexivity|].
  cbn [forallb]. now rewrite Hq.
Qed.

Lemma hoare_sat {A} (Q : A -> state -> Prop) (m : M A) :
  hoare (frame keep q) Q m -> sat (frame keep q) m.
Proof. intros H s. apply H. Qed.

(** The postcondition of a sequence is that of its last part. *)
Lemma hoare_bind {A B} (Q : B -> state -> Prop) (m : M A) (k : A -> M B) :
  sat (frame keep q) m -> (forall a, hoare (frame keep q) Q (k a)) ->
  hoare (frame keep q) Q (bind m k).
Proof.
  intros Hm Hk s. unfold bind. specialize (Hm s).
  destruct (m s) as [a s1|code s1|e s1]; cbn [final] in *.
  - destruct (Hk a s1) as [HR HQ]. split; [|exact HQ].
    eapply frame_trans; eassumption.
  - split; [exact Hm | discriminate].
  - split; [exact Hm | discriminate].
Qed.

End Logic.

Lemma sat_set_username q v : sat (frame false q) (set_username v).
Proof.
  intro s. split; [discriminate|]. exists []. cbn [final set_username trace].
  now rewrite app_nil_r.
Qed.

(** Decomposes a goal [sat (frame keep q) m] along the structure of [m]. *)
Ltac sat_step :=
  first
    [ apply sat_ret | apply sat_get | apply sat_exit | apply sat_raise
    | apply sat_set_repositories | apply sat_set_verbose | apply sat_set_dry_run
    | apply sat_set_username
    | apply sat_emit; reflexivity
    | apply sat_input; intro; reflexivity
    | apply sat_run; intro; reflexivity
    | apply sat_bind; [|intro]
    | match goal with
      | |- sat _ (match ?x with _ => _ end) => destruct x
      end ].

Ltac sat_auto := repeat sat_step.

(** ** Input resolution *)

Section Resolve.

Variable w : world.

Lemma check_gh_cli_sat keep : sat (frame keep is_resolve) (check_gh_cli w).
Proof. unfold check_gh_cli, print_color. sat_auto. Qed.

Lemma check_auth_sat keep : sat (frame keep is_resolve) (check_auth w).
Proof. unfold check_auth, run_check, print_color. sat_auto. Qed.

Lemma get_username_sat : sat (frame false is_resolve) (get_username w).
Proof. unfold get_username, print_color. sat_auto. Qed.

Lemma load_config_sat path : sat (frame false is_resolve) (load_config w path).
Proof. unfold load_config, config_entry, print_color. sat_auto. Qed.

Lemma load_from_file_sat path keep : sat (frame keep is_resolve) (load_from_file w path).
Proof. unfold load_from_file, print_color. sat_auto. Qed.

Lemma extend_sat more keep : sat (frame keep is_resolve) (extend more).
Proof. unfold extend. sat_auto. Qed.

Lemma list_repositories_sat keep : sat (frame keep is_resolve) (list_repositories w).
Proof. unfold list_repositories, print_color. sat_auto. Qed.

Lemma print_items_sat keep repos :
  forall i, sat (frame keep is_resolve) (print_items i repos).
Proof.
  induction repos as [|repo rest IH]; intro i; cbn [print_items].
  - apply sat_ret.
  - unfold print_color. apply sat_bind; [apply sat_emit; reflexivity|].
    intros _. apply IH.
Qed.

Lemma select_loop_sat keep repos tokens :
  forall selected, sat (frame keep is_resolve) (select_loop repos tokens selected).
Proof.
  induction tokens as [|num_str rest IH]; intro selected; cbn [select_loop].
  - apply sat_ret.
  - unfold print_color.
    destruct (PyStr.int num_str) as [num|];
      [destruct ((1 <=? num) && (num <=? Z.of_nat (List.length repos)))|];
      try apply IH;
      (apply sat_bind; [apply sat_emit; reflexivity | intros _; apply IH]).
Qed.

End Resolve.

(** ** Interactive selection *)

Lemma push_all_nil s : push_all [] s = s.
Proof. unfold push_all. rewrite app_nil_r. now destruct s. Qed.

Lemma print_items_eq repos : forall i s,
  print_items i repos s = Return tt (push_all (item_lines i repos) s).
Proof.
  induction repos as [|repo rest IH]; intros i s; cbn [print_items item_lines].
  - now rewrite push_all_nil.
  - unfold bind, print_color, emit. now rewrite IH, push_push_all.
Qed.

Lemma pick_in_range repos num_str num :
  PyStr.int num_str = Some num ->
  (1 <=? num) && (num <=? Z.of_nat (List.length repos)) = true ->
  pick repos num_str = Some (nth (Z.to_nat (num - 1)) repos "").
Proof.
  intros Hint Hrange. unfold pick. rewrite Hint, Hrange.
  apply andb_true_iff in Hrange as [H1 H2].
  apply Z.leb_le in H1, H2.
  apply nth_error_nth'. lia.
Qed.

(** The loop of [interactive_selection] computes [picks] and warns about
    [skipped]; it never stops the process. *)
Lemma select_loop_eq repos tokens : forall selected s,
  select_loop repos tokens selected s
  = Return (selected ++ picks repos tokens)
           (push_all (map warning (skipped repos tokens)) s).
Proof.
  induction tokens as [|num_str rest IH]; intros selected s.
  - cbn. now rewrite app_nil_r, push_all_nil.
  - cbn [select_loop picks skipped flat_map filter].
    fold (picks repos rest). fold (skipped repos rest).
    destruct (PyStr.int num_str) as [num|] eqn:Hint.
    + destruct ((1 <=? num) && (num <=? Z.of_nat (List.length repos))) eqn:Hrange.
      * rewrite (pick_in_range _ _ _ Hint Hrange), IH.
        now rewrite <- app_assoc.
      * unfold pick. rewrite Hint, Hrange.
        unfold bind, print_color, emit. rewrite IH.
        cbn [map]. now rewrite push_push_all.
    + unfold pick. rewrite Hint.
      unfold bind, print_color, emit. rewrite IH.
      cbn [map]. now rewrite push_push_all.
Qed.

(** [interactive_selection] once a non-empty list of repositories is on
    the screen and a line is waiting on standard input. *)
Lemma interactive_selection_from_line repos text rest s :
  repos <> [] ->
  stdin s = Line text :: rest ->
  let selection := PyStr.strip text in
  let everything := String.eqb (PyStr.lower selection) "all" in
  let chosen := if everything then repos
                else picks repos (PyStr.split selection) in
  let warned := if everything then []
                else skipped repos (PyStr.split selection) in
  let s1 := push_all (map warning warned)
              (read PromptSelection (Line text) (push_all (listing repos) s)) in
  interactive_selection_from repos s
  = match chosen with
    | [] => Exit 0 (push (EPrint MsgNoneSelected) (with_repositories (PList []) s1))
    | _ => Return tt (with_repositories (PList (map PStr chosen)) s1)
    end.
Proof.
  intros Hne Hin. cbv zeta.
  unfold interactive_selection_from.
  destruct repos as [|r0 repos']; [contradiction|].
  set (repos := r0 :: repos') in *.
  unfold bind at 1. unfold ret at 1.
  unfold bind at 1, print_color at 1, emit at 1.
  unfold bind at 1. rewrite print_items_eq.
  unfold bind at 1, print_color at 1, emit at 1.
  unfold bind at 1, print_color at 1, emit at 1.
  unfold bind at 1, print_color at 1, emit at 1.
  unfold bind at 1.
  match goal with
  | |- context [input PromptSelection ?st] =>
      assert (Hst : st = push_all (listing repos) s)
  end.
  { unfold listing, push_all, push.
    cbn [username repositories successful_deletions failed_deletions
         verbose dry_run stdin trace].
    rewrite <- !app_assoc. reflexivity. }
  rewrite Hst. clear Hst.
  unfold input. cbn [stdin push_all]. rewrite Hin.
  match goal with
  | |- _ ?st = _ =>
      assert (Hst : st = read PromptSelection (Line text)
                           (push_all (listing repos) s))
  end.
  { unfold read. cbn [stdin push_all tl]. rewrite Hin. reflexivity. }
  rewrite Hst. clear Hst.
  set (s0 := read PromptSelection (Line text) (push_all (listing repos) s)).
  destruct (String.eqb (PyStr.lower (PyStr.strip text)) "all").
  - unfold bind, set_repositories, get, ret. cbn [map].
    rewrite push_all_nil. reflexivity.
  - unfold bind at 1. unfold bind at 1. rewrite select_loop_eq. cbn [app].
    unfold set_repositories, bind, get.
    cbn [repositories].
    destruct (picks repos (PyStr.split (PyStr.strip text))); reflexivity.
Qed.

Lemma lower_char_space c : PyStr.is_space c = true -> PyStr.lower_char c = c.
Proof.
  destruct c as [b0 b1 b2 b3 b4 b5 b6 b7].
  destruct b0, b1, b2, b3, b4, b5, b6, b7; intro H;
    first [reflexivity | discriminate H].
Qed.

Lemma lower_letter_not_space c x :
  PyStr.lower_char c = x -> PyStr.is_space x = false -> PyStr.is_space c = false.
Proof.
  intros Hl Hx. destruct (PyStr.is_space c) eqn:Hc; [|reflexivity].
  rewrite (lower_char_space c Hc) in Hl. congruence.
Qed.

(** A line that reads "all" once in lower case has no white space to
    strip. *)
Lemma lower_all_strip text : PyStr.lower text = "all" -> PyStr.strip text = text.
Proof.
  destruct text as [|c1 [|c2 [|c3 [|c4 t]]]]; cbn [PyStr.lower]; intro H;
    try discriminate H.
  injection H as H1 H2 H3.
  assert (S1 : PyStr.is_space c1 = false)
    by (eapply lower_letter_not_space; [exact H1 | reflexivity]).
  assert (S3 : PyStr.is_space c3 = false)
    by (eapply lower_letter_not_space; [exact H3 | reflexivity]).
  unfold PyStr.strip. cbn [PyStr.lstrip]. rewrite S1.
  cbn [PyStr.rstrip]. now rewrite S3.
Qed.

(** C6, as amended.  Against an empty listing the process exits with
    code 0 without reading anything.  Against a non-empty listing, a line
    whose stripped, lower-cased form is all selects every listed
    repository in listed order; any other line selects the repositories at
    the in-range 1-based numbers among its white-space separated tokens,
    in token order, and each other token is skipped with a warning, be it
    out of range or no number for [int], as is a numeral of more than
    4300 digits; an empty selection ends the process with exit code 0. *)
Theorem C6_interactive_selection repos text rest s :
  stdin s = Line text :: rest ->
  let selection := PyStr.strip text in
  let everything := String.eqb (PyStr.lower selection) "all" in
  let chosen := if everything then repos
                else picks repos (PyStr.split selection) in
  let warned := if everything then []
                else skipped repos (PyStr.split selection) in
  let o := interactive_selection_from repos s in
  (repos = [] -> o = Exit 0 (final o) /\ stdin (final o) = stdin s)
  /\ (repos <> [] ->
      trace (final o)
      = trace s ++ listing repos
        ++ EInput PromptSelection (Some (Line text)) :: map warning warned
        ++ match chosen with [] => [EPrint MsgNoneSelected] | _ => [] end
      /\ repositories (final o) = PList (map PStr chosen)
      /\ match chosen with
         | [] => o = Exit 0 (final o)
         | _ => o = Return tt (final o)
         end).
Proof.
  intros Hin. cbv zeta. split.
  - intros ->. split; reflexivity.
  - intro Hne.
    rewrite (interactive_selection_from_line repos text rest s Hne Hin).
    cbv zeta.
    destruct (if String.eqb (PyStr.lower (PyStr.strip text)) "all"
              then repos else picks repos (PyStr.split (PyStr.strip text)))
      as [|r more]; fields; unfold with_repositories, read; fields;
      rewrite <- ?app_assoc; cbn [app]; rewrite ?app_nil_r;
      repeat split; reflexivity.
Qed.

(** The example of the specification: 1 3 99 abc against five listed
    repositories selects the first and the third and warns twice. *)
Lemma C6_interactive_selection_witness :
  five <> []
  /\ stdin (typing "1 3 99 abc") = [Line "1 3 99 abc"]
  /\ interactive_selection_from five (typing "1 3 99 abc")
     = Return tt (final (interactive_selection_from five (typing "1 3 99 abc")))
  /\ repositories (final (interactive_selection_from five (typing "1 3 99 abc")))
     = PList [PStr "r1"; PStr "r3"]
  /\ filter (fun e => negb (is_resolve e) || match e with
                                             | EPrint (MsgSkippingInvalid _) => true
                                             | _ => false
                                             end)
       (trace (final (interactive_selection_from five (typing "1 3 99 abc"))))
     = [warning "99"; warning "abc"].
Proof.
  split; [discriminate|]. split; [reflexivity|].
  destruct (proj2 (C6_interactive_selection five "1 3 99 abc" []
                     (typing "1 3 99 abc") eq_refl) ltac:(discriminate))
    as (Htr & Hrepos & Hout).
  split; [exact Hout|]. split; [exact Hrepos|].
  rewrite Htr. reflexivity.
Defined.

(** C6 as stated fails on the line ALL: it is not the text all, and none
    of its tokens is a number, yet every listed repository is selected. *)
Lemma C6_counterexample :
  stated_selection five "ALL" = []
  /\ repositories (final (interactive_selection_from five (typing "ALL")))
     = PList (map PStr five)
  /\ repositories (final (interactive_selection_from five (typing "ALL")))
     <> PList (map PStr (stated_selection five "ALL")).
Proof.
  split; [reflexivity|]. split; [reflexivity|]. discriminate.
Qed.

(** The limit of [int] on the number of digits: 4300 digits are read,
    4301 are not, and the picker skips such a token like any other that
    is no number. *)
Example int_digit_limit :
  PyStr.int (zeros_one 4299) = Some 1
  /\ PyStr.int (zeros_one 4300) = None
  /\ picks five [zeros_one 4299; zeros_one 4300; "2"] = ["r1"; "r2"]
  /\ skipped five [zeros_one 4299; zeros_one 4300; "2"] = [zeros_one 4300].
Proof. repeat split; vm_compute; reflexivity. Qed.

Example overlong_numeral_skipped :
  let o := interactive_selection_from five (typing (zeros_one 4300)) in
  o = Exit 0 (final o) /\ repositories (final o) = PList [].
Proof. cbv zeta. split; vm_compute; reflexivity. Qed.

(** What [int] strips is not what [str.strip] strips: a file separator
    U+001C before the digits makes [int] fail. *)
Example int_white_space :
  PyStr.int (String "009" "1") = Some 1
  /\ PyStr.int (String "028" "1") = None
  /\ PyStr.strip (String "028" "1") = "1".
Proof. repeat split; vm_compute; reflexivity. Qed.

(** C10.  The word all is recognised in any letter case: a line whose
    lower-case form is all selects every listed repository. *)
Theorem C10_all_any_case repos text rest s :
  repos <> [] ->
  stdin s = Line text :: rest ->
  PyStr.lower text = "all" ->
  exists s',
    interactive_selection_from repos s = Return tt s'
    /\ repositories s' = PList (map PStr repos)
    /\ stdin s' = rest.
Proof.
  intros Hne Hin Hall.
  rewrite (interactive_selection_from_line repos text rest s Hne Hin).
  cbv zeta. rewrite (lower_all_strip text Hall), Hall, String.eqb_refl.
  destruct repos as [|r more]; [contradiction|].
  eexists. split; [reflexivity|].
  unfold with_repositories, read. fields. cbn [tl]. rewrite Hin.
  split; reflexivity.
Qed.

Lemma C10_all_any_case_witness :
  five <> []
  /\ stdin (typing "All") = [Line "All"]
  /\ PyStr.lower "All" = "all"
  /\ exists s',
       interactive_selection_from five (typing "All") = Return tt s'
       /\ repositories s' = PList (map PStr five)
       /\ stdin s' = [].
Proof.
  split; [discriminate|]. split; [reflexivity|]. split; [reflexivity|].
  apply (C10_all_any_case five "All" [] (typing "All"));
    [discriminate | reflexivity | reflexivity].
Defined.

(** ** The configuration file *)

(** [load_config] on a file whose JSON object names a user. *)
Lemma load_config_sets_user w path s items v :
  json_load w path = JsonValue (PDict items) ->
  dict_get "username" items = Some v ->
  truthy v = true ->
  forall u s', load_config w path s = Return u s' -> username s' = v.
Proof.
  intros Hjson Hget Htrue u s'. unfold load_config.
  destruct (path_exists w path); cbn [negb]; [|discriminate].
  rewrite Hjson. unfold config_entry, py_in, py_getitem. rewrite Hget, Htrue.
  destruct (dict_get "repositories" items) as [r|];
    [destruct (truthy r)|];
    unfold bind, ret, set_username, set_repositories, print_color, emit, push;
    cbn [username]; intro Hret; inversion Hret; reflexivity.
Qed.

(** C7.  Loading a configuration file that holds a JSON object always
    returns; a missing or empty username field leaves the user name of the
    session as it was, and a missing or empty repositories field leaves
    the repository list as it was, whatever the other field holds; a
    non-empty field replaces the value of the session. *)
Theorem C7_config_frame w path s items :
  path_exists w path = true ->
  json_load w path = JsonValue (PDict items) ->
  exists s',
    load_config w path s = Return tt s'
    /\ (absent_or_empty "username" items = true -> username s' = username s)
    /\ (absent_or_empty "repositories" items = true ->
        repositories s' = repositories s)
    /\ (forall v, dict_get "username" items = Some v -> truthy v = true ->
        username s' = v)
    /\ (forall v, dict_get "repositories" items = Some v -> truthy v = true ->
        repositories s' = v).
Proof.
  intros Hex Hjson. unfold load_config, absent_or_empty.
  rewrite Hex, Hjson. cbn [negb].
  unfold config_entry, py_in, py_getitem.
  destruct (dict_get "username" items) as [u|] eqn:Hu;
    destruct (dict_get "repositories" items) as [r|] eqn:Hr;
    try destruct (truthy u) eqn:Tu; try destruct (truthy r) eqn:Tr;
    unfold bind, ret, set_username, set_repositories, print_color, emit, push;
    cbn [negb username repositories successful_deletions failed_deletions
         verbose dry_run stdin trace];
    eexists; (split; [reflexivity|]);
    cbn [username repositories];
    repeat split; intros; try reflexivity; try discriminate; congruence.
Qed.

(** ** From the command line to the batch *)

Lemma hoare_no_return {A} keep q (Q : A -> state -> Prop) (m : M A) :
  sat (frame keep q) m ->
  (forall s a s', m s <> Return a s') ->
  hoare (frame keep q) Q m.
Proof.
  intros Hm Hno s. split; [apply Hm|].
  intros a s' Hret. now apply Hno in Hret.
Qed.

(** A computation that keeps the user name carries a known user name
    through. *)
Lemma hoare_bind_keep {A B} q v (m : M A) (k : A -> M B) :
  hoare (frame false q) (fun _ s => username s = v) m ->
  (forall a, sat (frame true q) (k a)) ->
  hoare (frame false q) (fun _ s => username s = v) (bind m k).
Proof.
  intros Hm Hk s. unfold bind. destruct (Hm s) as [HR HQ].
  destruct (m s) as [a s1|code s1|e s1]; cbn [final] in *.
  - specialize (Hk a s1). split.
    + eapply frame_trans; [exact HR | eapply frame_weaken, Hk].
    + intros b s' Hret. rewrite Hret in Hk. cbn [final] in Hk.
      destruct Hk as [Hu _]. rewrite (Hu eq_refl). now apply (HQ a).
  - split; [exact HR | discriminate].
  - split; [exact HR | discriminate].
Qed.

Section Main.

Variable w : world.

(** The last test of [interactive_selection]. *)
Lemma selection_guard keep :
  hoare (frame keep is_resolve) has_repositories
    (r <- get repositories ;;
     if negb (truthy r) then print_color MsgNoneSelected ;;; sys_exit 0
     else ret tt).
Proof.
  intro s. unfold bind, get, print_color, emit, sys_exit, ret, has_repositories.
  destruct (truthy (repositories s)) eqn:Ht; cbn [negb final].
  - split; [apply frame_refl|]. intros a s' Hret. now inversion Hret; subst.
  - split; [|discriminate]. split; [reflexivity|].
    exists [EPrint MsgNoneSelected]. split; reflexivity.
Qed.

Lemma interactive_selection_from_hoare keep repos :
  hoare (frame keep is_resolve) has_repositories (interactive_selection_from repos).
Proof.
  unfold interactive_selection_from, print_color.
  apply hoare_bind; [destruct repos; sat_auto | intros _].
  apply hoare_bind; [sat_auto | intros _].
  apply hoare_bind; [apply print_items_sat | intros _].
  apply hoare_bind; [sat_auto | intros _].
  apply hoare_bind; [sat_auto | intros _].
  apply hoare_bind; [sat_auto | intros _].
  apply hoare_bind; [sat_auto | intros [text|]].
  - apply hoare_bind; [|intros _; apply selection_guard].
    destruct (String.eqb (PyStr.lower (PyStr.strip text)) "all").
    + sat_auto.
    + apply sat_bind; [apply select_loop_sat | intro; sat_auto].
  - apply hoare_no_return; [sat_auto|].
    intros s a s'. unfold bind, emit, sys_exit. discriminate.
Qed.

Lemma interactive_selection_hoare keep :
  hoare (frame keep is_resolve) has_repositories (interactive_selection w).
Proof.
  unfold interactive_selection, print_color.
  apply hoare_bind; [sat_auto | intros _].
  apply hoare_bind; [sat_auto | intros _].
  apply hoare_bind; [apply list_repositories_sat | intro repos].
  apply interactive_selection_from_hoare.
Qed.

(** Lines 376-383 of [main]: the interactive picker runs when asked for or
    when nothing was given, and the test that follows it always passes. *)
Lemma selection_step keep a :
  hoare (frame keep is_resolve) has_repositories
    (r <- get repositories ;;
     (if arg_interactive a || negb (truthy r) then interactive_selection w
      else ret tt) ;;;
     r <- get repositories ;;
     if negb (truthy r) then
       print_color MsgNoRepositoriesSpecified ;;;
       emit EPrintHelp ;;;
       sys_exit 0
     else ret tt).
Proof.
  intro s. unfold has_repositories.
  unfold bind, get, print_color, emit, sys_exit, ret.
  destruct (arg_interactive a || negb (truthy (repositories s))) eqn:Hpick.
  - destruct (interactive_selection_hoare keep s) as [HR HQ].
    destruct (interactive_selection w s) as [[] s1|code s1|e s1];
      cbn [final] in *; try (split; [exact HR | discriminate]).
    specialize (HQ tt s1 eq_refl). unfold has_repositories in HQ.
    rewrite HQ. cbn [negb final].
    split; [exact HR|]. intros a0 s' Hret. inversion Hret; subst. exact HQ.
  - apply orb_false_iff in Hpick as [_ Ht].
    apply negb_false_iff in Ht.
    rewrite Ht. cbn [negb final].
    split; [apply frame_refl|].
    intros a0 s' Hret. inversion Hret; subst. exact Ht.
Qed.

(** The part of [main] that follows the loading of the configuration. *)
Lemma after_config_sat a :
  forall u : unit,
  sat (frame true is_resolve)
    ((match arg_file a with
      | Some path => if nonempty path then load_from_file w path else ret tt
      | None => ret tt
      end) ;;;
     (match arg_repositories a with
      | [] => ret tt
      | more => extend more
      end) ;;;
     r <- get repositories ;;
     (if arg_interactive a || negb (truthy r) then interactive_selection w
      else ret tt) ;;;
     r <- get repositories ;;
     if negb (truthy r) then
       print_color MsgNoRepositoriesSpecified ;;;
       emit EPrintHelp ;;;
       sys_exit 0
     else ret tt).
Proof.
  intros _.
  apply sat_bind.
  { destruct (arg_file a) as [path|]; [destruct (nonempty path)|];
      first [apply load_from_file_sat | apply sat_ret]. }
  intros _. apply sat_bind.
  { destruct (arg_repositories a); [apply sat_ret | apply extend_sat]. }
  intros _. eapply hoare_sat. apply selection_step.
Qed.

Lemma main_resolve_hoare a :
  hoare (frame false is_resolve) has_repositories (main_resolve w a).
Proof.
  unfold main_resolve, print_color, log.
  apply hoare_bind; [sat_auto | intros _].
  apply hoare_bind; [sat_auto | intros _].
  apply hoare_bind.
  { destruct (arg_username a) as [u|]; [destruct (nonempty u)|]; sat_auto. }
  intros _.
  apply hoare_bind; [sat_auto | intros _].
  apply hoare_bind; [sat_auto | intros _].
  apply hoare_bind; [sat_auto | intros _].
  apply hoare_bind; [apply check_gh_cli_sat | intros _].
  apply hoare_bind; [apply check_auth_sat | intros _].
  apply hoare_bind; [apply get_username_sat | intros _].
  apply hoare_bind.
  { destruct (arg_config a) as [path|]; [destruct (nonempty path)|];
      first [apply load_config_sat | apply sat_ret]. }
  intros _.
  apply hoare_bind.
  { destruct (arg_file a) as [path|]; [destruct (nonempty path)|];
      first [apply load_from_file_sat | apply sat_ret]. }
  intros _.
  apply hoare_bind.
  { destruct (arg_repositories a); [apply sat_ret | apply extend_sat]. }
  intros _. apply selection_step.
Qed.

End Main.

Lemma resolve_owned user e : is_resolve e = true -> owned_by user e.
Proof. event_cases e. Qed.

(** With a configuration file that names a user, [main] reaches
    [batch_delete] only with that user in the session. *)
Lemma main_resolve_config_user w a path items v :
  arg_config a = Some path ->
  nonempty path = true ->
  json_load w path = JsonValue (PDict items) ->
  dict_get "username" items = Some v ->
  truthy v = true ->
  hoare (frame false is_resolve) (fun _ s => username s = v) (main_resolve w a).
Proof.
  intros Hcfg Hne Hjson Hget Htrue.
  unfold main_resolve, print_color, log.
  apply hoare_bind; [sat_auto | intros _].
  apply hoare_bind; [sat_auto | intros _].
  apply hoare_bind.
  { destruct (arg_username a) as [u|]; [destruct (nonempty u)|]; sat_auto. }
  intros _.
  apply hoare_bind; [sat_auto | intros _].
  apply hoare_bind; [sat_auto | intros _].
  apply hoare_bind; [sat_auto | intros _].
  apply hoare_bind; [apply check_gh_cli_sat | intros _].
  apply hoare_bind; [apply check_auth_sat | intros _].
  apply hoare_bind; [apply get_username_sat | intros _].
  apply hoare_bind_keep; [|apply after_config_sat].
  rewrite Hcfg, Hne. intro s. split; [apply load_config_sat|].
  intros u s' Hret.
  exact (load_config_sets_user w path s items v Hjson Hget Htrue u s' Hret).
Qed.

(** C9.  [main] calls [batch_delete] on the state [main_resolve] returns,
    and in that state the repository list is never empty; the lines of
    the branch "No repositories specified" are printed in no run. *)
Theorem C9_repositories_at_batch w a s :
  let o := main_resolve w a s in
  main w a s
  = match o with
    | Return _ s' => batch_delete w (arg_auto_confirm a) s'
    | Exit code s' => Exit code s'
    | Uncaught e s' => Uncaught e s'
    end
  /\ (forall s', o = Return tt s' ->
      truthy (repositories s') = true /\ repositories s' <> PList [])
  /\ exists suf,
       trace (final o) = trace s ++ suf
       /\ ~ In (EPrint MsgNoRepositoriesSpecified) suf
       /\ ~ In EPrintHelp suf.
Proof.
  cbv zeta. split; [reflexivity|].
  destruct (main_resolve_hoare w a s) as [[_ (suf & Htr & Hq)] HQ].
  split.
  - intros s' Hret. specialize (HQ tt s' Hret). unfold has_repositories in HQ.
    split; [exact HQ|]. intro Hnil. rewrite Hnil in HQ. discriminate.
  - exists suf. split; [exact Htr|].
    split; intro Hin; apply (only_each _ _ Hq) in Hin; discriminate.
Qed.

(** Whatever the session holds, the events of [batch_delete] name its
    user. *)
Lemma batch_delete_owned w auto_confirm s :
  exists suf,
    trace (final (batch_delete w auto_confirm s)) = trace s ++ suf
    /\ Forall (owned_by (username s)) suf.
Proof.
  destruct (py_iter (repositories s)) as [candidates|] eqn:Hiter.
  - exact (batch_delete_owner w auto_confirm s candidates Hiter).
  - exists []. rewrite batch_delete_eq, Hiter.
    destruct (py_len (repositories s)); cbn [final];
      now rewrite app_nil_r.
Qed.

(** C4, as amended.  When the configuration file names a user, that name
    is the one used for validation and deletion, whether or not
    [--username] was given: every run of the client on a repository
    during [main] names the user of the configuration file. *)
Theorem C4_config_username_wins w a s path items v :
  arg_config a = Some path ->
  nonempty path = true ->
  json_load w path = JsonValue (PDict items) ->
  dict_get "username" items = Some v ->
  truthy v = true ->
  exists suf,
    trace (final (main w a s)) = trace s ++ suf
    /\ Forall (owned_by v) suf.
Proof.
  intros Hcfg Hne Hjson Hget Htrue.
  destruct (main_resolve_config_user w a path items v Hcfg Hne Hjson Hget Htrue s)
    as [[_ (suf & Htr & Hq)] HQ].
  assert (Hown : Forall (owned_by v) suf)
    by (apply (only_Forall _ _ Hq); apply resolve_owned).
  unfold main, bind.
  destruct (main_resolve w a s) as [[] s1|code s1|e s1]; cbn [final] in *;
    try (exists suf; split; assumption).
  specialize (HQ tt s1 eq_refl). cbn beta in HQ.
  destruct (batch_delete_owned w (arg_auto_confirm a) s1) as (suf2 & Htr2 & Hown2).
  exists (suf ++ suf2). split.
  - now rewrite Htr2, Htr, app_assoc.
  - apply Forall_app. split; [exact Hown|]. now rewrite <- HQ.
Qed.

(** ** Concrete runs *)

(** Closes a goal between closed terms by evaluation. *)
Ltac evaluate := vm_compute; reflexivity.

Lemma C1_execution_set_witness :
  let s := session ["demo"; "gone"; "demo"] false [Line "DELETE"] in
  let candidates := [PStr "demo"; PStr "gone"; PStr "demo"] in
  py_iter (repositories s) = Some candidates
  /\ exists verdicts suf,
       trace (final (batch_delete demo_world false s)) = trace s ++ suf
       /\ validated suf = combine candidates verdicts
       /\ delete_calls suf = survivors candidates verdicts
       /\ failed_deletions (final (batch_delete demo_world false s)) = 1.
Proof.
  cbv zeta. split; [evaluate|].
  destruct (C1_execution_set demo_world false
              (session ["demo"; "gone"; "demo"] false [Line "DELETE"])
              [PStr "demo"; PStr "gone"; PStr "demo"] ltac:(evaluate))
    as (verdicts & suf & Htr & Hval & _ & _ & Hret).
  exists verdicts, suf. split; [exact Htr|]. split; [exact Hval|].
  split; [|evaluate].
  apply (Hret (final (batch_delete demo_world false
                        (session ["demo"; "gone"; "demo"] false [Line "DELETE"])))).
  evaluate.
Defined.

Lemma C2_confirmation_gate_witness :
  declined (Line "delete") /\ declined (Line "Delete")
  /\ declined (Line "DELETE ") /\ declined Interrupt.
Proof.
  assert (H : forall item,
            item <> Line "DELETE" ->
            In (EInput PromptConfirm (Some item))
               (trace (final (batch_delete demo_world false
                                (session ["demo"] false [item])))) ->
            declined item).
  { intros item Hne Hread. unfold declined. cbv zeta.
    destruct (C2_confirmation_gate demo_world (session ["demo"] false [item])
                [PStr "demo"] item [] eq_refl eq_refl Hne)
      as (suf & Htr & Hcalls & Hprompt & _).
    change (trace (session ["demo"] false [item]) ++ suf) with suf in Htr.
    split; [reflexivity|]. split; [reflexivity|]. split; [exact Hne|].
    split.
    - apply Hprompt. rewrite <- Htr. exact Hread.
    - rewrite Htr. exact Hcalls. }
  split; [|split; [|split]]; apply H; try discriminate;
    vm_compute; repeat (first [left; reflexivity | right]).
Defined.

Lemma C3_dry_run_witness :
  let s := session ["demo"; "gone"] true [Line "DELETE"] in
  dry_run s = true
  /\ (forall repo,
        delete_repository demo_world repo s
        = Return true (push (EPrint (MsgWouldDelete (username s) repo)) s))
  /\ successful_deletions (final (batch_delete demo_world false s)) = 1
  /\ filter is_log (trace (final (batch_delete demo_world false s))) = [].
Proof.
  cbv zeta. split; [reflexivity|].
  split; [|split; evaluate].
  exact (proj1 (C3_dry_run demo_world
                  (session ["demo"; "gone"] true [Line "DELETE"]) eq_refl)).
Defined.

(** C4 as stated fails: with [--username alice] and a configuration file
    naming bob, the repository is looked up and deleted under bob. *)
Lemma C4_counterexample :
  arg_username both_given = Some "alice"
  /\ In (EGh (GhRepoDelete (PStr "bob") (PStr "demo")) (GhDone true ""))
        (trace (final (main demo_world both_given (new_deleter []))))
  /\ ~ flag_username_used demo_world both_given (new_deleter []).
Proof.
  split; [reflexivity|].
  assert (Hin : In (EGh (GhRepoDelete (PStr "bob") (PStr "demo")) (GhDone true ""))
                   (trace (final (main demo_world both_given (new_deleter []))))).
  { vm_compute. repeat (first [left; reflexivity | right]). }
  split; [exact Hin|].
  intro Hused. specialize (Hused "alice" eq_refl).
  apply (proj1 (Forall_forall _ _) Hused) in Hin.
  cbn [owned_by] in Hin. discriminate Hin.
Qed.

Lemma C4_config_username_wins_witness :
  arg_config both_given = Some "user.json"
  /\ nonempty "user.json" = true
  /\ json_load demo_world "user.json"
     = JsonValue (PDict [("username", PStr "bob");
                         ("repositories", PList [PStr "demo"])])
  /\ truthy (PStr "bob") = true
  /\ exists suf,
       trace (final (main demo_world both_given (new_deleter []))) = [] ++ suf
       /\ Forall (owned_by (PStr "bob")) suf.
Proof.
  split; [reflexivity|]. split; [reflexivity|]. split; [reflexivity|].
  split; [reflexivity|].
  exact (C4_config_username_wins demo_world both_given (new_deleter [])
           "user.json"
           [("username", PStr "bob"); ("repositories", PList [PStr "demo"])]
           (PStr "bob") eq_refl eq_refl eq_refl eq_refl eq_refl).
Defined.

Lemma C5_none_valid_witness :
  let s := session ["gone"; "gone"] false [Line "DELETE"] in
  let o := batch_delete demo_world false s in
  py_iter (repositories s) = Some [PStr "gone"; PStr "gone"]
  /\ List.length (validated (trace (final o))) = 2%nat
  /\ filter snd (validated (trace (final o))) = []
  /\ o = Exit 1 (final o)
  /\ filter is_input (trace (final o)) = []
  /\ delete_calls (trace (final o)) = [].
Proof.
  cbv zeta. split; [evaluate|]. split; [evaluate|]. split; [evaluate|].
  apply (C5_none_valid demo_world false
           (session ["gone"; "gone"] false [Line "DELETE"])
           [PStr "gone"; PStr "gone"]
           (trace (final (batch_delete demo_world false
                            (session ["gone"; "gone"] false [Line "DELETE"])))));
    evaluate.
Defined.

Lemma C7_config_frame_witness :
  let s := session [] false [] in
  path_exists demo_world "repos.json" = true
  /\ json_load demo_world "repos.json"
     = JsonValue (PDict [("repositories", PList [PStr "demo"; PStr "gone"])])
  /\ absent_or_empty "username"
       [("repositories", PList [PStr "demo"; PStr "gone"])] = true
  /\ exists s',
       load_config demo_world "repos.json" s = Return tt s'
       /\ username s' = PStr "carol"
       /\ repositories s' = PList [PStr "demo"; PStr "gone"].
Proof.
  cbv zeta. split; [reflexivity|]. split; [evaluate|]. split; [evaluate|].
  destruct (C7_config_frame demo_world "repos.json" (session [] false [])
              [("repositories", PList [PStr "demo"; PStr "gone"])]
              eq_refl ltac:(evaluate))
    as (s' & Hret & Hu & _ & _ & Hr).
  exists s'. split; [exact Hret|]. split.
  - exact (Hu ltac:(evaluate)).
  - exact (Hr _ ltac:(evaluate) ltac:(evaluate)).
Defined.

Lemma C8_summary_counts_witness :
  let s := session ["demo"; "gone"; "locked"] false [] in
  let s' := final (batch_delete demo_world true s) in
  batch_delete demo_world true s = Return tt s'
  /\ successful_deletions s' = 1
  /\ failed_deletions s' = 2
  /\ exists suf,
       trace s' = trace s ++ suf
       /\ filter is_summary_total suf = [EPrint (MsgSummaryTotal 3)].
Proof.
  cbv zeta. split; [evaluate|]. split; [evaluate|]. split; [evaluate|].
  destruct (C8_summary_counts demo_world true
              (session ["demo"; "gone"; "locked"] false [])
              (final (batch_delete demo_world true
                        (session ["demo"; "gone"; "locked"] false [])))
              ltac:(evaluate))
    as (suf & Htr & _ & _ & Htot & _).
  exists suf. split; [exact Htr|].
  rewrite Htot. evaluate.
Defined.

(** The scenario that closes the specification: a dry run on one
    repository that exists and one that does not. *)
Example dry_run_scenario :
  let a := mkArgs ["demo"; "gone"] None None None false false true false in
  let o := main demo_world a (new_deleter [Line "DELETE"]) in
  exit_code o = 0
  /\ successful_deletions (final o) = 1
  /\ failed_deletions (final o) = 1
  /\ validated (trace (final o)) = [(PStr "demo", true); (PStr "gone", false)]
  /\ delete_calls (trace (final o)) = [PStr "demo"]
  /\ filter is_live_delete (trace (final o)) = []
  /\ filter is_summary_total (trace (final o)) = [EPrint (MsgSummaryTotal 2)].
Proof. cbv zeta. repeat split; evaluate. Qed.

(** ** More on the helpers of the script *)

Lemma lstrip_head c s : PyStr.is_space c = false -> PyStr.lstrip (String c s) = String c s.
Proof. intro H. cbn [PyStr.lstrip]. now rewrite H. Qed.

Lemma rstrip_head c s :
  PyStr.is_space c = false ->
  PyStr.rstrip (String c s) = String c (PyStr.rstrip s).
Proof.
  intro H. cbn [PyStr.rstrip]. rewrite H. now destruct (PyStr.rstrip s).
Qed.

Lemma rstrip_idempotent s : PyStr.rstrip (PyStr.rstrip s) = PyStr.rstrip s.
Proof.
  induction s as [|c s IH]; [reflexivity|].
  cbn [PyStr.rstrip]. destruct (PyStr.rstrip s) as [|c' r] eqn:Hr.
  - destruct (PyStr.is_space c) eqn:Hc; [reflexivity|].
    cbn [PyStr.rstrip]. now rewrite Hc.
  - cbn [PyStr.rstrip] in *. rewrite IH. reflexivity.
Qed.

(** [strip] leaves nothing more to strip. *)
Lemma strip_idempotent s : PyStr.strip (PyStr.strip s) = PyStr.strip s.
Proof.
  unfold PyStr.strip. induction s as [|c s IH]; [reflexivity|].
  cbn [PyStr.lstrip]. destruct (PyStr.is_space c) eqn:Hc; [exact IH|].
  rewrite (rstrip_head c s Hc), (lstrip_head c _ Hc), (rstrip_head c _ Hc).
  now rewrite rstrip_idempotent.
Qed.

Lemma has_char_lstrip c s : has_char c (PyStr.lstrip s) = true -> has_char c s = true.
Proof.
  induction s as [|c' s IH]; [easy|]. cbn [PyStr.lstrip has_char].
  destruct (PyStr.is_space c'); [|easy].
  intro H. rewrite (IH H). apply orb_true_r.
Qed.

Lemma has_char_rstrip c s : has_char c (PyStr.rstrip s) = true -> has_char c s = true.
Proof.
  induction s as [|c' s IH]; [easy|]. cbn [PyStr.rstrip has_char].
  destruct (PyStr.rstrip s) as [|c'' r].
  - destruct (PyStr.is_space c'); cbn [has_char]; [discriminate|].
    rewrite orb_false_r. intros ->. reflexivity.
  - cbn [has_char] in *. intro H. apply orb_true_iff in H as [H|H].
    + now rewrite H.
    + rewrite (IH H). apply orb_true_r.
Qed.

Lemma has_char_strip c s : has_char c (PyStr.strip s) = true -> has_char c s = true.
Proof. intro H. now apply has_char_lstrip, has_char_rstrip. Qed.

(** The fields [split_on] cuts out hold no separator. *)
Lemma split_on_fields sep s :
  Forall (fun field => has_char sep field = false) (PyStr.split_on sep s).
Proof.
  induction s as [|c s IH]; cbn [PyStr.split_on].
  - repeat constructor.
  - destruct (Ascii.eqb c sep) eqn:Hc.
    + constructor; [reflexivity | exact IH].
    + destruct (PyStr.split_on sep s) as [|f fs]; inversion IH; subst;
        constructor; cbn [has_char]; rewrite ?Hc; auto.
Qed.

Lemma nonempty_true s : nonempty s = true -> s <> EmptyString.
Proof. destruct s; [discriminate | discriminate]. Qed.

Lemma listed_names_clean stdout :
  Forall (fun name => clean_name name /\ has_char "010"%char name = false)
         (listed_names stdout).
Proof.
  unfold listed_names. apply Forall_forall. intros name Hin.
  apply filter_In in Hin as [Hin Hne]. apply in_map_iff in Hin as (field & <- & Hf).
  split; [split|].
  - now apply nonempty_true.
  - apply strip_idempotent.
  - pose proof (split_on_fields "010"%char stdout) as Hall.
    apply (proj1 (Forall_forall _ _) Hall) in Hf.
    destruct (has_char "010"%char (PyStr.strip field)) eqn:Hc; [|reflexivity].
    apply has_char_strip in Hc. congruence.
Qed.

Lemma file_names_clean lines :
  Forall (fun name => clean_name name /\ is_comment name = false)
         (file_names lines).
Proof.
  unfold file_names. apply Forall_forall. intros name Hin.
  apply filter_In in Hin as [Hin Hkeep]. apply in_map_iff in Hin as (line & <- & _).
  unfold keep_line in Hkeep. apply andb_true_iff in Hkeep as [Hne Hc].
  split; [split|].
  - now apply nonempty_true.
  - apply strip_idempotent.
  - unfold is_comment. now apply negb_true_iff in Hc.
Qed.

(** X1.  The names [list_repositories] returns are not empty, have no
    white space around them and hold no line feed; they are the lines of
    the client's output, or nothing at all when the client reports a
    failure.  The session is left as it was. *)
Theorem list_repositories_names w s names s' :
  list_repositories w s = Return names s' ->
  Forall (fun name => clean_name name /\ has_char "010"%char name = false) names
  /\ same_fields s s'
  /\ exists user,
       username s = PStr user
       /\ match gh w (trace s ++ [EPrint MsgFetching]) (GhRepoList user) with
          | GhDone true stdout => names = listed_names stdout
          | GhDone false _ => names = []
          | GhRaised _ => False
          end.
Proof.
  unfold list_repositories, run, print_color.
  unfold bind, get, emit, ret, raise, push. cbn [username trace].
  destruct (username s) as [| | | |user| |] eqn:Hu; try discriminate.
  cbn [username trace].
  destruct (gh w (trace s ++ [EPrint MsgFetching]) (GhRepoList user))
    as [[|] stdout|] eqn:Hgh; intro Hret; inversion Hret; subst; clear Hret.
  - split; [apply listed_names_clean|].
    split; [repeat split; cbn; auto|].
    exists user. split; [reflexivity|]. rewrite Hgh. reflexivity.
  - split; [constructor|].
    split; [repeat split; cbn; auto|].
    exists user. split; [reflexivity|]. rewrite Hgh. reflexivity.
Qed.

(** X2.  [load_from_file] on a file that exists and can be read replaces
    the repository list, whatever it held, by the stripped lines of the
    file that are neither empty nor comments, in file order; every entry
    is a clean name.  On a missing or unreadable file it exits with code
    1.  In both cases the rest of the session is untouched. *)
Theorem load_from_file_entries w path s :
  let o := load_from_file w path s in
  username (final o) = username s
  /\ stdin (final o) = stdin s
  /\ match path_exists w path, read_lines w path with
     | true, Some lines =>
         o = Return tt (final o)
         /\ repositories (final o) = PList (map PStr (file_names lines))
         /\ Forall (fun name => clean_name name /\ is_comment name = false)
                   (file_names lines)
     | _, _ =>
         o = Exit 1 (final o)
         /\ repositories (final o) = repositories s
     end.
Proof.
  cbv zeta. unfold load_from_file.
  destruct (path_exists w path); cbn [negb].
  - destruct (read_lines w path) as [lines|].
    + unfold bind, set_repositories, print_color, emit, push. cbn [final].
      repeat split; try reflexivity. apply file_names_clean.
    + unfold bind, print_color, emit, sys_exit, push. cbn [final].
      repeat split; reflexivity.
  - unfold bind, print_color, emit, sys_exit, push. cbn [final].
    repeat split; reflexivity.
Qed.

(** ** The configuration file, whatever it holds *)

(** Settles one way through [load_config]. *)
Ltac config_cases :=
  unfold bind, ret, set_username, set_repositories, print_color, emit,
    sys_exit, push;
  cbn [final username repositories];
  repeat split; try discriminate; try congruence;
  try (let H := fresh in intros ? ? H; now inversion H).

(** X3.  [load_config] raises nothing: a missing file, a file that cannot
    be read or parsed and a JSON value that cannot be searched for the two
    fields all end the process with exit code 1, the only code it exits
    with.  A JSON value that is not an object never changes the session:
    [load_config] returns with the user name and the repository list as
    they were, or exits. *)
Theorem load_config_failures w path s :
  let o := load_config w path s in
  (forall e s', o <> Uncaught e s')
  /\ (forall code s', o = Exit code s' -> code = 1)
  /\ (path_exists w path = false -> o = Exit 1 (final o))
  /\ (path_exists w path = true ->
      match json_load w path with
      | JsonValue v =>
          is_object v = false ->
          username (final o) = username s
          /\ repositories (final o) = repositories s
      | _ => o = Exit 1 (final o)
      end).
Proof.
  cbv zeta. unfold load_config.
  destruct (path_exists w path); cbn [negb];
    [destruct (json_load w path) as [| |config];
     [| |unfold config_entry, py_in, py_getitem;
         destruct config as [|b|z|f|str|l|items];
         [| | | |destruct (PyStr.contains "username" str),
                   (PyStr.contains "repositories" str)
          |destruct (existsb (is_str "username") l),
                    (existsb (is_str "repositories") l)
          |destruct (dict_get "username" items) as [u|];
           destruct (dict_get "repositories" items) as [r|];
           try destruct (truthy u); try destruct (truthy r)]]|];
    config_cases.
Qed.

(** ** The acting user *)

Lemma inv_bind {A B} (P : state -> Prop) (m : M A) (k : A -> M B) :
  inv P m -> (forall a, inv P (k a)) -> inv P (bind m k).
Proof.
  intros Hm Hk s HP. unfold bind. specialize (Hm s HP).
  destruct (m s) as [a s1|code s1|e s1]; cbn [final] in *; auto.
  now apply Hk.
Qed.

(** What keeps the user name keeps any property of the user name. *)
Lemma inv_user {A} q v (m : M A) :
  sat (frame true q) m -> inv (fun s => username s = v) m.
Proof.
  intros Hm s HP. destruct (Hm s) as [Hu _]. now rewrite (Hu eq_refl).
Qed.

(** A user name that is set is not looked up again. *)
Lemma get_username_known w s :
  truthy (username s) = true ->
  get_username w s = Return tt (push (EPrint (MsgUsingUsername (username s))) s).
Proof.
  intro Ht. unfold get_username, bind, get, ret, print_color, emit.
  now rewrite Ht.
Qed.

Lemma load_config_keeps_user w path s :
  match json_load w path with
  | JsonValue (PDict items) => absent_or_empty "username" items = true
  | _ => True
  end ->
  username (final (load_config w path s)) = username s.
Proof.
  unfold load_config, absent_or_empty.
  destruct (path_exists w path); cbn [negb]; [|reflexivity].
  destruct (json_load w path) as [| |config]; try reflexivity.
  unfold config_entry, py_in, py_getitem.
  destruct config as [|b|z|f|str|l|items]; try reflexivity.
  - now destruct (PyStr.contains "username" str),
               (PyStr.contains "repositories" str).
  - now destruct (existsb (is_str "username") l),
               (existsb (is_str "repositories") l).
  - destruct (dict_get "username" items) as [u|];
      destruct (dict_get "repositories" items) as [r|];
      try destruct (truthy u); try destruct (truthy r);
      intro H; try discriminate H; reflexivity.
Qed.

Lemma config_user_none w a path :
  config_user w a = None ->
  arg_config a = Some path ->
  nonempty path = true ->
  match json_load w path with
  | JsonValue (PDict items) => absent_or_empty "username" items = true
  | _ => True
  end.
Proof.
  unfold config_user, absent_or_empty. intros H Hc Hne. rewrite Hc, Hne in H.
  destruct (json_load w path) as [| |[| | | | | |items]]; auto.
  destruct (dict_get "username" items) as [v|]; [|reflexivity].
  destruct (truthy v); [discriminate | reflexivity].
Qed.

(** With a user name given on the command line and none in the
    configuration file, [main] reaches [batch_delete] under the name of
    the command line. *)
Lemma main_resolve_flag_user w a u :
  arg_username a = Some u ->
  nonempty u = true ->
  config_user w a = None ->
  forall s, username (final (main_resolve w a s)) = PStr u.
Proof.
  intros Hflag Hne Hcfg s.
  unfold main_resolve. rewrite Hflag, Hne.
  unfold bind at 1, set_verbose at 1.
  unfold bind at 1, set_dry_run at 1.
  unfold bind at 1, set_username at 1.
  match goal with
  | |- username (final (?m ?st)) = _ =>
      enough (Hinv : inv (fun s0 => username s0 = PStr u) m)
        by exact (Hinv st eq_refl)
  end.
  unfold print_color, log.
  apply inv_bind; [apply (inv_user is_resolve); sat_auto | intros _].
  apply inv_bind; [apply (inv_user is_resolve); sat_auto | intros _].
  apply inv_bind; [apply (inv_user is_resolve); sat_auto | intros _].
  apply inv_bind; [apply (inv_user is_resolve), check_gh_cli_sat | intros _].
  apply inv_bind; [apply (inv_user is_resolve), check_auth_sat | intros _].
  apply inv_bind.
  { intros s0 Hu. rewrite get_username_known.
    - exact Hu.
    - rewrite Hu. cbn [truthy]. exact Hne. }
  intros _. apply inv_bind.
  { intros s0 Hu. destruct (arg_config a) as [path|] eqn:Hpath; [|exact Hu].
    destruct (nonempty path) eqn:Hp; [|exact Hu].
    rewrite load_config_keeps_user; [exact Hu|].
    now apply (config_user_none w a path). }
  intros u0. apply (inv_user is_resolve). apply after_config_sat. exact u0.
Qed.

(** X4.  Without a user name in the configuration file, the user name
    given with [--username] is the acting one: every run of the client on
    a repository during [main], for validation or for deletion, names
    it. *)
Theorem flag_username_honoured w a s u :
  arg_username a = Some u ->
  nonempty u = true ->
  config_user w a = None ->
  exists suf,
    trace (final (main w a s)) = trace s ++ suf
    /\ Forall (owned_by (PStr u)) suf.
Proof.
  intros Hflag Hne Hcfg.
  pose proof (main_resolve_flag_user w a u Hflag Hne Hcfg s) as Hu.
  destruct (main_resolve_hoare w a s) as [[_ (suf & Htr & Hq)] _].
  assert (Hown : Forall (owned_by (PStr u)) suf)
    by (apply (only_Forall _ _ Hq); apply resolve_owned).
  unfold main, bind.
  destruct (main_resolve w a s) as [[] s1|code s1|e s1]; cbn [final] in *;
    try (exists suf; split; assumption).
  destruct (batch_delete_owned w (arg_auto_confirm a) s1) as (suf2 & Htr2 & Hown2).
  exists (suf ++ suf2). split.
  - now rewrite Htr2, Htr, app_assoc.
  - apply Forall_app. split; [exact Hown|]. now rewrite <- Hu.
Qed.

(** ** The interactive picker *)

Lemma pick_listed repos t r : pick repos t = Some r -> In r repos.
Proof.
  unfold pick. destruct (PyStr.int t) as [num|]; [|discriminate].
  destruct ((1 <=? num) && (num <=? Z.of_nat (List.length repos)));
    [|discriminate].
  apply nth_error_In.
Qed.

Lemma picks_listed repos tokens : incl (picks repos tokens) repos.
Proof.
  unfold picks. intros r Hin. apply in_flat_map in Hin as (t & _ & Ht).
  destruct (pick repos t) as [r'|] eqn:Hp; [|contradiction].
  destruct Ht as [<-|[]]. now apply (pick_listed repos t).
Qed.

(** The picker after the listing, when no line can be read: an
    interruption ends the process with code 0, the end of the input is an
    uncaught [EOFError]. *)
Lemma interactive_selection_from_no_line repos s :
  repos <> [] ->
  match stdin s with
  | Line _ :: _ => True
  | Interrupt :: rest =>
      interactive_selection_from repos s
      = Exit 0 (push (EPrint MsgInterrupted)
                  (read PromptSelection Interrupt (push_all (listing repos) s)))
  | [] =>
      exists s', interactive_selection_from repos s = Uncaught EOFError s'
  end.
Proof.
  intros Hne.
  remember (interactive_selection_from repos s) as o eqn:Ho.
  unfold interactive_selection_from in Ho.
  destruct repos as [|r0 repos']; [contradiction|].
  set (repos := r0 :: repos') in *.
  unfold bind at 1 in Ho. unfold ret at 1 in Ho.
  unfold bind at 1, print_color at 1, emit at 1 in Ho.
  unfold bind at 1 in Ho. rewrite print_items_eq in Ho.
  unfold bind at 1, print_color at 1, emit at 1 in Ho.
  unfold bind at 1, print_color at 1, emit at 1 in Ho.
  unfold bind at 1, print_color at 1, emit at 1 in Ho.
  unfold bind at 1 in Ho.
  match type of Ho with
  | context [input PromptSelection ?st] =>
      assert (Hst : st = push_all (listing repos) s)
  end.
  { unfold listing, push_all, push.
    cbn [username repositories successful_deletions failed_deletions
         verbose dry_run stdin trace].
    rewrite <- !app_assoc. reflexivity. }
  rewrite Hst in Ho. clear Hst.
  unfold input in Ho. cbn [stdin push_all] in Ho.
  destruct (stdin s) as [|[text|] rest] eqn:Hin; subst o; [eauto | exact I |].
  unfold bind, print_color, emit, sys_exit. f_equal. f_equal.
  unfold read. cbn [stdin push_all tl]. now rewrite Hin.
Qed.

(** When the picker goes on after a listing, the repository list of the
    session is a non-empty list of listed names. *)
Lemma selection_from_listed repos s s' :
  interactive_selection_from repos s = Return tt s' ->
  exists chosen,
    repositories s' = PList (map PStr chosen)
    /\ chosen <> []
    /\ incl chosen repos
    /\ username s' = username s.
Proof.
  intro Hret.
  destruct repos as [|r0 repos'].
  { unfold interactive_selection_from, bind, get, print_color, emit, sys_exit
      in Hret. discriminate Hret. }
  assert (Hne : r0 :: repos' <> []) by discriminate.
  pose proof (interactive_selection_from_no_line (r0 :: repos') s Hne) as Hno.
  destruct (stdin s) as [|[text|] rest] eqn:Hin.
  - destruct Hno as [s0 Hno]. rewrite Hno in Hret. discriminate Hret.
  - rewrite (interactive_selection_from_line _ text rest s Hne Hin) in Hret.
    cbv zeta in Hret.
    destruct (String.eqb (PyStr.lower (PyStr.strip text)) "all").
    + inversion Hret; subst s'. exists (r0 :: repos').
      split; [reflexivity|]. split; [discriminate|].
      split; [apply incl_refl | reflexivity].
    + destruct (picks (r0 :: repos') (PyStr.split (PyStr.strip text)))
        as [|c more] eqn:Hp; [discriminate Hret|].
      inversion Hret; subst s'. exists (c :: more).
      split; [reflexivity|]. split; [discriminate|].
      split; [|reflexivity].
      rewrite <- Hp. apply picks_listed.
  - rewrite Hno in Hret. discriminate Hret.
Qed.

Lemma bind_return {A B} (m : M A) (k : A -> M B) s b s' :
  bind m k s = Return b s' ->
  exists a s1, m s = Return a s1 /\ k a s1 = Return b s'.
Proof.
  unfold bind. destruct (m s) as [a s1|code s1|e s1]; try discriminate.
  intro H. now exists a, s1.
Qed.

(** [list_repositories] for a session whose user name is a string. *)
Lemma list_repositories_eq w s user :
  username s = PStr user ->
  let s1 := push (EPrint MsgFetching) s in
  let c := GhRepoList user in
  list_repositories w s
  = match gh w (trace s1) c with
    | GhDone true stdout =>
        Return (listed_names stdout) (push (EGh c (GhDone true stdout)) s1)
    | GhDone false stdout => Return [] (push (EGh c (GhDone false stdout)) s1)
    | GhRaised e => Uncaught e (push (EGh c (GhRaised e)) s1)
    end.
Proof.
  intro Hu. cbv zeta. unfold list_repositories, run, print_color.
  unfold bind, get, emit, ret, raise.
  change (username (push (EPrint MsgFetching) s)) with (username s).
  rewrite Hu.
  destruct (gh w _ (GhRepoList user)) as [[|] stdout|]; reflexivity.
Qed.

Lemma list_repositories_typed w s names s' :
  list_repositories w s = Return names s' ->
  exists user, username s = PStr user.
Proof.
  unfold list_repositories, run, print_color.
  unfold bind, get, emit, ret, raise. cbn [username trace push].
  destruct (username s); try discriminate. eauto.
Qed.

(** When [interactive_selection] returns, the client has listed the
    repositories and the session holds a selection among them. *)
Lemma picker_returns w s s' :
  interactive_selection w s = Return tt s' ->
  exists user stdout chosen,
    username s = PStr user
    /\ In (EGh (GhRepoList user) (GhDone true stdout)) (trace s')
    /\ repositories s' = PList (map PStr chosen)
    /\ chosen <> []
    /\ incl chosen (listed_names stdout)
    /\ username s' = username s.
Proof.
  intro Hret. unfold interactive_selection, print_color in Hret.
  apply bind_return in Hret as ([] & s1 & H1 & Hret).
  apply bind_return in Hret as ([] & s2 & H2 & Hret).
  apply bind_return in Hret as (names & s3 & H3 & Hret).
  inversion H1; subst s1; clear H1. inversion H2; subst s2; clear H2.
  destruct (list_repositories_typed _ _ _ _ H3) as [user Hu].
  rewrite (list_repositories_eq w _ user Hu) in H3. cbv zeta in H3.
  destruct (selection_from_listed names s3 s' Hret)
    as (chosen & Hrepos & Hne & Hincl & Huser).
  destruct (interactive_selection_from_hoare true names s3)
    as [[_ (suf & Htr & _)] _].
  rewrite Hret in Htr. cbn [final] in Htr.
  destruct (gh w _ (GhRepoList user)) as [[|] stdout|];
    inversion H3; subst names s3; clear H3.
  - exists user, stdout, chosen. fields. cbn [username] in Hu.
    split; [exact Hu|].
    split.
    { rewrite Htr. fields. apply in_or_app. left. apply in_or_app. right.
      now left. }
    split; [exact Hrepos|]. split; [exact Hne|]. split; [exact Hincl|].
    rewrite Huser. reflexivity.
  - destruct chosen as [|c more]; [contradiction|].
    specialize (Hincl c (or_introl eq_refl)). contradiction.
Qed.

(** X6.  A listing that fails is taken for an empty one: when the client
    answers [gh repo list] with a failure, or lists nothing,
    [interactive_selection] ends the process with exit code 0, not with
    an error; nothing is read from standard input and the session is as
    it was. *)
Theorem interactive_selection_nothing_listed w s user :
  username s = PStr user ->
  nothing_listed (gh w (at_listing s) (GhRepoList user)) ->
  let o := interactive_selection w s in
  o = Exit 0 (final o)
  /\ same_fields s (final o)
  /\ filter is_input (trace (final o)) = filter is_input (trace s).
Proof.
  intros Hu Hnone. cbv zeta.
  remember (interactive_selection w s) as o eqn:Ho.
  unfold interactive_selection, print_color in Ho.
  unfold bind at 1, emit at 1 in Ho. unfold bind at 1, emit at 1 in Ho.
  unfold bind at 1 in Ho.
  rewrite (list_repositories_eq w
             (push (EPrint MsgAvailable) (push (EPrint MsgInteractiveSelection) s))
             user Hu) in Ho.
  cbv zeta in Ho.
  change (trace (push (EPrint MsgFetching)
                   (push (EPrint MsgAvailable)
                      (push (EPrint MsgInteractiveSelection) s))))
    with (((trace s ++ [EPrint MsgInteractiveSelection]) ++ [EPrint MsgAvailable])
          ++ [EPrint MsgFetching]) in Ho.
  rewrite <- !app_assoc in Ho. cbn [app] in Ho. fold (at_listing s) in Ho.
  destruct (gh w (at_listing s) (GhRepoList user)) as [[|] stdout|];
    cbn [nothing_listed] in Hnone; [rewrite Hnone in Ho | | contradiction];
    unfold interactive_selection_from, bind, get, print_color, emit, sys_exit
      in Ho;
    subst o; fields; rewrite !filter_app; cbn [filter is_input];
    rewrite !app_nil_r; repeat split; reflexivity.
Qed.

(** X5.  Whatever is typed, the picker selects among the listed
    repositories only: when [interactive_selection] returns, the client
    has answered [gh repo list] with success, and the repository list of
    the session is a non-empty list of names from that answer, each of
    them a clean name; the user of the session is the same. *)
Theorem interactive_selection_listed w s s' :
  interactive_selection w s = Return tt s' ->
  exists user stdout chosen,
    username s = PStr user
    /\ In (EGh (GhRepoList user) (GhDone true stdout)) (trace s')
    /\ repositories s' = PList (map PStr chosen)
    /\ chosen <> []
    /\ incl chosen (listed_names stdout)
    /\ Forall clean_name chosen
    /\ username s' = username s.
Proof.
  intro Hret.
  destruct (picker_returns w s s' Hret)
    as (user & stdout & chosen & Hu & Hin & Hrepos & Hne & Hincl & Huser).
  exists user, stdout, chosen.
  repeat (split; [assumption|]). split; [|assumption].
  apply Forall_forall. intros name Hname. apply Hincl in Hname.
  pose proof (listed_names_clean stdout) as Hclean.
  now apply (proj1 (Forall_forall _ _) Hclean) in Hname as [Hc _].
Qed.

(** ** Where the repository list comes from *)

Lemma truthy_names (l : list string) : l <> [] -> truthy (PList (map PStr l)) = true.
Proof. destruct l; [contradiction | reflexivity]. Qed.

Lemma truthy_list (l : list pyval) : l <> [] -> truthy (PList l) = true.
Proof. destruct l; [contradiction | reflexivity]. Qed.

(** Lines 376-383 of [main] when nothing asks for the picker. *)
Lemma selection_skipped w a s :
  arg_interactive a = false ->
  truthy (repositories s) = true ->
  (r <- get repositories ;;
   (if arg_interactive a || negb (truthy r) then interactive_selection w
    else ret tt) ;;;
   r <- get repositories ;;
   if negb (truthy r) then
     print_color MsgNoRepositoriesSpecified ;;;
     emit EPrintHelp ;;;
     sys_exit 0
   else ret tt) s
  = Return tt s.
Proof.
  intros Hi Ht. unfold bind at 1, get at 1. rewrite Hi, Ht. cbn [orb negb].
  unfold bind, get, ret. now rewrite Ht.
Qed.

(** Lines 376-383 of [main] when the picker runs and returns. *)
Lemma selection_made w a s s' :
  arg_interactive a = true ->
  (r <- get repositories ;;
   (if arg_interactive a || negb (truthy r) then interactive_selection w
    else ret tt) ;;;
   r <- get repositories ;;
   if negb (truthy r) then
     print_color MsgNoRepositoriesSpecified ;;;
     emit EPrintHelp ;;;
     sys_exit 0
   else ret tt) s
  = Return tt s' ->
  interactive_selection w s = Return tt s'.
Proof.
  intros Hi Hret. unfold bind at 1, get at 1 in Hret. rewrite Hi in Hret.
  cbn [orb] in Hret.
  apply bind_return in Hret as ([] & s1 & Hsel & Hret).
  unfold bind, get, ret, print_color, emit, sys_exit in Hret.
  destruct (truthy (repositories s1)); cbn [negb] in Hret;
    [|discriminate Hret].
  now inversion Hret; subst.
Qed.

(** Lines 373-374 of [main] on a session whose repositories are a list. *)
Lemma extend_list (more : list string) (l : list pyval) s :
  repositories s = PList l ->
  exists s',
    (match more with
     | [] => ret tt
     | m :: rest => extend (m :: rest)
     end) s = Return tt s'
    /\ repositories s' = PList (l ++ map PStr more)
    /\ username s' = username s
    /\ trace s' = trace s.
Proof.
  intro Hr. destruct more as [|m more].
  - exists s. cbn [map]. rewrite app_nil_r. repeat split; assumption.
  - unfold extend, bind, get, set_repositories. rewrite Hr.
    eexists. split; [reflexivity|]. cbn [repositories username trace].
    repeat split; reflexivity.
Qed.

(** Peels the first step off a sequence that returned. *)
Ltac peel H :=
  let a := fresh "a" in
  let s := fresh "s" in
  let Hstep := fresh "Hstep" in
  apply bind_return in H as (a & s & Hstep & H).

Lemma load_from_file_returns w path s u s' :
  load_from_file w path s = Return u s' ->
  exists lines,
    path_exists w path = true
    /\ read_lines w path = Some lines
    /\ repositories s' = PList (map PStr (file_names lines)).
Proof.
  unfold load_from_file, file_names.
  destruct (path_exists w path); cbn [negb];
    [|unfold bind, print_color, emit, sys_exit; discriminate].
  destruct (read_lines w path) as [lines|];
    unfold bind, print_color, emit, sys_exit, set_repositories;
    [|discriminate].
  intro H. inversion H; subst. exists lines. repeat split; reflexivity.
Qed.

Lemma load_config_returns_list w path s items l u s' :
  json_load w path = JsonValue (PDict items) ->
  dict_get "repositories" items = Some (PList l) ->
  l <> [] ->
  load_config w path s = Return u s' ->
  repositories s' = PList l.
Proof.
  intros Hjson Hget Hne. unfold load_config.
  destruct (path_exists w path); cbn [negb];
    [|unfold bind, print_color, emit, sys_exit; discriminate].
  rewrite Hjson. unfold config_entry, py_in, py_getitem. rewrite Hget.
  rewrite (truthy_list l Hne).
  destruct (dict_get "username" items) as [v|]; [destruct (truthy v)|];
    unfold bind, ret, set_username, set_repositories, print_color, emit, push;
    cbn [repositories]; intro Hret; inversion Hret; reflexivity.
Qed.

(** X7.  With [--file] and without [--interactive], a run of [main] that
    reaches the batch has read the file, and its candidates are the names
    of the file followed by the positional arguments, whenever there is
    one at all: the list of a configuration file is replaced, the
    arguments are appended. *)
Theorem file_then_arguments w a s s' path :
  arg_file a = Some path ->
  nonempty path = true ->
  arg_interactive a = false ->
  main_resolve w a s = Return tt s' ->
  exists lines,
    path_exists w path = true
    /\ read_lines w path = Some lines
    /\ (file_names lines ++ arg_repositories a <> [] ->
        repositories s'
        = PList (map PStr (file_names lines ++ arg_repositories a))).
Proof.
  intros Hf Hne Hi Hret. unfold main_resolve in Hret.
  do 10 peel Hret. rewrite Hf, Hne in Hret. peel Hret.
  match goal with
  | H : load_from_file _ _ _ = Return _ _ |- _ =>
      apply load_from_file_returns in H as (lines & Hex & Hread & Hrepos)
  end.
  exists lines. split; [exact Hex|]. split; [exact Hread|]. intro Hsome.
  destruct (extend_list (arg_repositories a) _ _ Hrepos)
    as (sx & Hext & Hr2 & _).
  unfold bind at 1 in Hret. rewrite Hext in Hret.
  rewrite <- map_app in Hr2.
  rewrite selection_skipped in Hret;
    [|exact Hi | rewrite Hr2; now apply truthy_names].
  inversion Hret; subst. exact Hr2.
Qed.

(** X8.  With [--config], without [--file] and without [--interactive],
    a run of [main] that reaches the batch on a configuration whose
    [repositories] entry is a non-empty list has that list followed by
    the positional arguments as candidates. *)
Theorem config_then_arguments w a s s' path items l :
  arg_config a = Some path ->
  nonempty path = true ->
  arg_file a = None ->
  arg_interactive a = false ->
  json_load w path = JsonValue (PDict items) ->
  dict_get "repositories" items = Some (PList l) ->
  l <> [] ->
  main_resolve w a s = Return tt s' ->
  repositories s' = PList (l ++ map PStr (arg_repositories a)).
Proof.
  intros Hc Hne Hf Hi Hjson Hget Hl Hret. unfold main_resolve in Hret.
  do 9 peel Hret. rewrite Hc, Hne, Hf in Hret. peel Hret.
  match goal with
  | H : load_config _ _ _ = Return _ _ |- _ =>
      apply (load_config_returns_list _ _ _ _ _ _ _ Hjson Hget Hl) in H
        as Hrepos
  end.
  unfold bind at 1, ret at 1 in Hret.
  destruct (extend_list (arg_repositories a) _ _ Hrepos)
    as (sx & Hext & Hr2 & _).
  unfold bind at 1 in Hret. rewrite Hext in Hret.
  rewrite selection_skipped in Hret; [|exact Hi|].
  - inversion Hret; subst. exact Hr2.
  - rewrite Hr2. apply truthy_list. intro Hnil.
    apply app_eq_nil in Hnil as [Hnil _]. contradiction.
Qed.

(** X9.  With [--interactive] the picker has the last word: a run of
    [main] that reaches the batch has asked the client for the list of
    repositories, and its candidates are a non-empty selection among the
    listed names, whatever the configuration file, the list file and the
    positional arguments held. *)
Theorem interactive_replaces_list w a s s' :
  arg_interactive a = true ->
  main_resolve w a s = Return tt s' ->
  exists user stdout chosen,
    In (EGh (GhRepoList user) (GhDone true stdout)) (trace s')
    /\ repositories s' = PList (map PStr chosen)
    /\ chosen <> []
    /\ incl chosen (listed_names stdout).
Proof.
  intros Hi Hret. unfold main_resolve in Hret.
  do 12 peel Hret.
  apply (selection_made w a _ _ Hi) in Hret.
  destruct (picker_returns w _ _ Hret)
    as (user & stdout & chosen & _ & Hin & Hrepos & Hne & Hincl & _).
  now exists user, stdout, chosen.
Qed.

(** ** The checks come first *)

Lemma answered_lasting c : lasting (answered c).
Proof.
  intros tr1 tr2 [[out H]|[out H]]; exists out; apply in_or_app; auto.
Qed.

Lemma auth_passed_lasting : lasting auth_passed.
Proof.
  intros tr1 tr2 [(Hs & Hp & Hv)|(Hs & Hp & Hv)].
  - split; [apply answered_lasting; auto|]. split.
    + destruct Hp as [Hp|Hp]; [left|right]; apply answered_lasting; auto.
    + apply in_or_app; auto.
  - split; [apply answered_lasting; auto|]. split.
    + destruct Hp as [Hp|Hp]; [left|right]; apply answered_lasting; auto.
    + apply in_or_app; auto.
Qed.

Lemma checks_passed_lasting : lasting checks_passed.
Proof.
  intros tr1 tr2 [[Hv Ha]|[Hv Ha]];
    (split; [apply answered_lasting | apply auth_passed_lasting]); auto.
Qed.

Lemma sat_grows {A} keep q (m : M A) : sat (frame keep q) m -> grows m.
Proof. intros H s. destruct (H s) as [_ (suf & Htr & _)]. now exists suf. Qed.

Lemma sat_checking {A} keep (m : M A) :
  sat (frame keep is_check) m -> checking (fun _ => True) m.
Proof.
  intros H s. destruct (H s) as [_ (suf & Htr & Hq)]. now exists suf.
Qed.

Lemma guarded_skip {A B} P (m : M A) (k : A -> M B) :
  sat (frame false is_check) m -> lasting P ->
  (forall a, guarded P (k a)) -> guarded P (bind m k).
Proof.
  intros Hm HP Hk s. destruct (Hm s) as [_ (chk1 & Htr1 & Hq1)].
  unfold bind. destruct (m s) as [a s1|code s1|e s1]; cbn [final] in *.
  - destruct (Hk a s1) as (chk2 & rest & Htr2 & Hq2 & Hend).
    exists (chk1 ++ chk2), rest. split; [|split].
    + now rewrite Htr2, Htr1, <- !app_assoc.
    + now rewrite forallb_app, Hq1, Hq2.
    + destruct Hend as [Hend|Hend]; [left; apply HP|]; auto.
  - exists chk1, []. rewrite app_nil_r. auto.
  - exists chk1, []. rewrite app_nil_r. auto.
Qed.

Lemma guarded_bind {A B} (P1 P2 : list event -> Prop) (m : M A) (k : A -> M B) :
  checking P1 m -> lasting P1 -> lasting P2 ->
  (forall a, guarded P2 (k a)) ->
  guarded (fun tr => P1 tr /\ P2 tr) (bind m k).
Proof.
  intros Hm HP1 HP2 Hk s. destruct (Hm s) as (chk1 & Htr1 & Hq1 & Hret).
  unfold bind. destruct (m s) as [a s1|code s1|e s1]; cbn [final] in *.
  - destruct (Hk a s1) as (chk2 & rest & Htr2 & Hq2 & Hend).
    exists (chk1 ++ chk2), rest. split; [|split].
    + now rewrite Htr2, Htr1, <- !app_assoc.
    + now rewrite forallb_app, Hq1, Hq2.
    + destruct Hend as [Hend|Hend]; [left|auto].
      split; [apply HP1; left; now apply Hret | apply HP2; auto].
  - exists chk1, []. rewrite app_nil_r. auto.
  - exists chk1, []. rewrite app_nil_r. auto.
Qed.

Lemma guarded_last {A B} P (m : M A) (k : A -> M B) :
  checking P m -> (forall a, grows (k a)) -> guarded P (bind m k).
Proof.
  intros Hm Hk s. destruct (Hm s) as (chk & Htr & Hq & Hret).
  unfold bind. destruct (m s) as [a s1|code s1|e s1]; cbn [final] in *.
  - destruct (Hk a s1) as (rest & Htr2).
    exists chk, rest. split; [|split]; auto.
    now rewrite Htr2, Htr, <- app_assoc.
  - exists chk, []. rewrite app_nil_r. auto.
  - exists chk, []. rewrite app_nil_r. auto.
Qed.

Lemma guarded_grow {A B} P (m : M A) (k : A -> M B) :
  guarded P m -> (forall a, grows (k a)) -> guarded P (bind m k).
Proof.
  intros Hm Hk s. destruct (Hm s) as (chk & rest & Htr & Hq & Hend).
  unfold bind. destruct (m s) as [a s1|code s1|e s1]; cbn [final] in *.
  - destruct (Hk a s1) as (more & Htr2).
    exists chk, (rest ++ more). split; [|split]; auto.
    + now rewrite Htr2, Htr, <- !app_assoc.
    + destruct Hend as [Hend|[_ Hend]]; [auto | discriminate Hend].
  - now exists chk, rest.
  - now exists chk, rest.
Qed.

Lemma check_gh_cli_checking w : checking (answered GhVersion) (check_gh_cli w).
Proof.
  intro s. unfold check_gh_cli, run, print_color.
  unfold bind, get, emit, ret, raise, sys_exit.
  destruct (gh w (trace s) GhVersion) as [[|] out|e]; [| |destruct e]; fields;
    rewrite <- ?app_assoc; cbn [app];
    eexists; (split; [reflexivity|]); (split; [reflexivity|]);
    cbn [returned]; intro H; try discriminate H.
  exists out. now left.
Qed.

Lemma check_auth_checking w : checking auth_passed (check_auth w).
Proof.
  intro s. unfold check_auth, run_check, run, print_color.
  unfold bind, get, emit, ret, raise, sys_exit.
  destruct (gh w _ GhAuthStatus) as [[|] o1|];
    [destruct (gh w _ GhApiUserSilent) as [[|] o2|];
       [|destruct (gh w _ GhAuthRefresh) as [[|] o3|]|]| |];
    fields; rewrite <- ?app_assoc; cbn [app];
    eexists; (split; [reflexivity|]); (split; [reflexivity|]);
    cbn [returned]; intro H; try discriminate H;
    unfold auth_passed, answered; cbn [In].
  - split; [exists o1; auto|]. split; [left; exists o2; auto | auto 6].
  - split; [exists o1; auto|]. split; [right; exists o3; auto 6 | auto 8].
Qed.

(** Up to the end of [check_auth], [main] only checks. *)
Lemma main_resolve_guarded w a : guarded checks_passed (main_resolve w a).
Proof.
  unfold main_resolve, print_color, log.
  apply guarded_skip; [sat_auto | apply checks_passed_lasting | intros _].
  apply guarded_skip; [sat_auto | apply checks_passed_lasting | intros _].
  apply guarded_skip; [|apply checks_passed_lasting | intros _].
  { destruct (arg_username a) as [u|]; [destruct (nonempty u)|]; sat_auto. }
  apply guarded_skip; [sat_auto | apply checks_passed_lasting | intros _].
  apply guarded_skip; [sat_auto | apply checks_passed_lasting | intros _].
  apply guarded_skip; [sat_auto | apply checks_passed_lasting | intros _].
  apply (guarded_bind (answered GhVersion) auth_passed);
    [apply check_gh_cli_checking | apply answered_lasting
    | apply auth_passed_lasting | intros _].
  apply guarded_last; [apply check_auth_checking | intros _].
  apply (sat_grows false is_resolve).
  apply sat_bind; [apply get_username_sat | intros _].
  apply sat_bind.
  { destruct (arg_config a) as [path|]; [destruct (nonempty path)|];
      first [apply load_config_sat | apply sat_ret]. }
  intros u s. apply (frame_weaken true). now apply after_config_sat.
Qed.

(** What precedes a command on the account holds every check. *)
Lemma checks_before chk : forall rest pre e post,
  forallb is_check chk = true ->
  chk ++ rest = pre ++ e :: post ->
  is_account_command e = true ->
  exists mid, pre = chk ++ mid.
Proof.
  induction chk as [|c chk IH]; intros rest pre e post Hq Heq He.
  - now exists pre.
  - cbn [forallb] in Hq. apply andb_true_iff in Hq as [Hc Hq].
    destruct pre as [|p pre]; cbn [app] in Heq; injection Heq as Hhd Htl.
    + subst c. unfold is_check in Hc. rewrite He in Hc. discriminate Hc.
    + subst p. destruct (IH rest pre e post Hq Htl He) as (mid & Hmid).
      exists mid. now rewrite Hmid.
Qed.

(** X10.  [main] touches nothing of the account before its checks have
    passed: whenever it looks up the login, or lists, views or deletes a
    repository, the client has before that, in this run, answered
    [gh --version] and [gh auth status] with success, granted the scope
    (at the silent user query or at the refresh), and the line
    Authentication verified was printed. *)
Theorem commands_after_checks w a s pre e post :
  trace (final (main w a s)) = trace s ++ pre ++ e :: post ->
  is_account_command e = true ->
  checks_passed pre.
Proof.
  intros Htr He.
  assert (Hmain : guarded checks_passed (main w a)).
  { unfold main. apply guarded_grow; [apply main_resolve_guarded|].
    intros _ s1. destruct (batch_delete_owned w (arg_auto_confirm a) s1)
      as (suf & Hsuf & _). now exists suf. }
  destruct (Hmain s) as (chk & rest & Htr' & Hq & Hend).
  rewrite Htr in Htr'. apply app_inv_head in Htr'. symmetry in Htr'.
  destruct (checks_before chk rest pre e post Hq Htr' He) as (mid & Hmid).
  destruct Hend as [Hend|[Hnil _]].
  - rewrite Hmid. apply checks_passed_lasting. now left.
  - subst rest. rewrite app_nil_r in Htr'.
    assert (Hin : In e chk) by (rewrite Htr'; apply in_elt).
    apply (proj1 (forallb_forall _ _) Hq) in Hin.
    unfold is_check in Hin. rewrite He in Hin. discriminate Hin.
Qed.

(** ** The shape of a batch *)

Ltac sat_more :=
  repeat first [sat_step | apply sat_same; intro; split; reflexivity].

Section Shape.

Variable w : world.
Variable auto_confirm : bool.
Variables P R : list event -> Prop.

Hypothesis P_nil : P [].
Hypothesis P_app : forall a b, P a -> P b -> P (a ++ b).
Hypothesis R_P : forall a, P a -> R a.
Hypothesis R_app : forall a b, P a -> R b -> R (a ++ b).
Hypothesis P_aside : forall e, is_aside auto_confirm e = true -> P [e].
Hypothesis P_progress : forall i n, P [EPrint (MsgProgress i n)].
Hypothesis P_call : forall repo s, exists suf,
  trace (final (delete_repository w repo s)) = trace s ++ suf
  /\ R suf
  /\ (returned (delete_repository w repo s) = true -> P (suf ++ [ESleep])).

Lemma aside_all suf : forallb (is_aside auto_confirm) suf = true -> P suf.
Proof.
  induction suf as [|e suf IH]; [intros _; exact P_nil|].
  cbn [forallb]. intro H. apply andb_true_iff in H as [He Hsuf].
  apply (P_app [e] suf); auto.
Qed.

Lemma sat_adds {A} keep (m : M A) :
  sat (frame keep (is_aside auto_confirm)) m -> adds P R m.
Proof.
  intros H s. destruct (H s) as [_ (suf & Htr & Hq)].
  exists suf. split; [exact Htr|]. apply aside_all in Hq. auto.
Qed.

Lemma adds_bind {A B} (m : M A) (k : A -> M B) :
  adds P R m -> (forall a, adds P R (k a)) -> adds P R (bind m k).
Proof.
  intros Hm Hk s. destruct (Hm s) as (suf1 & Htr1 & HR1 & HP1).
  unfold bind. destruct (m s) as [a s1|code s1|e s1]; cbn [final returned] in *.
  - destruct (Hk a s1) as (suf2 & Htr2 & HR2 & HP2).
    exists (suf1 ++ suf2). split; [|split].
    + now rewrite Htr2, Htr1, app_assoc.
    + apply R_app; auto.
    + intro Hret. apply P_app; auto.
  - exists suf1. auto.
  - exists suf1. auto.
Qed.

Lemma adds_emit e : P [e] -> adds P R (emit e).
Proof.
  intros He s. exists [e]. cbn [emit final returned]. fields. auto.
Qed.

Lemma validation_pass_aside repos : forall valid_repos,
  sat (frame true (is_aside auto_confirm)) (validation_pass w repos valid_repos).
Proof.
  induction repos as [|repo rest IH]; intro valid_repos;
    cbn [validation_pass]; [apply sat_ret|].
  unfold validate_repository, run_check, print_color.
  apply sat_bind; [sat_more | intros [|]]; [apply IH|].
  apply sat_bind; [sat_more | intro u].
  apply sat_bind; [sat_more | intros _].
  apply sat_bind; [sat_more | intro f].
  apply sat_bind; [sat_more | intros _]. apply IH.
Qed.

Lemma print_list_aside repos :
  sat (frame true (is_aside auto_confirm)) (print_list repos).
Proof.
  induction repos as [|repo rest IH]; cbn [print_list]; [apply sat_ret|].
  unfold print_color.
  apply sat_bind; [sat_more | intro u].
  apply sat_bind; [sat_more | intros _]. exact IH.
Qed.

Lemma confirmation_aside valid_repos :
  auto_confirm = false ->
  sat (frame true (is_aside auto_confirm)) (confirmation valid_repos).
Proof.
  intro Hac. rewrite Hac. unfold confirmation, print_color.
  apply sat_bind; [sat_more | intros _].
  apply sat_bind; [rewrite <- Hac; apply print_list_aside | intros _].
  sat_more.
Qed.

Lemma summary_aside : sat (frame true (is_aside auto_confirm)) (summary).
Proof. unfold summary, print_color, log. sat_more. Qed.

(** Counting the outcome of a call and pausing, lines 290-295. *)
Lemma count_and_sleep (ok : bool) (k : M unit) s :
  exists s1,
    trace s1 = trace s
    /\ ((if ok then
           k0 <- get successful_deletions ;;
           set_successful_deletions (k0 + 1)
         else
           f <- get failed_deletions ;;
           set_failed_deletions (f + 1)) ;;;
        sleep ;;;
        k) s
       = k (push ESleep s1).
Proof.
  destruct ok; unfold bind, get, set_successful_deletions,
    set_failed_deletions, sleep, emit; eexists; (split; [|reflexivity]);
    reflexivity.
Qed.

Lemma deletion_pass_adds valid_repos : forall i n,
  adds P R (deletion_pass w i n valid_repos).
Proof.
  induction valid_repos as [|repo rest IH]; intros i n; cbn [deletion_pass].
  - apply (sat_adds true), sat_ret.
  - apply adds_bind; [apply adds_emit, P_progress | intros _].
    intro s.
    match goal with
    | |- context [final (?m s)] => remember (m s) as o eqn:Ho
    end.
    unfold bind at 1 in Ho.
    destruct (P_call repo s) as (suf & Htr & HR & HP).
    destruct (delete_repository w repo s) as [ok s1|code s1|e s1];
      cbn [final returned] in *;
      try (subst o; cbn [final returned]; exists suf; now auto).
    destruct (count_and_sleep ok (deletion_pass w (i + 1) n rest) s1)
      as (s2 & Htr2 & Heq).
    rewrite Heq in Ho. subst o.
    destruct (IH (i + 1) n (push ESleep s2)) as (suf3 & Htr3 & HR3 & HP3).
    exists ((suf ++ [ESleep]) ++ suf3). split; [|split].
    + rewrite Htr3. fields. rewrite Htr2, Htr. now rewrite <- !app_assoc.
    + apply R_app; auto.
    + intro Hret. apply P_app; auto.
Qed.

Lemma batch_delete_adds : adds P R (batch_delete w auto_confirm).
Proof.
  unfold batch_delete, print_color.
  apply adds_bind; [apply (sat_adds true); sat_more | intro repos].
  destruct (py_len repos) as [total|], (py_iter repos) as [candidates|];
    try (apply (sat_adds true), sat_raise).
  apply adds_bind; [apply (sat_adds true); sat_more | intros _].
  apply adds_bind; [apply (sat_adds true); sat_more | intros _].
  apply adds_bind; [apply (sat_adds true); sat_more | intros _].
  apply adds_bind; [apply (sat_adds true); sat_more | intros _].
  apply adds_bind; [apply (sat_adds true); sat_more | intros _].
  apply adds_bind;
    [apply (sat_adds true), validation_pass_aside | intro valid_repos].
  apply adds_bind; [apply (sat_adds true); sat_more | intros _].
  apply adds_bind.
  { apply (sat_adds true).
    assert (Hac : auto_confirm = true \/ auto_confirm = false)
      by (destruct auto_confirm; auto).
    destruct Hac as [Hac|Hac]; rewrite Hac at 2; cbn [negb];
      [apply sat_ret | now apply confirmation_aside]. }
  intros _.
  apply adds_bind; [apply (sat_adds true); sat_more | intros _].
  apply adds_bind; [apply (sat_adds true); sat_more | intros _].
  apply adds_bind; [apply deletion_pass_adds | intros _].
  apply (sat_adds true), summary_aside.
Qed.

End Shape.

Lemma forallb_app_true (q : event -> bool) a b :
  forallb q a = true -> forallb q b = true -> forallb q (a ++ b) = true.
Proof. intros Ha Hb. now rewrite forallb_app, Ha, Hb. Qed.

(** X11.  With [--auto-confirm] the batch asks nothing: no run of
    [batch_delete] reads the standard input, whatever becomes of it. *)
Theorem auto_confirm_reads_nothing w s :
  exists suf,
    trace (final (batch_delete w true s)) = trace s ++ suf
    /\ forallb no_input suf = true.
Proof.
  assert (H : adds (fun tr => forallb no_input tr = true)
                   (fun tr => forallb no_input tr = true)
                   (batch_delete w true));
    [|destruct (H s) as (suf & Htr & Hq & _); now exists suf].
  clear s. apply batch_delete_adds.
  - reflexivity.
  - apply forallb_app_true.
  - auto.
  - apply forallb_app_true.
  - intro e. event_cases e.
  - reflexivity.
  - intros repo s. rewrite delete_repository_eq. cbv zeta.
    destruct (dry_run s); [|destruct (verbose s);
      match goal with
      | |- context [gh w ?t ?c] => destruct (gh w t c) as [[|] out|]
      end]; fields; rewrite <- ?app_assoc; cbn [app];
      eexists; (split; [reflexivity|]); split; try intros _; reflexivity.
Qed.

Lemma paced_app tr1 : forall owed tr2,
  paced owed (tr1 ++ tr2)
  = match paced owed tr1 with
    | Some owed' => paced owed' tr2
    | None => None
    end.
Proof.
  induction tr1 as [|e tr1 IH]; intros owed tr2; cbn [app paced];
    [reflexivity|].
  destruct (pace owed e); [apply IH | reflexivity].
Qed.

(** X12.  The deletion pass is paced: in every run of [batch_delete], a
    call of [delete_repository] is followed by a pause before the next
    call, there is no pause without a call, and a batch that runs to its
    end has paused after its last call too. *)
Theorem deletions_are_paced w auto_confirm s :
  exists suf owed,
    trace (final (batch_delete w auto_confirm s)) = trace s ++ suf
    /\ paced false suf = Some owed
    /\ (returned (batch_delete w auto_confirm s) = true -> owed = false).
Proof.
  assert (H : adds (fun tr => paced false tr = Some false)
                   (fun tr => exists owed, paced false tr = Some owed)
                   (batch_delete w auto_confirm)).
  { clear s. apply batch_delete_adds.
  - reflexivity.
  - intros a b Ha Hb. now rewrite paced_app, Ha.
  - intros a Ha. now exists false.
  - intros a b Ha [owed Hb]. exists owed. now rewrite paced_app, Ha.
  - intro e. event_cases e.
  - reflexivity.
  - intros repo s. rewrite delete_repository_eq. cbv zeta.
    destruct (dry_run s); [|destruct (verbose s);
      match goal with
      | |- context [gh w ?t ?c] => destruct (gh w t c) as [[|] out|]
      end]; fields; rewrite <- ?app_assoc; cbn [app];
      eexists; (split; [reflexivity|]); cbn [returned]; split;
      try (eexists; reflexivity); try discriminate; intros _; reflexivity. }
  destruct (H s) as (suf & Htr & [owed Hp] & Hret).
  exists suf, owed. split; [exact Htr|]. split; [exact Hp|].
  intro Hr. specialize (Hret Hr). congruence.
Qed.

(** X13.  The log file and the screen tell what the client answered: in
    every run of [batch_delete], the SUCCESS and FAILED lines of the log,
    and likewise the notices of success and of failure on the screen,
    are, in order, the answers of the client to [gh repo delete] with
    the same user and repository, SUCCESS for a return code 0 and FAILED
    for any other. *)
Theorem log_tells_the_answers w auto_confirm s :
  exists suf,
    trace (final (batch_delete w auto_confirm s)) = trace s ++ suf
    /\ flat_map log_of suf = flat_map answer_of suf
    /\ flat_map notice_of suf = flat_map answer_of suf.
Proof.
  assert (H : adds (fun tr => flat_map log_of tr = flat_map answer_of tr
                              /\ flat_map notice_of tr = flat_map answer_of tr)
                   (fun tr => flat_map log_of tr = flat_map answer_of tr
                              /\ flat_map notice_of tr = flat_map answer_of tr)
                   (batch_delete w auto_confirm));
    [|destruct (H s) as (suf & Htr & Hq & _); now exists suf].
  clear s. apply batch_delete_adds.
  - split; reflexivity.
  - intros a b [Ha1 Ha2] [Hb1 Hb2]. rewrite !flat_map_app. split; congruence.
  - auto.
  - intros a b [Ha1 Ha2] [Hb1 Hb2]. rewrite !flat_map_app. split; congruence.
  - intro e. event_cases e.
  - split; reflexivity.
  - intros repo s. rewrite delete_repository_eq. cbv zeta.
    destruct (dry_run s); [|destruct (verbose s);
      match goal with
      | |- context [gh w ?t ?c] => destruct (gh w t c) as [[|] out|]
      end]; fields; rewrite <- ?app_assoc; cbn [app];
      eexists; (split; [reflexivity|]); cbn [returned]; split;
      try discriminate; try intros _; split; reflexivity.
Qed.

(** ** How a run can end *)

Section Safe.

Variable w : world.
Variable a : args.
Variable I : state -> Prop.
Variable C : Z -> Prop.
Variable E : exn -> Prop.

Hypothesis I_frame : forall s s',
  I s -> username s' = username s -> repositories s' = repositories s -> I s'.
Hypothesis I_user : forall s s' u,
  I s -> username s' = PStr u -> repositories s' = repositories s -> I s'.
Hypothesis I_repos : forall s s' l,
  I s -> username s' = username s -> repositories s' = PList l -> I s'.
Hypothesis C_0 : C 0.
Hypothesis C_1 : C 1.
Hypothesis E_eof : E EOFError.
Hypothesis E_client : forall e, client_raises w e -> E e.
Hypothesis E_typed :
  (E TypeError /\ E AttributeError) \/ (forall s, I s -> typed s).
Hypothesis config_safe : forall path,
  arg_config a = Some path -> safe I C E (load_config w path).

Lemma safe_bind {A B} (m : M A) (k : A -> M B) :
  safe I C E m -> (forall x, safe I C E (k x)) -> safe I C E (bind m k).
Proof.
  intros Hm Hk s HI. unfold bind. destruct (Hm s HI) as [HI1 Hend].
  destruct (m s) as [x s1|code s1|e s1]; cbn [final] in *; auto.
  now apply Hk.
Qed.

Lemma safe_step {A} (m : M A) :
  (forall s, exists x s',
     m s = Return x s'
     /\ username s' = username s /\ repositories s' = repositories s) ->
  safe I C E m.
Proof.
  intros Hm s HI. destruct (Hm s) as (x & s' & -> & Hu & Hr). cbn [final].
  split; [now apply (I_frame s) | exact Logic.I].
Qed.

Lemma safe_exit {A} code : C code -> safe I C E (@sys_exit A code).
Proof. intros Hc s HI. split; [exact HI | exact Hc]. Qed.

Lemma safe_raise {A} e : E e -> safe I C E (@raise A e).
Proof. intros He s HI. split; [exact HI | exact He]. Qed.

Lemma safe_input p : safe I C E (input p).
Proof.
  intros s HI. unfold input. destruct (stdin s) as [|item rest]; cbn [final];
    (split; [now apply (I_frame s) | auto]).
Qed.

Lemma safe_set_user u : safe I C E (set_username (PStr u)).
Proof.
  intros s HI. cbn [set_username final].
  split; [now apply (I_user s _ u) | exact Logic.I].
Qed.

Lemma safe_set_repos l : safe I C E (set_repositories (PList l)).
Proof.
  intros s HI. cbn [set_repositories final].
  split; [now apply (I_repos s _ l) | exact Logic.I].
Qed.

(** After a run of the client: what it raised may escape. *)
Lemma safe_run {B} c (k : gh_result -> M B) :
  (forall r, (forall e, r = GhRaised e -> E e) -> safe I C E (k r)) ->
  safe I C E (bind (run w c) k).
Proof.
  intros Hk s HI. unfold bind at 1, run, bind, get, emit, ret.
  apply Hk.
  - intros e He. apply E_client. now exists (trace s), c.
  - now apply (I_frame s).
Qed.

Lemma safe_raised {B} e :
  (forall e', GhRaised e = GhRaised e' -> E e') -> safe I C E (@raise B e).
Proof. intro H. apply safe_raise. now apply H. Qed.

Lemma safe_user {B} (k : pyval -> M B) :
  (forall user, safe I C E (k (PStr user))) ->
  (E TypeError -> forall u, safe I C E (k u)) ->
  safe I C E (u <- get username ;; k u).
Proof.
  intros Hstr Hany s HI. unfold bind, get.
  destruct E_typed as [[Ht _]|Ht].
  - now apply Hany.
  - destruct (Ht s HI) as [[u Hu] _]. rewrite Hu. now apply Hstr.
Qed.

Lemma safe_repositories {B} (k : pyval -> M B) :
  (forall l, safe I C E (k (PList l))) ->
  (E TypeError -> E AttributeError -> forall r, safe I C E (k r)) ->
  safe I C E (r <- get repositories ;; k r).
Proof.
  intros Hlist Hany s HI. unfold bind, get.
  destruct E_typed as [[Ht Ha]|Ht].
  - now apply Hany.
  - destruct (Ht s HI) as [_ [l Hl]]. rewrite Hl. now apply Hlist.
Qed.

Ltac safe_one :=
  first
    [ apply safe_exit; first [exact C_0 | exact C_1]
    | apply safe_input
    | apply safe_set_user
    | apply safe_set_repos
    | apply safe_raised; assumption
    | apply safe_run; intros [[|] ?|?] ?
    | apply safe_step; intro; eexists; eexists;
      split; [reflexivity | split; reflexivity]
    | apply safe_bind; [|intro]
    | match goal with
      | |- safe I C E (match ?x with _ => _ end) => destruct x
      end ].

Ltac safe_all := repeat safe_one.

Lemma safe_run_check c : safe I C E (run_check w c).
Proof. unfold run_check. safe_all. Qed.

Lemma check_gh_cli_safe : safe I C E (check_gh_cli w).
Proof.
  unfold check_gh_cli, print_color.
  apply safe_run. intros [[|] out|e] He; [| |destruct e]; safe_all.
Qed.

Lemma check_auth_safe : safe I C E (check_auth w).
Proof.
  unfold check_auth, print_color.
  repeat first [apply safe_run_check | safe_one].
Qed.

Lemma get_username_safe : safe I C E (get_username w).
Proof. unfold get_username, print_color. safe_all. Qed.

Lemma list_repositories_safe : safe I C E (list_repositories w).
Proof.
  unfold list_repositories, print_color.
  apply safe_bind; [safe_all | intros _].
  apply safe_user.
  - intro user. safe_all.
  - intros Ht u. destruct u; first [now apply safe_raise | safe_all].
Qed.

Lemma print_items_safe repos : forall i, safe I C E (print_items i repos).
Proof.
  induction repos as [|repo rest IH]; intro i; cbn [print_items];
    unfold print_color; [safe_all|].
  apply safe_bind; [safe_all | intros _; apply IH].
Qed.

Lemma select_loop_safe repos tokens : forall selected,
  safe I C E (select_loop repos tokens selected).
Proof.
  induction tokens as [|num_str rest IH]; intro selected; cbn [select_loop];
    unfold print_color; [safe_all|].
  destruct (PyStr.int num_str) as [num|];
    [destruct ((1 <=? num) && (num <=? Z.of_nat (List.length repos)))|];
    first [apply IH | apply safe_bind; [safe_all | intros _; apply IH]].
Qed.

Lemma interactive_selection_safe : safe I C E (interactive_selection w).
Proof.
  unfold interactive_selection, print_color.
  apply safe_bind; [safe_all | intros _].
  apply safe_bind; [safe_all | intros _].
  apply safe_bind; [apply list_repositories_safe | intro repos].
  unfold interactive_selection_from, print_color.
  apply safe_bind; [destruct repos; safe_all | intros _].
  apply safe_bind; [safe_all | intros _].
  apply safe_bind; [apply print_items_safe | intros _].
  apply safe_bind; [safe_all | intros _].
  apply safe_bind; [safe_all | intros _].
  apply safe_bind; [safe_all | intros _].
  apply safe_bind; [safe_all | intros [text|]]; [|safe_all].
  apply safe_bind; [|intros _; safe_all].
  destruct (String.eqb (PyStr.lower (PyStr.strip text)) "all"); [safe_all|].
  apply safe_bind; [apply select_loop_safe | intro; safe_all].
Qed.

Lemma load_from_file_safe path : safe I C E (load_from_file w path).
Proof. unfold load_from_file, print_color. safe_all. Qed.

Lemma extend_safe more : safe I C E (extend more).
Proof.
  unfold extend. apply safe_repositories.
  - intro l. safe_all.
  - intros _ Ha r. destruct r; first [now apply safe_raise | safe_all].
Qed.

Lemma validation_pass_safe repos : forall valid_repos,
  safe I C E (validation_pass w repos valid_repos).
Proof.
  induction repos as [|repo rest IH]; intro valid_repos;
    cbn [validation_pass]; [safe_all|].
  unfold validate_repository, print_color.
  apply safe_bind; [repeat first [apply safe_run_check | safe_one] | intros [|]];
    [apply IH|].
  repeat (apply safe_bind; [safe_all | intro]). apply IH.
Qed.

Lemma print_list_safe repos : safe I C E (print_list repos).
Proof.
  induction repos as [|repo rest IH]; cbn [print_list]; unfold print_color;
    [safe_all|].
  apply safe_bind; [safe_all | intro u].
  apply safe_bind; [safe_all | intros _; exact IH].
Qed.

Lemma confirmation_safe valid_repos : safe I C E (confirmation valid_repos).
Proof.
  unfold confirmation, print_color.
  apply safe_bind; [safe_all | intros _].
  apply safe_bind; [apply print_list_safe | intros _].
  safe_all.
Qed.

Lemma delete_repository_safe repo : safe I C E (delete_repository w repo).
Proof.
  unfold delete_repository, print_color, log.
  repeat first [apply safe_run_check | safe_one].
Qed.

Lemma deletion_pass_safe valid_repos : forall i n,
  safe I C E (deletion_pass w i n valid_repos).
Proof.
  induction valid_repos as [|repo rest IH]; intros i n; cbn [deletion_pass];
    unfold print_color, sleep; [safe_all|].
  apply safe_bind; [safe_all | intros _].
  apply safe_bind; [apply delete_repository_safe | intro ok].
  apply safe_bind; [safe_all | intros _].
  apply safe_bind; [safe_all | intros _]. apply IH.
Qed.

Lemma summary_safe : safe I C E summary.
Proof. unfold summary, print_color, log. safe_all. Qed.

Lemma batch_delete_safe auto_confirm : safe I C E (batch_delete w auto_confirm).
Proof.
  unfold batch_delete, print_color.
  assert (Hlist : forall total candidates,
    safe I C E
      (set_successful_deletions 0 ;;;
       set_failed_deletions 0 ;;;
       emit (EPrint MsgStarting) ;;;
       emit (EPrint (MsgTotalToDelete total)) ;;;
       emit (EPrint MsgBlank) ;;;
       valid_repos <- validation_pass w candidates [] ;;
       (match valid_repos with
        | [] => emit (EPrint MsgNoValidRepositories) ;;; sys_exit 1
        | _ => ret tt
        end) ;;;
       (if negb auto_confirm then confirmation valid_repos else ret tt) ;;;
       emit (EPrint MsgBlank) ;;;
       emit (EPrint MsgProcessing) ;;;
       deletion_pass w 1 (Z.of_nat (List.length valid_repos)) valid_repos ;;;
       summary)).
  { intros total candidates.
    do 5 (apply safe_bind; [safe_all | intros _]).
    apply safe_bind; [apply validation_pass_safe | intro valid_repos].
    apply safe_bind; [safe_all | intros _].
    apply safe_bind;
      [destruct (negb auto_confirm);
       [apply confirmation_safe | safe_all] | intros _].
    do 2 (apply safe_bind; [safe_all | intros _]).
    apply safe_bind; [apply deletion_pass_safe | intros _].
    apply summary_safe. }
  apply safe_repositories.
  - intro l. cbn [py_len py_iter]. apply Hlist.
  - intros Ht _ r.
    destruct (py_len r), (py_iter r);
      first [apply Hlist | now apply safe_raise].
Qed.

Lemma main_safe : safe I C E (main w a).
Proof.
  unfold main, main_resolve, print_color, log.
  apply safe_bind; [|intros _; apply batch_delete_safe].
  do 2 (apply safe_bind; [safe_all | intros _]).
  apply safe_bind.
  { destruct (arg_username a) as [u|]; [destruct (nonempty u)|]; safe_all. }
  intros _.
  do 3 (apply safe_bind; [safe_all | intros _]).
  apply safe_bind; [apply check_gh_cli_safe | intros _].
  apply safe_bind; [apply check_auth_safe | intros _].
  apply safe_bind; [apply get_username_safe | intros _].
  apply safe_bind.
  { destruct (arg_config a) as [path|] eqn:Hc; [destruct (nonempty path)|];
      first [now apply config_safe | safe_all]. }
  intros _. apply safe_bind.
  { destruct (arg_file a) as [path|]; [destruct (nonempty path)|];
      first [apply load_from_file_safe | safe_all]. }
  intros _. apply safe_bind.
  { destruct (arg_repositories a); [safe_all | apply extend_safe]. }
  intros _. apply safe_bind; [safe_all | intro r].
  apply safe_bind;
    [destruct (arg_interactive a || negb (truthy r));
     [apply interactive_selection_safe | safe_all] | intros _].
  safe_all.
Qed.

End Safe.

(** ** Before the batch *)

Section Setup.

Variable w : world.

Lemma print_items_setup repos :
  forall i, sat (frame false is_setup) (print_items i repos).
Proof.
  induction repos as [|repo rest IH]; intro i; cbn [print_items].
  - apply sat_ret.
  - unfold print_color. apply sat_bind; [apply sat_emit; reflexivity|].
    intros _. apply IH.
Qed.

Lemma select_loop_setup repos tokens :
  forall selected, sat (frame false is_setup) (select_loop repos tokens selected).
Proof.
  induction tokens as [|num_str rest IH]; intro selected; cbn [select_loop].
  - apply sat_ret.
  - unfold print_color.
    destruct (PyStr.int num_str) as [num|];
      [destruct ((1 <=? num) && (num <=? Z.of_nat (List.length repos)))|];
      try apply IH;
      (apply sat_bind; [apply sat_emit; reflexivity | intros _; apply IH]).
Qed.

Lemma interactive_selection_setup :
  sat (frame false is_setup) (interactive_selection w).
Proof.
  unfold interactive_selection, list_repositories, print_color.
  apply sat_bind; [sat_auto | intros _].
  apply sat_bind; [sat_auto | intros _].
  apply sat_bind; [sat_auto | intro repos].
  unfold interactive_selection_from, print_color.
  apply sat_bind; [destruct repos; sat_auto | intros _].
  apply sat_bind; [sat_auto | intros _].
  apply sat_bind; [apply print_items_setup | intros _].
  apply sat_bind; [sat_auto | intros _].
  apply sat_bind; [sat_auto | intros _].
  apply sat_bind; [sat_auto | intros _].
  apply sat_bind; [sat_auto | intros [text|]]; [|sat_auto].
  apply sat_bind; [|intros _; sat_auto].
  destruct (String.eqb (PyStr.lower (PyStr.strip text)) "all"); [sat_auto|].
  apply sat_bind; [apply select_loop_setup | intro; sat_auto].
Qed.

Lemma main_resolve_setup a : sat (frame false is_setup) (main_resolve w a).
Proof.
  unfold main_resolve, print_color, log.
  apply sat_bind; [sat_auto | intros _].
  apply sat_bind; [sat_auto | intros _].
  apply sat_bind.
  { destruct (arg_username a) as [u|]; [destruct (nonempty u)|]; sat_auto. }
  intros _.
  apply sat_bind; [sat_auto | intros _].
  apply sat_bind; [sat_auto | intros _].
  apply sat_bind; [sat_auto | intros _].
  apply sat_bind; [unfold check_gh_cli, print_color; sat_auto | intros _].
  apply sat_bind;
    [unfold check_auth, run_check, print_color; sat_auto | intros _].
  apply sat_bind; [unfold get_username, print_color; sat_auto | intros _].
  apply sat_bind.
  { destruct (arg_config a) as [path|]; [destruct (nonempty path)|];
      unfold load_config, config_entry, print_color; sat_auto. }
  intros _. apply sat_bind.
  { destruct (arg_file a) as [path|]; [destruct (nonempty path)|];
      unfold load_from_file, print_color; sat_auto. }
  intros _. apply sat_bind.
  { destruct (arg_repositories a); unfold extend; sat_auto. }
  intros _. apply sat_bind; [sat_auto | intro r].
  apply sat_bind;
    [destruct (arg_interactive a || negb (truthy r));
     [apply interactive_selection_setup | sat_auto] | intros _].
  sat_auto.
Qed.

End Setup.

Lemma setup_not_attempt e : is_setup e = true -> attempt_of e = [].
Proof. event_cases e. Qed.

(** A batch that ends by [sys.exit] has called [delete_repository] for
    nothing. *)
Lemma batch_exit_no_call w auto_confirm s code s' :
  batch_delete w auto_confirm s = Exit code s' ->
  exists suf, trace s' = trace s ++ suf /\ delete_calls suf = [].
Proof.
  intro Hexit. destruct (py_iter (repositories s)) as [candidates|] eqn:Hiter.
  - destruct (batch_delete_run w auto_confirm s candidates Hiter)
      as (verdicts & pre & post & _ & Htr & Hpre & _ & _ & _ & _ & _ & _ & _
          & Hend).
    cbv zeta in *. rewrite Hexit in Htr, Hend. cbn [final] in Htr.
    exists (pre ++ post). split; [exact Htr|].
    rewrite delete_calls_app. unfold delete_calls at 1.
    rewrite (only_flat_map _ _ Hpre _ pre_not_attempt). cbn [app].
    inversion Hend; subst; [reflexivity | assumption].
  - rewrite batch_delete_eq, Hiter in Hexit.
    destruct (py_len (repositories s)); discriminate Hexit.
Qed.

Lemma load_config_codes w path :
  safe (fun _ => True) zero_or_one (fun _ => True) (load_config w path).
Proof.
  intros s _. split; [exact I|]. unfold load_config, zero_or_one.
  destruct (path_exists w path); cbn [negb];
    [destruct (json_load w path) as [| |config];
     [| |unfold config_entry, py_in, py_getitem;
         destruct config as [|b|z|f|str|l|items];
         [| | | |destruct (PyStr.contains "username" str),
                   (PyStr.contains "repositories" str)
          |destruct (existsb (is_str "username") l),
                    (existsb (is_str "repositories") l)
          |destruct (dict_get "username" items) as [u|];
           destruct (dict_get "repositories" items) as [r|];
           try destruct (truthy u); try destruct (truthy r)]]|];
    unfold bind, ret, set_username, set_repositories, print_color, emit,
      sys_exit; cbv beta iota; auto.
Qed.

(** X14.  Once the command line is parsed, [main] ends the process by
    [sys.exit] only with the codes 0 and 1, and only before anything was
    deleted: a run that exits has made no call of [delete_repository],
    neither live nor dry. *)
Theorem exit_before_deleting w a s code s' :
  main w a s = Exit code s' ->
  (code = 0 \/ code = 1)
  /\ exists suf, trace s' = trace s ++ suf /\ delete_calls suf = [].
Proof.
  intro Hexit. split.
  - assert (Hsafe : safe (fun _ => True) zero_or_one (fun _ => True) (main w a)).
    { apply main_safe; auto; try (now left); try (now right).
      intros path _. apply load_config_codes. }
    destruct (Hsafe s I) as [_ Hend]. now rewrite Hexit in Hend.
  - unfold main, bind in Hexit.
    destruct (main_resolve_setup w a s) as [_ (suf1 & Htr1 & Hq1)].
    destruct (main_resolve w a s) as [[] s1|c s1|e s1]; cbn [final] in *.
    + destruct (batch_exit_no_call _ _ _ _ _ Hexit) as (suf2 & Htr2 & Hnone).
      exists (suf1 ++ suf2). split; [now rewrite Htr2, Htr1, app_assoc|].
      rewrite delete_calls_app, Hnone, app_nil_r. unfold delete_calls.
      apply (only_flat_map _ _ Hq1 _ setup_not_attempt).
    + inversion Hexit; subst. exists suf1. split; [exact Htr1|].
      apply (only_flat_map _ _ Hq1 _ setup_not_attempt).
    + discriminate Hexit.
Qed.

Lemma typed_frame s s' :
  typed s -> username s' = username s -> repositories s' = repositories s ->
  typed s'.
Proof. unfold typed. intros H Hu Hr. now rewrite Hu, Hr. Qed.

Lemma load_config_typed w a path :
  config_typed w a ->
  arg_config a = Some path ->
  safe typed (fun _ => True) (fun e => e = EOFError \/ client_raises w e)
    (load_config w path).
Proof.
  unfold config_typed. intros Hcfg Hpath s [[u0 Hu0] [l0 Hl0]].
  rewrite Hpath in Hcfg. unfold load_config, typed.
  destruct (path_exists w path); cbn [negb];
    [destruct (json_load w path) as [| |config];
     [| |unfold config_entry, py_in, py_getitem;
         destruct config as [|b|z|f|str|l|items];
         [| | | |destruct (PyStr.contains "username" str),
                   (PyStr.contains "repositories" str)
          |destruct (existsb (is_str "username") l),
                    (existsb (is_str "repositories") l)
          |destruct Hcfg as [Hcu Hcr];
           destruct (dict_get "username" items) as [u|];
           destruct (dict_get "repositories" items) as [r|];
           try (destruct (truthy u); [destruct (Hcu eq_refl) as [u1 ->]|]);
           try (destruct (truthy r); [destruct (Hcr eq_refl) as [l1 ->]|])]]|];
    unfold bind, ret, set_username, set_repositories, print_color, emit,
      sys_exit, push; cbv beta iota; cbn [final username repositories];
    eauto.
Qed.


(** ** A string where a list is expected *)

Lemma load_config_returns_repositories w path s items v u s' :
  json_load w path = JsonValue (PDict items) ->
  dict_get "repositories" items = Some v ->
  truthy v = true ->
  load_config w path s = Return u s' ->
  repositories s' = v.
Proof.
  intros Hjson Hget Hv. unfold load_config.
  destruct (path_exists w path); cbn [negb];
    [|unfold bind, print_color, emit, sys_exit; discriminate].
  rewrite Hjson. unfold config_entry, py_in, py_getitem. rewrite Hget, Hv.
  destruct (dict_get "username" items) as [x|]; [destruct (truthy x)|];
    unfold bind, ret, set_username, set_repositories, print_color, emit, push;
    cbn [repositories]; intro Hret; inversion Hret; reflexivity.
Qed.

(** X16.  A configuration file whose [repositories] entry is a string is
    taken as it is: with nothing else naming repositories, [main] reaches
    the batch with that string as its list, and the candidates the batch
    validates, one after the other, are the characters of the string. *)
Theorem config_string_spelled_out w a s s' path items str :
  arg_config a = Some path ->
  nonempty path = true ->
  arg_file a = None ->
  arg_repositories a = [] ->
  arg_interactive a = false ->
  json_load w path = JsonValue (PDict items) ->
  dict_get "repositories" items = Some (PStr str) ->
  nonempty str = true ->
  main_resolve w a s = Return tt s' ->
  repositories s' = PStr str
  /\ forall auto_confirm, exists verdicts suf,
       trace (final (batch_delete w auto_confirm s')) = trace s' ++ suf
       /\ validated suf = combine (chars str) verdicts.
Proof.
  intros Hc Hne Hf Hargs Hi Hjson Hget Hstr Hret.
  assert (Hrepos : repositories s' = PStr str).
  { unfold main_resolve in Hret.
    do 9 peel Hret. rewrite Hc, Hne, Hf, Hargs in Hret. peel Hret.
    match goal with
    | H : load_config _ _ _ = Return _ _ |- _ =>
        apply (load_config_returns_repositories _ _ _ _ _ _ _ Hjson Hget Hstr)
          in H as Hrepos
    end.
    unfold bind at 1, ret at 1 in Hret. unfold bind at 1, ret at 1 in Hret.
    rewrite selection_skipped in Hret;
      [|exact Hi | rewrite Hrepos; exact Hstr].
    now inversion Hret; subst. }
  split; [exact Hrepos|]. intro auto_confirm.
  destruct (batch_delete_run w auto_confirm s' (chars str))
    as (verdicts & pre & post & _ & Htr & _ & Hpost & _ & Hval & _);
    [now rewrite Hrepos|].
  cbv zeta in *. exists verdicts, (pre ++ post). split; [exact Htr|].
  rewrite validated_app. unfold validated at 2.
  now rewrite (only_flat_map _ _ Hpost _ post_not_view), app_nil_r.
Qed.

(** ** The user the client is asked for *)

Lemma get_username_asks w r :
  (forall tr, gh w tr GhApiUserLogin = r) ->
  (forall e, r <> GhRaised e) ->
  forall s, username s = PStr "" ->
  username (final (get_username w s)) = PStr (detected_user r).
Proof.
  intros Hgh Hr s Hu. unfold get_username, run, print_color.
  unfold bind, get, emit, ret, raise, set_username. rewrite Hu. cbn [truthy negb String.eqb].
  rewrite Hgh. destruct r as [[|] stdout|e]; [| |now destruct (Hr e)];
    fields; [reflexivity | exact Hu].
Qed.

Lemma returns_keeps {A} q (m : M A) s x s' :
  sat (frame true q) m -> m s = Return x s' -> username s' = username s.
Proof.
  intros Hm Hret. destruct (Hm s) as [Hk _]. rewrite Hret in Hk.
  exact (Hk eq_refl).
Qed.

(** Peels a step that keeps the user name off a sequence that returned. *)
Ltac keep_step H Hu :=
  let x := fresh "x" in
  let t := fresh "t" in
  let Hstep := fresh "Hstep" in
  apply bind_return in H as (x & t & Hstep & H);
  apply (returns_keeps is_resolve) in Hstep; [rewrite <- Hstep in Hu|].

(** X17.  Without [--username] and without a user name in the
    configuration file, a new session acts for the user the client
    names: every run of the client on a repository during [main], for
    validation or for deletion, names the stripped answer to the login
    query, and the empty name when that query failed. *)
Theorem detected_user_is_acting w a s r :
  arg_username a = None ->
  config_user w a = None ->
  username s = PStr "" ->
  (forall tr, gh w tr GhApiUserLogin = r) ->
  (forall e, r <> GhRaised e) ->
  exists suf,
    trace (final (main w a s)) = trace s ++ suf
    /\ Forall (owned_by (PStr (detected_user r))) suf.
Proof.
  intros Hflag Hcfg Hs Hgh Hr.
  destruct (main_resolve_hoare w a s) as [[_ (suf & Htr & Hq)] _].
  assert (Hown : Forall (owned_by (PStr (detected_user r))) suf)
    by (apply (only_Forall _ _ Hq); apply resolve_owned).
  unfold main, bind.
  destruct (main_resolve w a s) as [[] s1|code s1|e s1] eqn:Hres;
    cbn [final] in *; try (exists suf; split; assumption).
  destruct (batch_delete_owned w (arg_auto_confirm a) s1) as (suf2 & Htr2 & Hown2).
  exists (suf ++ suf2). split; [now rewrite Htr2, Htr, app_assoc|].
  apply Forall_app. split; [exact Hown|].
  enough (Hu : username s1 = PStr (detected_user r)) by now rewrite <- Hu.
  clear Htr Hq Hown suf suf2 Htr2 Hown2.
  unfold main_resolve in Hres. rewrite Hflag in Hres.
  do 6 (keep_step Hres Hs; [|unfold print_color, log; sat_auto]).
  keep_step Hres Hs; [|apply check_gh_cli_sat].
  keep_step Hres Hs; [|apply check_auth_sat].
  apply bind_return in Hres as (y & sa & Hask & Hres).
  pose proof (get_username_asks w r Hgh Hr _ Hs) as Hu.
  rewrite Hask in Hu. cbn [final] in Hu.
  apply bind_return in Hres as (y' & sb & Hload & Hres).
  assert (Hu' : username sb = PStr (detected_user r)).
  { destruct (arg_config a) as [path|] eqn:Hpath;
      [destruct (nonempty path) eqn:Hp|];
      try (unfold ret in Hload; inversion Hload; subst; exact Hu).
    pose proof (load_config_keeps_user w path sa
                  (config_user_none w a path Hcfg Hpath Hp)) as Hk.
    rewrite Hload in Hk. cbn [final] in Hk. now rewrite Hk. }
  rewrite <- Hu'. exact (returns_keeps _ _ _ _ _ (after_config_sat w a tt) Hres).
Qed.

(** ** More concrete runs *)

Lemma list_repositories_names_witness :
  let s := session [] false [] in
  let s' := final (list_repositories demo_world s) in
  list_repositories demo_world s = Return ["r1"; "r2"] s'
  /\ Forall (fun name => clean_name name /\ has_char "010"%char name = false)
            ["r1"; "r2"]
  /\ same_fields s s'.
Proof.
  cbv zeta.
  assert (H : list_repositories demo_world (session [] false [])
              = Return ["r1"; "r2"]
                  (final (list_repositories demo_world (session [] false []))))
    by evaluate.
  split; [exact H|].
  destruct (list_repositories_names _ _ _ _ H) as (Hn & Hs & _).
  split; assumption.
Defined.

Lemma flag_username_honoured_witness :
  let a := mkArgs ["demo"] (Some "alice") None None true false true false in
  arg_username a = Some "alice"
  /\ nonempty "alice" = true
  /\ config_user demo_world a = None
  /\ exists suf,
       trace (final (main demo_world a (new_deleter []))) = [] ++ suf
       /\ Forall (owned_by (PStr "alice")) suf.
Proof.
  cbv zeta. split; [reflexivity|]. split; [reflexivity|]. split; [reflexivity|].
  exact (flag_username_honoured demo_world
           (mkArgs ["demo"] (Some "alice") None None true false true false)
           (new_deleter []) "alice" eq_refl eq_refl eq_refl).
Defined.

Lemma interactive_selection_listed_witness :
  let s := session [] false [Line "2"] in
  let s' := final (interactive_selection demo_world s) in
  interactive_selection demo_world s = Return tt s'
  /\ exists user stdout chosen,
       username s = PStr user
       /\ In (EGh (GhRepoList user) (GhDone true stdout)) (trace s')
       /\ repositories s' = PList (map PStr chosen)
       /\ chosen <> []
       /\ incl chosen (listed_names stdout)
       /\ Forall clean_name chosen
       /\ username s' = username s.
Proof.
  cbv zeta.
  assert (H : interactive_selection demo_world (session [] false [Line "2"])
              = Return tt
                  (final (interactive_selection demo_world
                            (session [] false [Line "2"]))))
    by evaluate.
  split; [exact H|].
  exact (interactive_selection_listed _ _ _ H).
Defined.

Lemma interactive_selection_nothing_listed_witness :
  let s := new_deleter [Line "1"] in
  let o := interactive_selection odd_world s in
  username s = PStr ""
  /\ nothing_listed (gh odd_world (at_listing s) (GhRepoList ""))
  /\ o = Exit 0 (final o)
  /\ same_fields s (final o)
  /\ filter is_input (trace (final o)) = filter is_input (trace s).
Proof.
  cbv zeta. split; [reflexivity|]. split; [exact I|].
  exact (interactive_selection_nothing_listed odd_world
           (new_deleter [Line "1"]) "" eq_refl I).
Defined.

Lemma file_then_arguments_witness :
  let a := dry_args ["extra"] (Some "list.txt") None false in
  let s' := final (main_resolve demo_world a (new_deleter [])) in
  arg_file a = Some "list.txt"
  /\ nonempty "list.txt" = true
  /\ arg_interactive a = false
  /\ main_resolve demo_world a (new_deleter []) = Return tt s'
  /\ exists lines,
       path_exists demo_world "list.txt" = true
       /\ read_lines demo_world "list.txt" = Some lines
       /\ (file_names lines ++ arg_repositories a <> [] ->
           repositories s'
           = PList (map PStr (file_names lines ++ arg_repositories a))).
Proof.
  cbv zeta.
  assert (H : main_resolve demo_world
                (dry_args ["extra"] (Some "list.txt") None false)
                (new_deleter [])
              = Return tt
                  (final (main_resolve demo_world
                            (dry_args ["extra"] (Some "list.txt") None false)
                            (new_deleter []))))
    by evaluate.
  split; [reflexivity|]. split; [reflexivity|]. split; [reflexivity|].
  split; [exact H|].
  exact (file_then_arguments demo_world
           (dry_args ["extra"] (Some "list.txt") None false)
           (new_deleter []) _ "list.txt" eq_refl eq_refl eq_refl H).
Defined.

Lemma config_then_arguments_witness :
  let a := dry_args ["extra"] None (Some "list.json") false in
  let s' := final (main_resolve demo_world a (new_deleter [])) in
  let items := [("repositories", PList [PStr "demo"; PStr "gone"])] in
  arg_config a = Some "list.json"
  /\ nonempty "list.json" = true
  /\ arg_file a = None
  /\ arg_interactive a = false
  /\ json_load demo_world "list.json" = JsonValue (PDict items)
  /\ dict_get "repositories" items = Some (PList [PStr "demo"; PStr "gone"])
  /\ [PStr "demo"; PStr "gone"] <> []
  /\ main_resolve demo_world a (new_deleter []) = Return tt s'
  /\ repositories s'
     = PList ([PStr "demo"; PStr "gone"] ++ map PStr (arg_repositories a)).
Proof.
  cbv zeta.
  assert (H : main_resolve demo_world
                (dry_args ["extra"] None (Some "list.json") false)
                (new_deleter [])
              = Return tt
                  (final (main_resolve demo_world
                            (dry_args ["extra"] None (Some "list.json") false)
                            (new_deleter []))))
    by evaluate.
  assert (Hne : [PStr "demo"; PStr "gone"] <> []) by discriminate.
  split; [reflexivity|]. split; [reflexivity|]. split; [reflexivity|].
  split; [reflexivity|]. split; [reflexivity|]. split; [reflexivity|].
  split; [exact Hne|]. split; [exact H|].
  exact (config_then_arguments demo_world
           (dry_args ["extra"] None (Some "list.json") false)
           (new_deleter []) _ "list.json"
           [("repositories", PList [PStr "demo"; PStr "gone"])]
           [PStr "demo"; PStr "gone"]
           eq_refl eq_refl eq_refl eq_refl eq_refl eq_refl Hne H).
Defined.

Lemma interactive_replaces_list_witness :
  let a := dry_args ["extra"] None None true in
  let s' := final (main_resolve demo_world a (new_deleter [Line "2"])) in
  arg_interactive a = true
  /\ main_resolve demo_world a (new_deleter [Line "2"]) = Return tt s'
  /\ exists user stdout chosen,
       In (EGh (GhRepoList user) (GhDone true stdout)) (trace s')
       /\ repositories s' = PList (map PStr chosen)
       /\ chosen <> []
       /\ incl chosen (listed_names stdout).
Proof.
  cbv zeta.
  assert (H : main_resolve demo_world (dry_args ["extra"] None None true)
                (new_deleter [Line "2"])
              = Return tt
                  (final (main_resolve demo_world
                            (dry_args ["extra"] None None true)
                            (new_deleter [Line "2"]))))
    by evaluate.
  split; [reflexivity|]. split; [exact H|].
  exact (interactive_replaces_list demo_world
           (dry_args ["extra"] None None true)
           (new_deleter [Line "2"]) _ eq_refl H).
Defined.

Lemma commands_after_checks_witness :
  let a := dry_args ["demo"] None None false in
  let tr := trace (final (main demo_world a (new_deleter []))) in
  let e := EGh GhApiUserLogin (GhDone true ("carol" ++ nl)%string) in
  tr = [] ++ firstn 8 tr ++ e :: skipn 9 tr
  /\ is_account_command e = true
  /\ checks_passed (firstn 8 tr).
Proof.
  cbv zeta.
  assert (H : trace (final (main demo_world (dry_args ["demo"] None None false)
                              (new_deleter [])))
              = [] ++ firstn 8 (trace (final (main demo_world
                              (dry_args ["demo"] None None false)
                              (new_deleter []))))
                ++ EGh GhApiUserLogin (GhDone true ("carol" ++ nl)%string)
                   :: skipn 9 (trace (final (main demo_world
                              (dry_args ["demo"] None None false)
                              (new_deleter [])))))
    by evaluate.
  split; [exact H|]. split; [reflexivity|].
  exact (commands_after_checks demo_world (dry_args ["demo"] None None false)
           (new_deleter []) _ _ _ H eq_refl).
Defined.

Lemma exit_before_deleting_witness :
  let a := dry_args ["gone"] None None false in
  let s' := final (main demo_world a (new_deleter [])) in
  main demo_world a (new_deleter []) = Exit 1 s'
  /\ (1 = 0 \/ 1 = 1)
  /\ exists suf, trace s' = [] ++ suf /\ delete_calls suf = [].
Proof.
  cbv zeta.
  assert (H : main demo_world (dry_args ["gone"] None None false)
                (new_deleter [])
              = Exit 1
                  (final (main demo_world (dry_args ["gone"] None None false)
                            (new_deleter []))))
    by evaluate.
  split; [exact H|].
  exact (exit_before_deleting demo_world (dry_args ["gone"] None None false)
           (new_deleter []) 1 _ H).
Defined.


Lemma config_string_spelled_out_witness :
  let a := dry_args [] None (Some "c.json") false in
  let s' := final (main_resolve odd_world a (new_deleter [])) in
  let items := [("repositories", PStr "ab")] in
  arg_config a = Some "c.json"
  /\ nonempty "c.json" = true
  /\ arg_file a = None
  /\ arg_repositories a = []
  /\ arg_interactive a = false
  /\ json_load odd_world "c.json" = JsonValue (PDict items)
  /\ dict_get "repositories" items = Some (PStr "ab")
  /\ nonempty "ab" = true
  /\ main_resolve odd_world a (new_deleter []) = Return tt s'
  /\ repositories s' = PStr "ab"
  /\ forall auto_confirm, exists verdicts suf,
       trace (final (batch_delete odd_world auto_confirm s')) = trace s' ++ suf
       /\ validated suf = combine (chars "ab") verdicts.
Proof.
  cbv zeta.
  assert (H : main_resolve odd_world (dry_args [] None (Some "c.json") false)
                (new_deleter [])
              = Return tt
                  (final (main_resolve odd_world
                            (dry_args [] None (Some "c.json") false)
                            (new_deleter []))))
    by evaluate.
  do 8 (split; [reflexivity|]). split; [exact H|].
  exact (config_string_spelled_out odd_world
           (dry_args [] None (Some "c.json") false) (new_deleter []) _
           "c.json" [("repositories", PStr "ab")] "ab"
           eq_refl eq_refl eq_refl eq_refl eq_refl eq_refl eq_refl eq_refl H).
Defined.

Lemma detected_user_is_acting_witness :
  let a := dry_args ["demo"] None None false in
  let r := GhDone true ("carol" ++ nl)%string in
  arg_username a = None
  /\ config_user demo_world a = None
  /\ username (new_deleter []) = PStr ""
  /\ (forall tr, gh demo_world tr GhApiUserLogin = r)
  /\ (forall e, r <> GhRaised e)
  /\ exists suf,
       trace (final (main demo_world a (new_deleter []))) = [] ++ suf
       /\ Forall (owned_by (PStr (detected_user r))) suf.
Proof.
  cbv zeta.
  assert (Hr : forall e, GhDone true ("carol" ++ nl)%string <> GhRaised e)
    by discriminate.
  split; [reflexivity|]. split; [reflexivity|]. split; [reflexivity|].
  split; [intro tr; reflexivity|]. split; [exact Hr|].
  exact (detected_user_is_acting demo_world (dry_args ["demo"] None None false)
           (new_deleter []) (GhDone true ("carol" ++ nl)%string)
           eq_refl eq_refl eq_refl (fun tr => eq_refl) Hr).
Defined.
